(** * Zefanilia-Bibles-Creator: the chapter extractor, the catalogue and the
      XML writer of [src/Bible.py], [src/main.py] and [src/utils.py].

    The Python code is embedded function by function.  A [str] is a Stdlib
    [string] (the texts over the first 256 code points; on that range
    [isspace], the blanks skipped by [int] and the digits it accepts are
    exactly the ones below),
    except in [decodeHtml], which is about code points and bytes and works
    on lists of numbers ([list N]).  A raised exception is a [Raise] result;
    [print], file writes and the exceptions travel in a trace monad [io].
    What lies outside the program (the network, the file system, the
    libraries, the scheduler) is a [World] for one call and a [Run], a world
    for every call in turn, for [writeFile] and [writeBible]. *)

From Stdlib Require Import ZArith NArith List String Ascii Bool Lia.
From Stdlib Require Import Permutation DecimalString DecimalPos.
Import ListNotations.

Local Open Scope string_scope.
Local Open Scope list_scope.
Local Open Scope Z_scope.

(** ** Exceptions and results *)

Inductive exn : Type :=
| KeyError
| AttributeError
| ValueError
| TypeError
| IndexError
| StopIteration
| UnicodeEncodeError
| UnicodeDecodeError (reason : string)
| OSError (what : string)
| LibraryError (what : string).

Inductive result (A : Type) : Type :=
| Ok (a : A)
| Raise (e : exn).
Arguments Ok {A} a.
Arguments Raise {A} e.

Definition rbind {A B} (r : result A) (k : A -> result B) : result B :=
  match r with
  | Ok a => k a
  | Raise e => Raise e
  end.

Fixpoint rmap_list {A B} (f : A -> result B) (l : list A) : result (list B) :=
  match l with
  | [] => Ok []
  | a :: l' =>
      rbind (f a) (fun b => rbind (rmap_list f l') (fun bs => Ok (b :: bs)))
  end.

(** ** The [str] methods the program calls *)

Module Str.

(** [c.isspace()] for a character below U+0100. *)
Definition isspace (c : ascii) : bool :=
  let n := nat_of_ascii c in
  ((9 <=? n) && (n <=? 13) || (28 <=? n) && (n <=? 31)
   || (n =? 32) || (n =? 133) || (n =? 160))%nat.

Fixpoint lstrip (s : string) : string :=
  match s with
  | EmptyString => EmptyString
  | String c r => if isspace c then lstrip r else s
  end.

Fixpoint rstrip (s : string) : string :=
  match s with
  | EmptyString => EmptyString
  | String c r =>
      match rstrip r with
      | EmptyString => if isspace c then EmptyString else String c EmptyString
      | r' => String c r'
      end
  end.

(** [s.strip()] *)
Definition strip (s : string) : string := rstrip (lstrip s).

(** [s.startswith(p)] *)
Fixpoint startswith (s p : string) : bool :=
  match p, s with
  | EmptyString, _ => true
  | String _ _, EmptyString => false
  | String a p', String b s' => Ascii.eqb a b && startswith s' p'
  end.

(** Scanning left to right; [skip] characters of a match just taken are
    passed over, so that matches do not overlap. *)
Fixpoint count_from (skip : nat) (sub s : string) : nat :=
  match s with
  | EmptyString => O
  | String _ r =>
      match skip with
      | S k => count_from k sub r
      | O =>
          if startswith s sub
          then S (count_from (String.length sub - 1) sub r)
          else count_from O sub r
      end
  end.

(** [s.count(sub)] *)
Definition count (s sub : string) : nat :=
  match sub with
  | EmptyString => S (String.length s)
  | _ => count_from O sub s
  end.

Fixpoint replace_from (skip : nat) (old new s : string) : string :=
  match s with
  | EmptyString => EmptyString
  | String c r =>
      match skip with
      | S k => replace_from k old new r
      | O =>
          if startswith s old
          then new ++ replace_from (String.length old - 1) old new r
          else String c (replace_from O old new r)
      end
  end.

Fixpoint interleave (new s : string) : string :=
  match s with
  | EmptyString => EmptyString
  | String c r => String c (new ++ interleave new r)
  end.

(** [s.replace(old, new)] *)
Definition replace (s old new : string) : string :=
  match old with
  | EmptyString => new ++ interleave new s
  | _ => replace_from O old new s
  end.

Fixpoint split_from (skip : nat) (sep s : string) : list string :=
  match s with
  | EmptyString => [EmptyString]
  | String c r =>
      match skip with
      | S k => split_from k sep r
      | O =>
          if startswith s sep
          then EmptyString :: split_from (String.length sep - 1) sep r
          else
            match split_from O sep r with
            | g :: gs => String c g :: gs
            | [] => [String c EmptyString]
            end
      end
  end.

(** [s.split(sep)] with an explicit separator; the empty separator is a
    [ValueError]. *)
Definition split (s sep : string) : result (list string) :=
  match sep with
  | EmptyString => Raise ValueError
  | _ => Ok (split_from O sep s)
  end.

Definition digit_of (c : ascii) : option N :=
  let n := N_of_ascii c in
  if ((48 <=? n) && (n <=? 57))%N then Some (n - 48)%N else None.

(** The blanks [int] skips around a number, for a character below U+0100:
    the blanks of C ([\t], [\n], [\v], [\f], [\r] and the space) and the
    whitespace above U+007F (U+0085 and U+00A0).  The separators U+001C to
    U+001F, which [str.strip] removes, are not among them. *)
Definition int_blank (c : ascii) : bool :=
  let n := nat_of_ascii c in
  ((9 <=? n) && (n <=? 13) || (n =? 32) || (n =? 133) || (n =? 160))%nat.

Fixpoint int_lstrip (s : string) : string :=
  match s with
  | EmptyString => EmptyString
  | String c r => if int_blank c then int_lstrip r else s
  end.

Fixpoint int_rstrip (s : string) : string :=
  match s with
  | EmptyString => EmptyString
  | String c r =>
      match int_rstrip r with
      | EmptyString => if int_blank c then EmptyString else String c EmptyString
      | r' => String c r'
      end
  end.

(** The digits of an integer literal as [int] reads them: decimal digits,
    a single underscore allowed between two digits. *)
Fixpoint digits_acc (after_digit : bool) (acc : N) (s : string) : option N :=
  match s with
  | EmptyString => if after_digit then Some acc else None
  | String c r =>
      match digit_of c with
      | Some d => digits_acc true (10 * acc + d)%N r
      | None =>
          if Ascii.eqb c "_" && after_digit then digits_acc false acc r
          else None
      end
  end.

(** [int(s)] for a [str] argument, base 10: blanks, an optional sign, the
    digits, blanks.  The number of digits is not limited here: CPython from
    3.11 on refuses, unless it is set otherwise, a text of more than 4300
    digits with a [ValueError], which a text of up to 4300 characters cannot
    reach. *)
Definition int (s : string) : result Z :=
  let t := int_rstrip (int_lstrip s) in
  let '(neg, body) :=
    match t with
    | String c r =>
        if Ascii.eqb c "-" then (true, r)
        else if Ascii.eqb c "+" then (false, r)
        else (false, t)
    | EmptyString => (false, t)
    end in
  match digits_acc false 0%N body with
  | Some n => Ok (if neg then - Z.of_N n else Z.of_N n)
  | None => Raise ValueError
  end.

(** [str(z)], also what an f-string field prints for an [int]. *)
Definition of_Z (z : Z) : string := NilZero.string_of_int (Z.to_int z).

(** [' ' * n] *)
Fixpoint spaces (n : nat) : string :=
  match n with
  | O => EmptyString
  | S k => String " " (spaces k)
  end.

(** [s[a:]] and [s[:-1]] for the slice of [Chapter.__init__]. *)
Fixpoint drop_last {A} (l : list A) : list A :=
  match l with
  | [] => []
  | [_] => []
  | a :: l' => a :: drop_last l'
  end.

End Str.

(** ** The trace monad: what is printed and written, and the outcome *)

Inductive event : Type :=
| PrintLine (line : string)
| PrintTag (text : string) (attrib : list (string * string))
| PrintBookDone (name : string)
| FileOpen (path : string)
| FileWrite (data : string).

Definition io (A : Type) : Type := (list event * result A)%type.

Definition ret {A} (a : A) : io A := ([], Ok a).
Definition raise {A} (e : exn) : io A := ([], Raise e).
Definition emit (ev : event) : io unit := ([ev], Ok tt).
Definition lift {A} (r : result A) : io A := ([], r).

Definition bind {A B} (m : io A) (k : A -> io B) : io B :=
  match m with
  | (t, Ok a) => let '(t', r) := k a in (t ++ t', r)
  | (t, Raise e) => (t, Raise e)
  end.

Notation "x <- m ;; k" := (bind m (fun x => k))
  (at level 61, m at next level, right associativity).
Notation "' p <- m ;; k" := (bind m (fun x => let 'p := x in k))
  (at level 61, p pattern, m at next level, right associativity).
Notation "m ;;; k" := (bind m (fun _ => k))
  (at level 61, right associativity).

(** [try: m  except: handler; raise] *)
Definition on_error {A} (m : io A) (handler : io unit) : io A :=
  match m with
  | (t, Ok a) => (t, Ok a)
  | (t, Raise e) =>
      match handler with
      | (t', Ok _) => (t ++ t', Raise e)
      | (t', Raise e') => (t ++ t', Raise e')
      end
  end.

Fixpoint foldM {A S} (f : S -> A -> io S) (l : list A) (s : S) : io S :=
  match l with
  | [] => ret s
  | a :: l' => s' <- f s a ;; foldM f l' s'
  end.

(** ** Dictionaries: insertion ordered, as Python's are *)

Section Dict.
Context {K V : Type} (eqb : K -> K -> bool).

Fixpoint dict_get (k : K) (d : list (K * V)) : option V :=
  match d with
  | [] => None
  | (k', v) :: d' => if eqb k k' then Some v else dict_get k d'
  end.

(** [d[k] = v]: an existing key keeps its place, a new one goes last. *)
Fixpoint dict_set (k : K) (v : V) (d : list (K * V)) : list (K * V) :=
  match d with
  | [] => [(k, v)]
  | (k', v') :: d' =>
      if eqb k k' then (k', v) :: d' else (k', v') :: dict_set k v d'
  end.

(** [d[k]] on a [defaultdict]: a missing key is inserted with the default
    value, which is returned. *)
Definition defaultdict_getitem (default : V) (k : K) (d : list (K * V))
  : V * list (K * V) :=
  match dict_get k d with
  | Some v => (v, d)
  | None => (default, dict_set k default d)
  end.

Definition dict_keys (d : list (K * V)) : list K := map fst d.
End Dict.

(** ** utils.py *)

Module Codec.

(** [text.encode('utf-8')], one code point. *)
Definition utf8_char (c : N) : result (list N) :=
  (if c <? 128 then Ok [c]
   else if c <? 2048 then Ok [192 + c / 64; 128 + c mod 64]
   else if c <? 65536 then
     if (55296 <=? c) && (c <=? 57343) then Raise UnicodeEncodeError
     else Ok [224 + c / 4096; 128 + (c / 64) mod 64; 128 + c mod 64]
   else if c <? 1114112 then
     Ok [240 + c / 262144; 128 + (c / 4096) mod 64;
         128 + (c / 64) mod 64; 128 + c mod 64]
   else Raise UnicodeEncodeError)%N.

Fixpoint utf8_encode (text : list N) : result (list N) :=
  match text with
  | [] => Ok []
  | c :: r =>
      rbind (utf8_char c) (fun bs =>
      rbind (utf8_encode r) (fun rest => Ok (bs ++ rest)))
  end.

Definition hex_digit (b : N) : option N :=
  (if (48 <=? b) && (b <=? 57) then Some (b - 48)
   else if (97 <=? b) && (b <=? 102) then Some (b - 87)
   else if (65 <=? b) && (b <=? 70) then Some (b - 55)
   else None)%N.

Definition octal_digit (b : N) : option N :=
  (if (48 <=? b) && (b <=? 55) then Some (b - 48) else None)%N.

(** The [hexescape] loop: [count] hexadecimal digits or an error. *)
Fixpoint hex_value (count : nat) (ch : N) (s : list N) : option N :=
  match count with
  | O => Some ch
  | S k =>
      match s with
      | [] => None
      | b :: r =>
          match hex_digit b with
          | Some d => hex_value k (16 * ch + d)%N r
          | None => None
          end
      end
  end.

Definition hex_escape (count : nat) (message : string) (s : list N)
  : result (list N * nat) :=
  match hex_value count 0%N s with
  | None => Raise (UnicodeDecodeError message)
  | Some ch =>
      if (1114111 <? ch)%N
      then Raise (UnicodeDecodeError "illegal Unicode character")
      else Ok ([ch], S count)
  end.

(** The name between the braces of [\N{...}]: up to the first [}]. *)
Fixpoint until_brace (s : list N) : option (list N) :=
  match s with
  | [] => None
  | b :: r =>
      if (b =? 125)%N then Some []
      else match until_brace r with
           | Some name => Some (b :: name)
           | None => None
           end
  end.

Section Decode.
(** The Unicode character name table of the interpreter. *)
Variable getcode : list N -> option N.

(** One escape, [s] being what follows the backslash: the characters
    written and the number of bytes of [s] consumed. *)
Definition escape (s : list N) : result (list N * nat) :=
  match s with
  | [] => Raise (UnicodeDecodeError "\ at end of string")
  | c :: r =>
      (if c =? 10 then Ok ([], 1%nat)
       else if c =? 92 then Ok ([92], 1%nat)
       else if c =? 39 then Ok ([39], 1%nat)
       else if c =? 34 then Ok ([34], 1%nat)
       else if c =? 98 then Ok ([8], 1%nat)
       else if c =? 102 then Ok ([12], 1%nat)
       else if c =? 116 then Ok ([9], 1%nat)
       else if c =? 110 then Ok ([10], 1%nat)
       else if c =? 114 then Ok ([13], 1%nat)
       else if c =? 118 then Ok ([11], 1%nat)
       else if c =? 97 then Ok ([7], 1%nat)
       else if (48 <=? c) && (c <=? 55) then
         match r with
         | d1 :: r1 =>
             match octal_digit d1 with
             | Some v1 =>
                 match r1 with
                 | d2 :: _ =>
                     match octal_digit d2 with
                     | Some v2 => Ok ([((c - 48) * 8 + v1) * 8 + v2], 3%nat)
                     | None => Ok ([(c - 48) * 8 + v1], 2%nat)
                     end
                 | [] => Ok ([(c - 48) * 8 + v1], 2%nat)
                 end
             | None => Ok ([c - 48], 1%nat)
             end
         | [] => Ok ([c - 48], 1%nat)
         end
       else if c =? 120 then hex_escape 2 "truncated \xXX escape" r
       else if c =? 117 then hex_escape 4 "truncated \uXXXX escape" r
       else if c =? 85 then hex_escape 8 "truncated \UXXXXXXXX escape" r
       else if c =? 78 then
         match r with
         | b :: r1 =>
             if b =? 123 then
               match until_brace r1 with
               | None =>
                   Raise (UnicodeDecodeError "malformed \N character escape")
               | Some [] =>
                   Raise (UnicodeDecodeError "malformed \N character escape")
               | Some name =>
                   match getcode name with
                   | Some ch => Ok ([ch], (3 + List.length name)%nat)
                   | None =>
                       Raise (UnicodeDecodeError "unknown Unicode character name")
                   end
               end
             else Raise (UnicodeDecodeError "malformed \N character escape")
         | [] => Raise (UnicodeDecodeError "malformed \N character escape")
         end
       else Ok ([92; c], 1%nat))%N
  end.

(** [bytes.decode('unicode_escape')]: a byte that is not a backslash
    is the code point of the same value. *)
Fixpoint unicode_escape_from (skip : nat) (s : list N) : result (list N) :=
  match s with
  | [] => Ok []
  | b :: r =>
      match skip with
      | S k => unicode_escape_from k r
      | O =>
          if (b =? 92)%N then
            rbind (escape r) (fun '(out, used) =>
            rbind (unicode_escape_from used r) (fun rest => Ok (out ++ rest)))
          else
            rbind (unicode_escape_from O r) (fun rest => Ok (b :: rest))
      end
  end.

Definition unicode_escape_decode (s : list N) : result (list N) :=
  unicode_escape_from O s.

Definition decodeHtml (text : list N) : result (list N) :=
  rbind (utf8_encode text) unicode_escape_decode.
End Decode.

(** A [str] literal of the model as code points. *)
Definition points (s : string) : list N :=
  map N_of_ascii (list_ascii_of_string s).

End Codec.

(** ** The parsed markup (lxml elements) *)

#[warnings="-register-all"]
Inductive element : Type :=
| Element (tag : string) (attrib : list (string * string))
          (text : option string) (children : list element).

Definition tag (e : element) : string :=
  match e with Element t _ _ _ => t end.
Definition attrib (e : element) : list (string * string) :=
  match e with Element _ a _ _ => a end.
Definition text (e : element) : option string :=
  match e with Element _ _ x _ => x end.
Definition children (e : element) : list element :=
  match e with Element _ _ _ cs => cs end.

(** An element in its tree: the element and its ancestors, nearest first. *)
Definition node : Type := (element * list element)%type.

(** [n.getparent()], [None] at the root. *)
Definition getparent (n : node) : option node :=
  match snd n with
  | [] => None
  | p :: up => Some (p, up)
  end.

(** [e.attrib['class']] *)
Definition attrib_class (e : element) : result string :=
  match dict_get String.eqb "class" (attrib e) with
  | Some c => Ok c
  | None => Raise KeyError
  end.

Definition has_class (e : element) (c : string) : bool :=
  match dict_get String.eqb "class" (attrib e) with
  | Some c' => String.eqb c' c
  | None => false
  end.

Definition is_span (e : element) : bool := String.eqb (tag e) "span".

(** [xpath('//span/span[@class="content"]')] below [e], whose ancestors are
    [up]: the [span] children of a [span] whose class attribute is exactly
    [content], in document order. *)
Fixpoint xpath_content (up : list element) (e : element) : list node :=
  let here :=
    match up with
    | p :: _ => if is_span p && is_span e && has_class e "content"
                then [(e, up)] else []
    | [] => []
    end in
  match e with
  | Element _ _ _ cs =>
      here ++
      (fix each (l : list element) : list node :=
         match l with
         | [] => []
         | c :: l' => xpath_content (e :: up) c ++ each l'
         end) cs
  end.

(** ** What lies outside the repository: the network, the file system, the
       regular expression engine, the HTML parser, the Unicode tables and
       the order in which the worker threads finish. *)

Record chapter_json : Type := { canonical : bool }.

Record book_json : Type := {
  usfm : string;
  human_long : string;
  abbreviation : string;
  chapters : list chapter_json }.

Record version_json : Type := {
  local_title : string;
  local_abbreviation : string;
  publisher_name : string;
  language_iso_639_3 : string;
  copyright_short_text : string;
  books_json : list book_json }.

Record response : Type := {
  status_code : Z;
  res_text : list N;
  res_json : result version_json }.

Record World : Type := {
  (** [requests.get(url, headers=...)] *)
  http_get : string -> result response;
  (** the character names known to [\N{...}] *)
  unicode_name : list N -> option N;
  (** [pattern.search(text, 120000)] and its group 0, [None] without a match *)
  pattern_search : list N -> option (list N);
  (** [lxml.html.fromstring]: the root of the document it builds *)
  html_fromstring : list N -> result element;
  (** [str.upper] *)
  str_upper : string -> string;
  (** [as_completed]: the order in which the futures of a book finish *)
  as_completed : string -> list Z -> list Z;
  (** [open(path, 'w', encoding='utf-8')]: what it raises when the file
      cannot be opened *)
  file_open : string -> result unit }.

(** A [World] is what one call of [Bible(...)], of [Chapter(...)], of
    [get_async_chapters] or of [open] meets: during such a call no URL is
    requested twice, so the answers are a function of the URL.  A run of
    [writeFile] or of [writeBible] makes such calls one after the other and
    asks for the same pages again (the chapters of the book that [bible[book]]
    finds, once for every book); the network, the file system and the
    scheduler may answer a later call differently.  A [Run] gives the world
    of every call, the calls being numbered in the order in which the run
    makes them. *)
Definition Run : Type := nat -> World.

(** The run in which nothing changes. *)
Definition steady (w : World) : Run := fun _ => w.

(** utils.getResponse *)
Definition getResponse (w : World) (url : string) : io response :=
  res <- lift (http_get w url) ;;
  (if status_code res =? 200 then ret tt else emit (PrintLine url)) ;;;
  ret res.

(** utils.decodeHtml *)
Definition decodeHtml (w : World) (text : list N) : result (list N) :=
  Codec.decodeHtml (unicode_name w) text.

(** ** Bible.Chapter *)

Record Chapter : Type := {
  chapter_book : string;
  chapter_number : Z;
  chapter_bible : Z;
  verses : list (Z * string) }.

(** The [except:] clause of [findVerseParent]; [text_tag] is [None] once the
    walk has left the root. *)
Definition findVerseParent_except {A} (text_tag : option element) (e : exn)
  : io A :=
  match text_tag with
  | None => raise AttributeError
  | Some el =>
      match text el with
      | None => raise AttributeError
      | Some t =>
          if String.eqb (Str.strip t) ""
          then raise e
          else emit (PrintTag t (attrib el)) ;;; raise e
      end
  end.

Fixpoint findVerseParent_walk (el : element) (up : list element) : io node :=
  match attrib_class el with
  | Raise e => findVerseParent_except (Some el) e
  | Ok verse_class =>
      if Str.startswith verse_class "verse v" then ret (el, up)
      else
        match up with
        | [] => findVerseParent_except None AttributeError
        | p :: up' => findVerseParent_walk p up'
        end
  end.

Definition findVerseParent (text_tag : node) : io node :=
  findVerseParent_walk (fst text_tag) (snd text_tag).

(** [min] of a generator of integers *)
Definition py_min (l : list Z) : result Z :=
  match l with
  | [] => Raise ValueError
  | z :: l' => Ok (fold_left Z.min l' z)
  end.

Definition findMinVerse (verse : string) : result Z :=
  let verse := Str.replace verse "verse " "" in
  let verse := Str.replace verse "v" "" in
  rbind (Str.split verse " ") (fun groups =>
  rbind (rmap_list Str.int groups) py_min).

(** Lines 198 to 203: the element whose class attribute gives the verse
    number, with the number of [v] counted in that attribute. *)
Definition verse_parent (i : node) : io (node * nat) :=
  match getparent i with
  | None => raise AttributeError
  | Some parent =>
      c <- lift (attrib_class (fst parent)) ;;
      let vCount := Str.count c "v" in
      if (vCount <? 2)%nat
      then
        parent <- findVerseParent parent ;;
        c <- lift (attrib_class (fst parent)) ;;
        ret (parent, Str.count c "v")
      else ret (parent, vCount)
  end.

(** Lines 205 to 208: the verse number read from that element. *)
Definition class_verse (parent : node) (vCount : nat) : io Z :=
  c <- lift (attrib_class (fst parent)) ;;
  if (2 <? vCount)%nat
  then lift (findMinVerse c)
  else lift (Str.int (Str.replace c "verse v" "")).

(** Lines 198 to 208: the verse number of one selected span. *)
Definition leaf_verse (i : node) : io Z :=
  '(parent, vCount) <- verse_parent i ;;
  class_verse parent vCount.

(** [last_verse] starts as [''], which equals no integer: [None] here. *)
Definition loop_state : Type := (list (Z * string) * option Z)%type.

Definition same_verse (last_verse : option Z) (verse : Z) : bool :=
  match last_verse with
  | Some l => l =? verse
  | None => false
  end.

(** [i.text.strip()] *)
Definition text_strip (e : element) : result string :=
  match text e with
  | Some t => Ok (Str.strip t)
  | None => Raise AttributeError
  end.

(** Lines 198 to 212: one turn of the loop. *)
Definition loop_body (st : loop_state) (i : node) : io loop_state :=
  let '(vs, last_verse) := st in
  verse <- leaf_verse i ;;
  let '(old, vs) := defaultdict_getitem Z.eqb "" verse vs in
  t <- lift (text_strip (fst i)) ;;
  let piece := (if same_verse last_verse verse then " " ++ t else t)%string in
  ret (dict_set Z.eqb verse (old ++ piece)%string vs, Some verse).

(** The loop over the selected spans of a parsed fragment. *)
Definition extract (etree : element) : io loop_state :=
  foldM loop_body (xpath_content [] etree) ([], None).

Definition chapter_url (book : string) (chapter bible_id : Z) : string :=
  ("https://www.bible.com/bible/" ++ Str.of_Z bible_id ++ "/" ++ book
   ++ "." ++ Str.of_Z chapter)%string.

(** Bible.Chapter.__init__ *)
Definition Chapter_init (w : World) (book : string) (chapter bible_id : Z)
  : io Chapter :=
  let url := chapter_url book chapter bible_id in
  res <- getResponse w url ;;
  str_html <-
    on_error
      (match pattern_search w (res_text res) with
       | None => raise TypeError
       | Some found => lift (decodeHtml w (Str.drop_last (skipn 11 found)))
       end)
      (emit (PrintLine ("error " ++ url)%string)) ;;
  etree <- lift (html_fromstring w str_html) ;;
  st <- extract etree ;;
  ret {| chapter_book := book; chapter_number := chapter;
         chapter_bible := bible_id; verses := fst st |}.

Definition set_verses (self : Chapter) (vs : list (Z * string)) : Chapter :=
  {| chapter_book := chapter_book self; chapter_number := chapter_number self;
     chapter_bible := chapter_bible self; verses := vs |}.

(** Bible.Chapter.__getitem__: the value and the chapter afterwards. *)
Definition Chapter_getitem (self : Chapter) (key : Z) : string * Chapter :=
  let '(v, vs) := defaultdict_getitem Z.eqb "" key (verses self) in
  (v, set_verses self vs).

(** Bible.Chapter.__iter__ *)
Definition Chapter_iter (self : Chapter) : list Z := dict_keys (verses self).

(** Bible.Chapter.__len__ *)
Definition Chapter_len (self : Chapter) : nat := List.length (verses self).

(** Bible.Chapter.get_verse: the whole mapping without a verse number. *)
Definition get_verse (self : Chapter) (verse : option Z)
  : (list (Z * string) + string) * Chapter :=
  match verse with
  | None => (inl (verses self), self)
  | Some v =>
      let '(x, vs) := defaultdict_getitem Z.eqb "" v (verses self) in
      (inr x, set_verses self vs)
  end.

(** ** Bible.Book *)

Record Book : Type := {
  book_bible : Z;
  book_length : nat;
  book_id : string;
  book_abrev : string;
  book_name : string }.

(** The attributes [__init__] has assigned so far; reading one that is not
    there yet is an [AttributeError]. *)
Record Book_self : Type := {
  self_bible : option Z;
  self_length : option nat;
  self_id : option string }.

Definition getattr {A} (field : option A) : io A :=
  match field with
  | Some a => ret a
  | None => raise AttributeError
  end.

(** [next(filter(pred, l))] *)
Fixpoint next_filter {A} (pred : A -> io bool) (l : list A) : io A :=
  match l with
  | [] => raise StopIteration
  | a :: l' => b <- pred a ;; if b then ret a else next_filter pred l'
  end.

Definition version_url (bible_id : Z) : string :=
  ("https://www.bible.com/api/bible/version/" ++ Str.of_Z bible_id)%string.

(** Bible.Book.__init__; [length] and [abrev] are [None] when omitted. *)
Definition Book_init (w : World) (book_id name_book : string) (bible_id : Z)
  (length : option nat) (abrev : option string) : io Book :=
  let self :=
    {| self_bible := Some bible_id; self_length := None; self_id := None |} in
  length <-
    match length with
    | Some n => ret n
    | None =>
        bible <- getattr (self_bible self) ;;
        res <- getResponse w (version_url bible) ;;
        data <- lift (res_json res) ;;
        data <- next_filter
                  (fun i => id <- getattr (self_id self) ;;
                            ret (String.eqb (usfm i) id))
                  (books_json data) ;;
        ret (List.length (chapters data))
    end ;;
  let self :=
    {| self_bible := self_bible self; self_length := Some length;
       self_id := Some book_id |} in
  abrev <-
    match abrev with
    | Some a => ret (Str.replace a "." "")
    | None => raise AttributeError
    end ;;
  bible <- getattr (self_bible self) ;;
  length <- getattr (self_length self) ;;
  id <- getattr (self_id self) ;;
  ret {| book_bible := bible; book_length := length; book_id := id;
         book_abrev := abrev; book_name := name_book |}.

(** Bible.Book.get_chapter *)
Definition get_chapter (w : World) (self : Book) (number : Z) : io Chapter :=
  Chapter_init w (book_id self) number (book_bible self).

(** [range(1, n + 1)] *)
Definition range1 (n : nat) : list Z := map Z.of_nat (seq 1 n).

(** [chapters.setdefault(k, v)] *)
Definition setdefault {V} (k : Z) (v : V) (d : list (Z * V)) : list (Z * V) :=
  match dict_get Z.eqb k d with
  | Some _ => d
  | None => dict_set Z.eqb k v d
  end.

(** The loop over [as_completed]: [future.result()] re-raises what the
    task raised. *)
Fixpoint collect (futures : list (Z * io Chapter)) (chapters : list (Z * Chapter))
  : result (list (Z * Chapter)) :=
  match futures with
  | [] => Ok chapters
  | (ch, (_, Raise e)) :: _ => Raise e
  | (ch, (_, Ok c)) :: rest => collect rest (setdefault ch c chapters)
  end.

(** Bible.Book.get_async_chapters.  Every submitted task runs to its end
    (leaving the [with] block waits for the pool); what the tasks print is
    recorded task by task in the order they finish. *)
Definition get_async_chapters (w : World) (self : Book)
  : io (list (Z * Chapter)) :=
  let chapterFn x := Chapter_init w (book_id self) x (book_bible self) in
  let order := as_completed w (book_id self) (range1 (book_length self)) in
  let futureChapters := map (fun ch => (ch, chapterFn ch)) order in
  (List.concat (map (fun f => fst (snd f)) futureChapters),
   collect futureChapters []).

(** Bible.Book.__len__ *)
Definition Book_len (self : Book) : nat := book_length self.

(** ** Bible *)

(** The keys [__hashMap] is asked for: the USFM codes [__init__] stores, and
    the [Book] objects [writeFile] passes to [bible[...]].  A [Book] has the
    default equality, so it equals no [str]; two [Book]s are compared by
    their attributes here. *)
Inductive key : Type :=
| KStr (s : string)
| KBook (b : Book).

Definition Book_eqb (a b : Book) : bool :=
  (book_bible a =? book_bible b) && Nat.eqb (book_length a) (book_length b)
  && String.eqb (book_id a) (book_id b)
  && String.eqb (book_abrev a) (book_abrev b)
  && String.eqb (book_name a) (book_name b).

Definition key_eqb (a b : key) : bool :=
  match a, b with
  | KStr x, KStr y => String.eqb x y
  | KBook x, KBook y => Book_eqb x y
  | _, _ => false
  end.

Record Bible : Type := {
  bible_id : Z;
  bible_name : string;
  bible_abrev : string;
  bible_author : string;
  bible_lang : string;
  bible_description : string;
  hashMap : list (key * nat);
  books : list Book }.

Definition canonical_count (i : book_json) : nat :=
  List.length (filter canonical (chapters i)).

(** The loop of [Bible.__init__] over [data['books']]. *)
Fixpoint Bible_init_books (w : World) (id : Z) (data : list book_json)
  (idx : nat) (acc : list (key * nat) * list Book)
  : io (list (key * nat) * list Book) :=
  match data with
  | [] => ret acc
  | i :: rest =>
      b <- Book_init w (usfm i) (human_long i) id
             (Some (canonical_count i)) (Some (abbreviation i)) ;;
      Bible_init_books w id rest (S idx)
        (dict_set key_eqb (KStr (usfm i)) idx (fst acc), snd acc ++ [b])
  end.

(** Bible.__init__ *)
Definition Bible_init (w : World) (id : Z) : io Bible :=
  res <- getResponse w (version_url id) ;;
  data <- lift (res_json res) ;;
  '(hm, bs) <- Bible_init_books w id (books_json data) O ([], []) ;;
  ret {| bible_id := id;
         bible_name := local_title data;
         bible_abrev := local_abbreviation data;
         bible_author := publisher_name data;
         bible_lang := language_iso_639_3 data;
         bible_description := copyright_short_text data;
         hashMap := hm;
         books := bs |}.

Definition set_hashMap (self : Bible) (hm : list (key * nat)) : Bible :=
  {| bible_id := bible_id self; bible_name := bible_name self;
     bible_abrev := bible_abrev self; bible_author := bible_author self;
     bible_lang := bible_lang self; bible_description := bible_description self;
     hashMap := hm; books := books self |}.

(** [l[i]] for a list and a non-negative index *)
Definition list_getitem {A} (l : list A) (i : nat) : result A :=
  match nth_error l i with
  | Some a => Ok a
  | None => Raise IndexError
  end.

(** Bible.get_book: what it returns or raises, and the Bible afterwards
    (the lookup in the [defaultdict] may have added the key). *)
Definition get_book (self : Bible) (book : key) : result Book * Bible :=
  let '(idx, hm) := defaultdict_getitem key_eqb O book (hashMap self) in
  (list_getitem (books self) idx, set_hashMap self hm).

(** Bible.__getitem__ *)
Definition Bible_getitem (self : Bible) (k : key) : result Book * Bible :=
  get_book self k.

(** Bible.__len__ *)
Definition Bible_len (self : Bible) : nat := List.length (books self).

(** ** main.py: writeFile *)

Definition dq : string := String "034"%char EmptyString.
Definition nl : string := String "010"%char EmptyString.

Definition header (w : World) (bible : Bible) : string :=
  ("<XMLBIBLE biblename=" ++ dq ++ bible_name bible ++ dq
   ++ " revision=" ++ dq ++ "99" ++ dq ++ " status=" ++ dq ++ "v" ++ dq
   ++ " version=" ++ dq ++ "2.0.1.18" ++ dq ++ " type=" ++ dq ++ "x-bible" ++ dq
   ++ " p1:noNamespaceSchemaLocation=" ++ dq ++ "zef2005.xsd" ++ dq
   ++ " xmlns:p1=" ++ dq ++ "http://www.w3.org/2001/XMLSchema-instance" ++ dq
   ++ ">" ++ nl
   ++ "<INFORMATION>" ++ nl
   ++ "<title>" ++ bible_name bible ++ "</title>" ++ nl
   ++ "<creator/>" ++ nl
   ++ "<subject/>" ++ nl
   ++ "<identifier>" ++ bible_abrev bible ++ "</identifier>" ++ nl
   ++ "<description>" ++ bible_description bible ++ "</description>" ++ nl
   ++ "<publisher>" ++ bible_author bible ++ "</publisher>" ++ nl
   ++ "<date/>" ++ nl
   ++ "<language>" ++ str_upper w (bible_lang bible) ++ "</language>" ++ nl
   ++ "<type>Bible</type>" ++ nl
   ++ "</INFORMATION>" ++ nl)%string.

Definition biblebook_line (idx : Z) (book : Book) : string :=
  (Str.spaces 2 ++ "<BIBLEBOOK bnumber=" ++ dq ++ Str.of_Z idx ++ dq
   ++ " bname=" ++ dq ++ book_name book ++ dq
   ++ " bsname=" ++ dq ++ book_abrev book ++ dq ++ ">" ++ nl)%string.

Definition chapter_line (chapter : Z) : string :=
  (Str.spaces 4 ++ "<CHAPTER cnumber=" ++ dq ++ Str.of_Z chapter ++ dq
   ++ ">" ++ nl)%string.

Definition vers_line (verse : Z) (content : string) : string :=
  (Str.spaces 6 ++ " <VERS vnumber=" ++ dq ++ Str.of_Z verse ++ dq ++ ">"
   ++ content ++ "</VERS>" ++ nl)%string.

Definition chapter_end_line : string :=
  (Str.spaces 4 ++ "</CHAPTER>" ++ nl)%string.

Definition biblebook_end_line : string :=
  (Str.spaces 2 ++ "</BIBLEBOOK>" ++ nl)%string.

(** [d[k]] on a plain [dict] *)
Definition dict_getitem {V} (d : list (Z * V)) (k : Z) : result V :=
  match dict_get Z.eqb k d with
  | Some v => Ok v
  | None => Raise KeyError
  end.

(** [for verse in chapters[chapter]: file.write(...)] *)
Definition write_verses (chapters : list (Z * Chapter)) (chapter : Z)
  : io (list (Z * Chapter)) :=
  c <- lift (dict_getitem chapters chapter) ;;
  foldM (fun chapters verse =>
           c <- lift (dict_getitem chapters chapter) ;;
           let '(content, c) := Chapter_getitem c verse in
           emit (FileWrite (vers_line verse content)) ;;;
           ret (dict_set Z.eqb chapter c chapters))
        (Chapter_iter c) chapters.

(** [for chapter in chapters: ...] *)
Definition write_chapters (chapters : list (Z * Chapter)) : io unit :=
  foldM (fun chapters chapter =>
           emit (FileWrite (chapter_line chapter)) ;;;
           chapters <- write_verses chapters chapter ;;
           emit (FileWrite chapter_end_line) ;;;
           ret chapters)
        (dict_keys chapters) chapters ;;;
  ret tt.

(** One turn of [for idx, book in enumerate(bible, 1)]. *)
Definition write_book (w : World) (bible : Bible) (idx : Z) (book : Book)
  : io Bible :=
  emit (FileWrite (biblebook_line idx book)) ;;;
  let '(found, bible) := Bible_getitem bible (KBook book) in
  found <- lift found ;;
  chapters <- get_async_chapters w found ;;
  write_chapters chapters ;;;
  emit (FileWrite biblebook_end_line) ;;;
  emit (PrintBookDone (book_name book)) ;;;
  ret bible.

(** The loop over the books, [now] being the number of the call the next
    [get_async_chapters] is. *)
Fixpoint write_books (run : Run) (now : nat) (bible : Bible) (idx : Z)
  (l : list Book) : io Bible :=
  match l with
  | [] => ret bible
  | book :: rest =>
      bible <- write_book (run now) bible idx book ;;
      write_books run (S now) bible (idx + 1) rest
  end.

Definition bible_path (bible : Bible) : string :=
  ("Bibles/" ++ bible_abrev bible ++ ".xml")%string.

(** main.writeFile, its [open] being call number [now] of the run and the
    [get_async_chapters] of the k-th book call number [now + k].  Nothing is
    written, fetched or printed when the file cannot be opened.  The writes
    are those to the file opened, which the [with] statement closes whether
    or not an exception passes; a write to the open file is taken to
    succeed. *)
Definition writeFile (run : Run) (now : nat) (bible : Bible) : io Bible :=
  lift (file_open (run now) (bible_path bible)) ;;;
  emit (FileOpen (bible_path bible)) ;;;
  emit (FileWrite (header (run now) bible)) ;;;
  bible <- write_books run (S now) bible 1 (books bible) ;;
  emit (FileWrite "</XMLBIBLE>") ;;;
  ret bible.

(** The data written to the file, in order. *)
Definition file_writes (t : list event) : list string :=
  flat_map (fun ev => match ev with FileWrite d => [d] | _ => [] end) t.

(** ** The vocabulary of the statements *)

(** The verse number a selected span is given, if it is given one. *)
Definition assigned (i : node) : option Z :=
  match snd (leaf_verse i) with
  | Ok v => Some v
  | Raise _ => None
  end.

(** The span scanned just before, if any. *)
Fixpoint last_node (l : list node) : option node :=
  match l with
  | [] => None
  | [a] => Some a
  | _ :: l' => last_node l'
  end.

(** Whether the span scanned just before was given the verse number [N]. *)
Definition preceded_by_same (pre : list node) (N : Z) : bool :=
  match last_node pre with
  | Some p => match assigned p with Some v => v =? N | None => false end
  | None => false
  end.

(** [verses[N]], the empty text when the key is not there. *)
Definition verse_text (vs : list (Z * string)) (N : Z) : string :=
  match dict_get Z.eqb N vs with
  | Some x => x
  | None => EmptyString
  end.

(** *** The range rule in the words of the specification *)



(** Removing every occurrence of a character. *)
Fixpoint spec_remove_char (c : ascii) (s : string) : string :=
  match s with
  | EmptyString => EmptyString
  | String a r =>
      if Ascii.eqb a c then spec_remove_char c r
      else String a (spec_remove_char c r)
  end.


Fixpoint all_chars (p : ascii -> bool) (s : string) : bool :=
  match s with
  | EmptyString => true
  | String a r => p a && all_chars p r
  end.

Definition is_digit (c : ascii) : bool :=
  match Str.digit_of c with Some _ => true | None => false end.

(** A digit group: one decimal digit or more. *)
Definition digit_group (g : string) : bool :=
  negb (String.eqb g "") && all_chars is_digit g.

(** The integer a digit group denotes. *)
Fixpoint decimal_value (acc : N) (g : string) : N :=
  match g with
  | EmptyString => acc
  | String c r => decimal_value (10 * acc + (N_of_ascii c - 48))%N r
  end.

Definition group_value (g : string) : Z := Z.of_N (decimal_value 0%N g).

(** *** The ancestor walk in the words of the specification *)


(** Whether the class attribute of an element starts with [verse v]. *)
Definition verse_prefixed (e : element) : bool :=
  match attrib_class e with
  | Ok c => Str.startswith c "verse v"
  | Raise _ => false
  end.

(** The nearest of the ancestors [up] whose class attribute starts with
    [verse v]. *)
Definition spec_nearest_verse (up : list element) : option element :=
  find verse_prefixed up.


(** An element whose class attribute, if it has one, holds fewer than two
    [v]: from such a parent the walk is made. *)
Definition few_v (e : element) : Prop :=
  forall c, attrib_class e = Ok c -> (Str.count c "v" < 2)%nat.

Definition lacks_class (e : element) : bool :=
  match attrib_class e with
  | Ok _ => false
  | Raise _ => true
  end.

(** What a failing walk over [chain] prints: the text and the attributes of
    the first element without a class attribute, when there is one and its
    text is not blank. *)
Definition walk_print (chain : list element) : list event :=
  match find lacks_class chain with
  | Some el =>
      match text el with
      | Some t =>
          if String.eqb (Str.strip t) "" then [] else [PrintTag t (attrib el)]
      | None => []
      end
  | None => []
  end.

(** ** Sample markup for the scenarios *)

Definition content (t : string) : element :=
  Element "span" [("class", "content")] (Some t) [].

Definition span_of (class : string) (kids : list element) : element :=
  Element "span" [("class", class)] None kids.

Definition div_of (kids : list element) : element :=
  Element "div" [] None kids.

(** The fragment of the end-to-end scenario. *)
Definition genesis_fragment : element :=
  div_of [span_of "verse v1" [content "In"; content "the"];
          span_of "verse v2" [content "beginning"]].

(** ** Sample worlds for the scenarios *)

Fixpoint ascii_upper (s : string) : string :=
  match s with
  | EmptyString => EmptyString
  | String c r =>
      let n := nat_of_ascii c in
      String (if ((97 <=? n) && (n <=? 122))%nat then ascii_of_nat (n - 32)
              else c)
             (ascii_upper r)
  end.

(** The metadata of a version with one book, Genesis, of two canonical
    chapters and an introduction. *)
Definition sample_json : version_json :=
  {| local_title := "Sample Version";
     local_abbreviation := "SV";
     publisher_name := "Publisher";
     language_iso_639_3 := "eng";
     copyright_short_text := "Public domain";
     books_json :=
       [{| usfm := "GEN"; human_long := "Genesis"; abbreviation := "Gen.";
           chapters := [{| canonical := false |}; {| canonical := true |};
                        {| canonical := true |}] |}] |}.

(** The version metadata is served; a chapter page parses to [etree], or
    cannot be fetched at all when there is none; the futures finish in the
    order they were submitted; any file can be opened. *)
Definition scenario_world (json : version_json) (etree : option element)
  : World :=
  {| http_get := fun url =>
       if Str.startswith url "https://www.bible.com/api/"
       then Ok {| status_code := 200; res_text := [];
                  res_json := Ok json |}
       else
         match etree with
         | Some _ =>
             Ok {| status_code := 200; res_text := [];
                   res_json := Raise (LibraryError "JSONDecodeError") |}
         | None => Raise (LibraryError "ConnectionError")
         end;
     unicode_name := fun _ => None;
     pattern_search := fun _ => Some [];
     html_fromstring := fun _ =>
       match etree with
       | Some e => Ok e
       | None => Raise (LibraryError "ParserError")
       end;
     str_upper := ascii_upper;
     as_completed := fun _ l => l;
     file_open := fun _ => Ok tt |}.

Definition page_world (etree : element) : World :=
  scenario_world sample_json (Some etree).
Definition offline_world : World := scenario_world sample_json None.

(** A version whose metadata lists no book. *)
Definition bookless_json : version_json :=
  {| local_title := "Empty Version";
     local_abbreviation := "EV";
     publisher_name := "Publisher";
     language_iso_639_3 := "eng";
     copyright_short_text := "Public domain";
     books_json := [] |}.

Definition bookless_world : World := scenario_world bookless_json None.

Definition bookless_bible : Bible :=
  {| bible_id := 2; bible_name := "Empty Version"; bible_abrev := "EV";
     bible_author := "Publisher"; bible_lang := "eng";
     bible_description := "Public domain"; hashMap := []; books := [] |}.

(** The spans of the scenarios, each with its ancestors. *)
Definition verse1_span : element :=
  span_of "verse v1" [content "In"; content "the"].
Definition span_In : node := (content "In", [verse1_span; genesis_fragment]).
Definition span_the : node := (content "the", [verse1_span; genesis_fragment]).

Definition range_span : element :=
  span_of "verse v12 v13 v14" [content "a"; content "b"].
Definition range_fragment : element := div_of [range_span].

Definition wrapper_span : element := span_of "content-wrapper" [content "x"].
Definition verse7_span : element := span_of "verse v7" [wrapper_span].



Definition note_span : element := span_of "note" [content "x"].
Definition note_fragment : element := div_of [note_span].

Definition tokens_span : element := span_of "v1 v2 v3" [content "x"].

Definition genesis_chapter : Chapter :=
  {| chapter_book := "GEN"; chapter_number := 1; chapter_bible := 1;
     verses := [(1, "In the"); (2, "beginning")] |}.

(** The Bible these worlds serve. *)
Definition sample_book : Book :=
  {| book_bible := 1; book_length := 2; book_id := "GEN";
     book_abrev := "Gen"; book_name := "Genesis" |}.

Definition sample_bible : Bible :=
  {| bible_id := 1; bible_name := "Sample Version"; bible_abrev := "SV";
     bible_author := "Publisher"; bible_lang := "eng";
     bible_description := "Public domain";
     hashMap := [(KStr "GEN", O)]; books := [sample_book] |}.

(** The number of spaces a line starts with. *)
Fixpoint leading_spaces (s : string) : nat :=
  match s with
  | String c r => if Ascii.eqb c " " then S (leading_spaces r) else O
  | EmptyString => O
  end.

(** Looking up the keys [ks] one after the other. *)
Definition lookups (self : Bible) (ks : list key) : Bible :=
  fold_left (fun b k => snd (get_book b k)) ks self.

(** Every index stored under a [str] key is 0 or the place of the book
    with that USFM code. *)
Definition hashMap_sound (hm : list (key * nat)) (bs : list Book) : Prop :=
  forall k idx, dict_get key_eqb (KStr k) hm = Some idx ->
    idx = O \/ exists b, nth_error bs idx = Some b /\ book_id b = k.

(** Reading a byte sequence as UTF-8, as the specification has the
    unescaper do after the escapes are resolved. *)
Fixpoint spec_utf8_decode (bs : list N) : option (list N) :=
  match bs with
  | [] => Some []
  | b0 :: r0 =>
      (if b0 <? 128 then option_map (cons b0) (spec_utf8_decode r0)
       else if b0 <? 192 then None
       else if b0 <? 224 then
         match r0 with
         | b1 :: r1 =>
             option_map (cons ((b0 - 192) * 64 + (b1 - 128)))
                        (spec_utf8_decode r1)
         | _ => None
         end
       else if b0 <? 240 then
         match r0 with
         | b1 :: b2 :: r2 =>
             option_map (cons ((b0 - 224) * 4096 + (b1 - 128) * 64 + (b2 - 128)))
                        (spec_utf8_decode r2)
         | _ => None
         end
       else
         match r0 with
         | b1 :: b2 :: b3 :: r3 =>
             option_map (cons ((b0 - 240) * 262144 + (b1 - 128) * 4096
                               + (b2 - 128) * 64 + (b3 - 128)))
                        (spec_utf8_decode r3)
         | _ => None
         end)%N
  end.

(** The bytes that open an escape [unicode_escape] knows, after the
    backslash: newline, backslash, the quotes, [abfnrtv], the octal digits,
    [x], [u], [U] and [N]. *)
Definition escape_letter (c : N) : bool :=
  existsb (N.eqb c)
    [10; 92; 39; 34; 98; 102; 116; 110; 114; 118; 97;
     48; 49; 50; 51; 52; 53; 54; 55; 120; 117; 85; 78]%N.

(** The blanks [int] accepts around a number, one by one: tab, line feed,
    vertical tab, form feed, carriage return, space, U+0085 and U+00A0. *)
Definition int_blanks : list ascii :=
  ["009"; "010"; "011"; "012"; "013"; " "; "133"; "160"]%char.

Definition blank_text (b : string) : bool :=
  all_chars (fun c => existsb (Ascii.eqb c) int_blanks) b.

(** The one-letter escapes, each with what it gives: the backslash before
    a newline gives nothing, then the backslash, the quotes and [bftnrva]. *)
Definition simple_escapes : list (N * list N) :=
  [(10, []); (92, [92]); (39, [39]); (34, [34]); (98, [8]); (102, [12]);
   (116, [9]); (110, [10]); (114, [13]); (118, [11]); (97, [7])]%N.

(** The escapes with a fixed number of hexadecimal digits: the letter ([x],
    [u], [U]), the number of digits, and the reason of the error when a
    digit is missing. *)
Definition hex_escapes : list (N * nat * string) :=
  [(120%N, 2%nat, "truncated \xXX escape");
   (117%N, 4%nat, "truncated \uXXXX escape");
   (85%N, 8%nat, "truncated \UXXXXXXXX escape")].

Definition is_octal (c : N) : bool := ((48 <=? c) && (c <=? 55))%N.

Definition starts_octal (r : list N) : bool :=
  match r with
  | c :: _ => is_octal c
  | [] => false
  end.

(** The number written by octal digits. *)
Definition octal_value (ds : list N) : N :=
  fold_left (fun a d => a * 8 + (d - 48))%N ds 0%N.

(** [after t r]: [t] followed by what [r] gives, or the exception of [r]. *)
Definition after (t : list N) (r : result (list N)) : result (list N) :=
  rbind r (fun t' => Ok (t ++ t')).

(** ** The rest of the classes and of main.py *)

(** Bible.__iter__ *)
Definition Bible_iter (self : Bible) : list Book := books self.

(** Bible.Book.__getitem__ *)
Definition Book_getitem (w : World) (self : Book) (key : Z) : io Chapter :=
  get_chapter w self key.

(** Bible.Book.__iter__: the chapters 1 to [len(self)], each fetched when the
    iteration reaches it. *)
Definition Book_iter (w : World) (self : Book) : list (io Chapter) :=
  map (fun x => Chapter_init w (book_id self) (x + 1) (book_bible self))
      (map Z.of_nat (seq 0 (Book_len self))).






(** ** More vocabulary *)

(** The book [Bible.__init__] makes of one entry of the metadata. *)
Definition catalogue_book (id : Z) (i : book_json) : Book :=
  {| book_bible := id;
     book_length := canonical_count i;
     book_id := usfm i;
     book_abrev := spec_remove_char "." (abbreviation i);
     book_name := human_long i |}.

(** What the status of a response makes [getResponse] print. *)
Definition status_print (res : response) (url : string) : list event :=
  if status_code res =? 200 then [] else [PrintLine url].

(** The text of verse [k] read off the spans alone: the trimmed texts of the
    spans given [k], in scan order, each with a space in front when the span
    before it was given [k] as well. *)
Fixpoint verse_pieces (l : list node) (last : option Z) (k : Z) : string :=
  match l with
  | [] => EmptyString
  | i :: r =>
      match assigned i, text (fst i) with
      | Some v, Some t =>
          ((if Z.eqb v k
            then if same_verse last k then " " ++ Str.strip t else Str.strip t
            else "")
           ++ verse_pieces r (Some v) k)%string
      | _, _ => EmptyString
      end
  end.

(** The verse numbers given to the spans, in scan order. *)
Definition assigned_all (l : list node) : list Z :=
  flat_map (fun i => match assigned i with Some v => [v] | None => [] end) l.

(** The numbers of [l] that are not in [seen], each at its first place. *)
Fixpoint first_seen (seen l : list Z) : list Z :=
  match l with
  | [] => []
  | v :: r =>
      if existsb (Z.eqb v) seen then first_seen seen r
      else v :: first_seen (v :: seen) r
  end.

(** The lines of one chapter and of a chapter map, as they should come out. *)
Definition render_chapter (n : Z) (c : Chapter) : list string :=
  chapter_line n
  :: map (fun vt => vers_line (fst vt) (snd vt)) (verses c)
  ++ [chapter_end_line].

Definition render_chapters (chapters : list (Z * Chapter)) : list string :=
  flat_map (fun nc => render_chapter (fst nc) (snd nc)) chapters.

(** The lines of one book: its opening line, its chapters, its closing
    line. *)
Definition book_lines (idx : Z) (book : Book) (chapters : list (Z * Chapter))
  : list string :=
  biblebook_line idx book :: render_chapters chapters ++ [biblebook_end_line].

(** In the world [w] every chapter of [book] is fetched and extracted, [c]
    giving the Chapter of each number, and the scheduler hands back the
    futures that were submitted. *)
Definition served (w : World) (book : Book) (c : Z -> Chapter) : Prop :=
  Permutation (as_completed w (book_id book) (range1 (book_length book)))
              (range1 (book_length book)) /\
  forall ch, In ch (range1 (book_length book)) ->
    snd (Chapter_init w (book_id book) ch (book_bible book)) = Ok (c ch).

(** The chapter map [get_async_chapters] then returns. *)
Definition served_chapters (w : World) (book : Book) (c : Z -> Chapter)
  : list (Z * Chapter) :=
  map (fun ch => (ch, c ch))
      (as_completed w (book_id book) (range1 (book_length book))).

(** No [Book] key of the map has an index other than 0. *)
Definition book_keys_zero (hm : list (key * nat)) : Prop :=
  forall b idx, dict_get key_eqb (KBook b) hm = Some idx -> idx = O.

(** A second book and a two-book version for the scenarios. *)
Definition exodus_json : book_json :=
  {| usfm := "EXO"; human_long := "Exodus"; abbreviation := "Ex.";
     chapters := [{| canonical := true |}] |}.

Definition two_book_json : version_json :=
  {| local_title := "Sample Version";
     local_abbreviation := "SV";
     publisher_name := "Publisher";
     language_iso_639_3 := "eng";
     copyright_short_text := "Public domain";
     books_json := books_json sample_json ++ [exodus_json] |}.

Definition exodus_book : Book := catalogue_book 1 exodus_json.

Definition two_book_bible : Bible :=
  {| bible_id := 1; bible_name := "Sample Version"; bible_abrev := "SV";
     bible_author := "Publisher"; bible_lang := "eng";
     bible_description := "Public domain";
     hashMap := [(KStr "GEN", O); (KStr "EXO", 1%nat)];
     books := [sample_book; exodus_book] |}.

Definition two_book_world (etree : element) : World :=
  scenario_world two_book_json (Some etree).

(** A span without text, as [<span class="content"></span>] parses. *)
Definition empty_content : element :=
  Element "span" [("class", "content")] None [].

(** One turn of the loop of [Bible.__init__], the index being the number of
    books made so far. *)
Definition catalogue_step (id : Z) (acc : list (key * nat) * list Book)
  (i : book_json) : list (key * nat) * list Book :=
  (dict_set key_eqb (KStr (usfm i)) (List.length (snd acc)) (fst acc),
   snd acc ++ [catalogue_book id i]).

(** The map holds, for every USFM code, the place of the last book with that
    code and nothing for a code no book has; it holds no [Book] key. *)
Definition hashMap_exact (hm : list (key * nat)) (bs : list Book) : Prop :=
  (forall code,
     match dict_get key_eqb (KStr code) hm with
     | Some idx =>
         exists b, nth_error bs idx = Some b /\ book_id b = code /\
                   forall m b', (idx < m)%nat -> nth_error bs m = Some b' ->
                                book_id b' <> code
     | None => forall b, In b bs -> book_id b <> code
     end) /\
  (forall b, dict_get key_eqb (KBook b) hm = None).

(** [located root e anc]: [e] is an element of the tree of [root] and [anc]
    are its ancestors there, the nearest first. *)
Inductive located (root : element) : element -> list element -> Prop :=
| located_root : located root root []
| located_child (e : element) (anc : list element) (c : element) :
    located root e anc -> In c (children e) -> located root c (e :: anc).

(** A number that [str.encode('utf-8')] refuses: a surrogate, or no code
    point at all. *)
Definition unencodable (c : N) : Prop :=
  (55296 <= c <= 57343 \/ 1114112 <= c)%N.

(** The exceptions the extraction of a chapter can end in. *)
Definition extraction_error (e : exn) : Prop :=
  e = KeyError \/ e = AttributeError \/ e = ValueError.

(** What a failing extraction has printed: nothing, or one line with a text
    that is not blank. *)
Definition at_most_one_tag (t : list event) : Prop :=
  t = [] \/ exists x a, t = [PrintTag x a] /\ Str.strip x <> EmptyString.

(** A world without network: every request raises. *)
Definition dead_world : World :=
  {| http_get := fun _ => Raise (LibraryError "ConnectionError");
     unicode_name := fun _ => None;
     pattern_search := fun _ => None;
     html_fromstring := fun _ => Raise (LibraryError "ParserError");
     str_upper := ascii_upper;
     as_completed := fun _ l => l;
     file_open := fun _ => Ok tt |}.

(** The version with two books, its chapter pages out of reach. *)
Definition two_book_offline : World := scenario_world two_book_json None.

(** The Chapter every page of [page_world genesis_fragment] gives. *)
Definition numbered_chapter (ch : Z) : Chapter :=
  {| chapter_book := "GEN"; chapter_number := ch; chapter_bible := 1;
     verses := [(1, "In the"); (2, "beginning")] |}.

Definition textless_span : element :=
  span_of "verse v1" [content "In"; empty_content].

(** A run in which the pages of the two-book version are served during the
    first two calls and are out of reach afterwards. *)
Definition failing_run : Run :=
  fun now => if (now <=? 1)%nat then two_book_world genesis_fragment
             else two_book_offline.

(** [w] with a file system that opens nothing. *)
Definition read_only (w : World) : World :=
  {| http_get := http_get w;
     unicode_name := unicode_name w;
     pattern_search := pattern_search w;
     html_fromstring := html_fromstring w;
     str_upper := str_upper w;
     as_completed := as_completed w;
     file_open := fun _ => Raise (OSError "PermissionError") |}.

(** * Properties *)

(** ** The monad *)

Lemma Ok_inj {A} (a b : A) : Ok a = Ok b -> a = b.
Proof. intros H. congruence. Qed.

Lemma bind_ok {A B} (m : io A) (k : A -> io B) t b :
  bind m k = (t, Ok b) ->
  exists t1 a t2, m = (t1, Ok a) /\ k a = (t2, Ok b) /\ t = t1 ++ t2.
Proof.
  unfold bind. destruct m as [t1 [a|e]]; [|discriminate].
  destruct (k a) as [t2 r] eqn:E. intros H. inversion H; subst.
  exists t1, a, t2. auto.
Qed.

Lemma bind_run {A B} (m : io A) (k : A -> io B) t a :
  m = (t, Ok a) -> bind m k = (t ++ fst (k a), snd (k a)).
Proof. intros ->. unfold bind. destruct (k a). reflexivity. Qed.

Lemma bind_lift_ok {A B} (a : A) (k : A -> io B) : bind (lift (Ok a)) k = k a.
Proof. unfold bind, lift. destruct (k a). reflexivity. Qed.

Lemma bind_ret {A B} (a : A) (k : A -> io B) : bind (ret a) k = k a.
Proof. unfold bind, ret. destruct (k a). reflexivity. Qed.

Lemma foldM_app {A S} (f : S -> A -> io S) l1 l2 s t s1 :
  foldM f l1 s = (t, Ok s1) ->
  foldM f (l1 ++ l2) s = (t ++ fst (foldM f l2 s1), snd (foldM f l2 s1)).
Proof.
  revert s t. induction l1 as [|a l1 IH]; intros s t H; simpl in *.
  - inversion H; subst. simpl. destruct (foldM f l2 s1). reflexivity.
  - apply bind_ok in H. destruct H as (t1 & s' & t2 & Ha & Hk & ->).
    rewrite (bind_run _ _ _ _ Ha). rewrite (IH _ _ Hk). simpl.
    rewrite app_assoc. reflexivity.
Qed.

Lemma foldM_raises {A S} (f : S -> A -> io S) l a :
  In a l -> (forall s, exists t e, f s a = (t, Raise e)) ->
  forall s, exists t e, foldM f l s = (t, Raise e).
Proof.
  intros Hin Hf. induction l as [|b l IH]; [destruct Hin|].
  intros s. simpl. destruct (f s b) as [t [s'|e]] eqn:E.
  - destruct Hin as [->|Hin].
    + destruct (Hf s) as (t' & e & H). congruence.
    + destruct (IH Hin s') as (t' & e & H).
      exists (t ++ t'), e. unfold bind. rewrite H. reflexivity.
  - exists t, e. reflexivity.
Qed.

(** ** Dictionaries *)

Section DictFacts.
Context {K V : Type} (eqb : K -> K -> bool).
Hypothesis eqb_eq : forall a b, eqb a b = true <-> a = b.

Lemma eqb_refl_dict k : eqb k k = true.
Proof. apply eqb_eq. reflexivity. Qed.

Lemma eqb_neq_dict a b : a <> b -> eqb a b = false.
Proof.
  intros H. destruct (eqb a b) eqn:E; [|reflexivity].
  apply eqb_eq in E. contradiction.
Qed.

Lemma dict_get_set_same k (v : V) d : dict_get eqb k (dict_set eqb k v d) = Some v.
Proof.
  induction d as [|[k' v'] d IH]; simpl.
  - rewrite eqb_refl_dict. reflexivity.
  - destruct (eqb k k') eqn:E; simpl; rewrite E; auto.
Qed.

Lemma dict_get_set_other k k' (v : V) d :
  k' <> k -> dict_get eqb k' (dict_set eqb k v d) = dict_get eqb k' d.
Proof.
  intros Hne. induction d as [|[k0 v0] d IH]; simpl.
  - rewrite (eqb_neq_dict _ _ Hne). reflexivity.
  - destruct (eqb k k0) eqn:E; simpl.
    + apply eqb_eq in E. subst k0.
      rewrite (eqb_neq_dict _ _ Hne). reflexivity.
    + rewrite IH. reflexivity.
Qed.

Lemma dict_get_in_keys k (d : list (K * V)) :
  In k (dict_keys d) <-> dict_get eqb k d <> None.
Proof.
  induction d as [|[k' v'] d IH]; simpl.
  - split; [tauto|congruence].
  - destruct (eqb k k') eqn:E.
    + apply eqb_eq in E. subst. split; [congruence|auto].
    + rewrite <- IH. split; [|tauto].
      intros [->|H]; [|exact H].
      rewrite eqb_refl_dict in E. discriminate.
Qed.

Lemma dict_set_keys_same k (v : V) d :
  dict_get eqb k d <> None -> dict_keys (dict_set eqb k v d) = dict_keys d.
Proof.
  induction d as [|[k' v'] d IH]; simpl; [congruence|].
  destruct (eqb k k') eqn:E; simpl; [reflexivity|].
  intros H. rewrite IH; auto.
Qed.

Lemma dict_set_absent k (v : V) d :
  dict_get eqb k d = None -> dict_set eqb k v d = d ++ [(k, v)].
Proof.
  induction d as [|[k' v'] d IH]; simpl; [reflexivity|].
  destruct (eqb k k') eqn:E; simpl; [congruence|].
  intros H. rewrite IH; auto.
Qed.
End DictFacts.

(** ** The loop of [Chapter.__init__] *)

Lemma loop_body_run vs last i tr N t :
  leaf_verse i = (tr, Ok N) -> text (fst i) = Some t ->
  loop_body (vs, last) i =
    (tr, Ok (dict_set Z.eqb N
               (verse_text vs N ++
                (if same_verse last N then " " ++ Str.strip t else Str.strip t))%string
               (snd (defaultdict_getitem Z.eqb "" N vs)),
             Some N)).
Proof.
  intros Hv Ht. unfold loop_body. rewrite (bind_run _ _ _ _ Hv).
  unfold verse_text, defaultdict_getitem, text_strip. rewrite Ht.
  destruct (dict_get Z.eqb N vs); simpl; rewrite app_nil_r; reflexivity.
Qed.

Lemma loop_body_inv vs last i tr st :
  loop_body (vs, last) i = (tr, Ok st) ->
  exists N t, leaf_verse i = (tr, Ok N) /\ text (fst i) = Some t /\
              snd st = Some N /\ assigned i = Some N.
Proof.
  unfold loop_body. intros H.
  apply bind_ok in H. destruct H as (t1 & N & t2 & Hv & Hk & ->).
  destruct (defaultdict_getitem Z.eqb "" N vs) as [old vs'].
  apply bind_ok in Hk. destruct Hk as (t3 & x & t4 & Hx & Hr & ->).
  unfold text_strip, lift in Hx. destruct (text (fst i)) as [t|] eqn:Ht;
    [|discriminate].
  inversion Hx; subst. inversion Hr; subst.
  exists N, t. rewrite app_nil_r. repeat split; auto.
  unfold assigned. rewrite Hv. reflexivity.
Qed.

Lemma last_node_cons a l : last_node (a :: l) <> None.
Proof.
  revert a. induction l as [|b l IH]; intros a; simpl; [discriminate|].
  apply (IH b).
Qed.

Lemma foldM_loop_last pre : forall vs last tr st,
  foldM loop_body pre (vs, last) = (tr, Ok st) ->
  snd st = match last_node pre with
           | Some p => assigned p
           | None => last
           end.
Proof.
  induction pre as [|a pre IH]; intros vs last tr st H; simpl in H.
  - inversion H; subst. reflexivity.
  - apply bind_ok in H. destruct H as (t1 & [vs1 l1] & t2 & Ha & Hk & ->).
    apply loop_body_inv in Ha. destruct Ha as (N & t & _ & _ & Hl & Has).
    simpl in Hl. subst l1. specialize (IH _ _ _ _ Hk).
    rewrite IH. destruct pre as [|b pre]; [symmetry; exact Has|].
    change (last_node (a :: b :: pre)) with (last_node (b :: pre)).
    pose proof (last_node_cons b pre) as Hne.
    destruct (last_node (b :: pre)); [reflexivity|contradiction].
Qed.

(** C1.  Scanning the selected spans in order, a span that is given the verse
    number [N] has its trimmed text appended to [verses[N]] with one space
    in front exactly when the span scanned just before it was given [N] too,
    and with nothing in front otherwise (also for the first span); the
    other verses are left as they were. *)
Theorem C1_space_iff_previous_same_verse
  (pre : list node) (cur : node) (tr : list event) (st : loop_state)
  (trc : list event) (N : Z) (t : string) :
  foldM loop_body pre ([], None) = (tr, Ok st) ->
  leaf_verse cur = (trc, Ok N) ->
  text (fst cur) = Some t ->
  exists vs',
    foldM loop_body (pre ++ [cur]) ([], None) = (tr ++ trc, Ok (vs', Some N)) /\
    verse_text vs' N =
      (verse_text (fst st) N ++
       (if preceded_by_same pre N then " " ++ Str.strip t else Str.strip t))%string /\
    (forall k, k <> N -> verse_text vs' k = verse_text (fst st) k).
Proof.
  intros Hpre Hv Ht.
  pose proof (foldM_loop_last _ _ _ _ _ Hpre) as Hlast.
  destruct st as [vs last]. simpl in Hlast.
  rewrite (foldM_app _ _ _ _ _ _ Hpre).
  change (foldM loop_body [cur] (vs, last))
    with (bind (loop_body (vs, last) cur) (fun s' => ret s')).
  rewrite (bind_run _ _ _ _ (loop_body_run vs last cur trc N t Hv Ht)).
  simpl fst. simpl snd. rewrite app_nil_r.
  eexists. split; [reflexivity|]. split.
  - unfold verse_text at 1. rewrite (dict_get_set_same Z.eqb Z.eqb_eq).
    f_equal. unfold preceded_by_same, same_verse. rewrite Hlast.
    destruct (last_node pre); reflexivity.
  - intros k Hk. unfold verse_text.
    rewrite (dict_get_set_other Z.eqb Z.eqb_eq) by exact Hk.
    unfold defaultdict_getitem. destruct (dict_get Z.eqb N vs) eqn:E; simpl.
    + reflexivity.
    + rewrite (dict_get_set_other Z.eqb Z.eqb_eq) by exact Hk. reflexivity.
Qed.

(** ** Strings *)

Lemma startswith_nil s : Str.startswith s "" = true.
Proof. destruct s; reflexivity. Qed.


Lemma all_chars_weaken (p q : ascii -> bool) s :
  (forall a, p a = true -> q a = true) ->
  all_chars p s = true -> all_chars q s = true.
Proof.
  intros Hpq. induction s as [|a s IH]; simpl; [auto|].
  intros H. apply andb_true_iff in H. destruct H as [Ha Hs].
  rewrite (Hpq _ Ha), (IH Hs). reflexivity.
Qed.


Lemma replace_char_remove (c : ascii) (s : string) :
  Str.replace s (String c EmptyString) "" = spec_remove_char c s.
Proof.
  unfold Str.replace. induction s as [|a s IH]; [reflexivity|].
  cbn [Str.replace_from Str.startswith spec_remove_char String.length Nat.sub].
  rewrite startswith_nil, andb_true_r, Ascii.eqb_sym.
  destruct (Ascii.eqb a c); simpl; rewrite IH; reflexivity.
Qed.

Lemma count_char_zero (c : ascii) (s : string) :
  all_chars (fun a => negb (Ascii.eqb c a)) s = true ->
  Str.count s (String c EmptyString) = O.
Proof.
  unfold Str.count. induction s as [|a s IH]; [reflexivity|].
  cbn [all_chars Str.count_from Str.startswith].
  intros H. apply andb_true_iff in H. destruct H as [Ha Hs].
  destruct (Ascii.eqb c a); [discriminate|]. simpl. apply IH. exact Hs.
Qed.




(** ** [int] on digit groups *)

Lemma is_digit_value (c : ascii) :
  is_digit c = true -> Str.digit_of c = Some (N_of_ascii c - 48)%N.
Proof.
  unfold is_digit, Str.digit_of.
  destruct ((48 <=? N_of_ascii c)%N && (N_of_ascii c <=? 57)%N);
    [reflexivity|discriminate].
Qed.

Lemma is_digit_facts (c : ascii) :
  is_digit c = true ->
  Str.isspace c = false /\ Ascii.eqb c "-" = false /\ Ascii.eqb c "+" = false
  /\ Ascii.eqb c "v" = false /\ Ascii.eqb c "e" = false
  /\ Ascii.eqb c " " = false.
Proof.
  destruct c as [[] [] [] [] [] [] [] []]; vm_compute; intros H;
    try discriminate H; repeat split; reflexivity.
Qed.

Lemma digits_acc_digits (g : string) : forall b acc,
  all_chars is_digit g = true ->
  Str.digits_acc b acc g =
    match g with
    | EmptyString => if b then Some acc else None
    | _ => Some (decimal_value acc g)
    end.
Proof.
  induction g as [|c g IH]; intros b acc H; [reflexivity|].
  simpl in H. apply andb_true_iff in H. destruct H as [Hc Hg].
  simpl. rewrite (is_digit_value _ Hc). rewrite (IH true _ Hg).
  destruct g; reflexivity.
Qed.

Lemma is_digit_not_blank (c : ascii) :
  is_digit c = true -> Str.int_blank c = false.
Proof.
  destruct c as [[] [] [] [] [] [] [] []]; vm_compute; intros H;
    try discriminate H; reflexivity.
Qed.

Lemma lstrip_digits g : all_chars is_digit g = true -> Str.int_lstrip g = g.
Proof.
  destruct g as [|c g]; [reflexivity|]. simpl. intros H.
  apply andb_true_iff in H. destruct H as [Hc _].
  rewrite (is_digit_not_blank _ Hc). reflexivity.
Qed.

Lemma rstrip_digits g : all_chars is_digit g = true -> Str.int_rstrip g = g.
Proof.
  induction g as [|c g IH]; [reflexivity|]. simpl. intros H.
  apply andb_true_iff in H. destruct H as [Hc Hg]. rewrite (IH Hg).
  rewrite (is_digit_not_blank _ Hc). destruct g; reflexivity.
Qed.

Lemma int_digit_group g :
  digit_group g = true -> Str.int g = Ok (group_value g).
Proof.
  unfold digit_group. intros H. apply andb_true_iff in H.
  destruct H as [Hne Hd]. unfold Str.int.
  rewrite (lstrip_digits _ Hd), (rstrip_digits _ Hd).
  destruct g as [|c g]; [discriminate|].
  pose proof Hd as Hd'. simpl in Hd'. apply andb_true_iff in Hd'.
  destruct Hd' as [Hc _].
  destruct (is_digit_facts _ Hc) as (_ & -> & -> & _).
  rewrite (digits_acc_digits _ false 0%N Hd). reflexivity.
Qed.






(** ** The range rule *)




Lemma lift_inv {A} (r : result A) t a : lift r = (t, Ok a) -> r = Ok a /\ t = [].
Proof. unfold lift. intros H. inversion H. auto. Qed.

Lemma verse_parent_count i tr q n c :
  verse_parent i = (tr, Ok (q, n)) -> attrib_class (fst q) = Ok c ->
  n = Str.count c "v".
Proof.
  unfold verse_parent. destruct (getparent i) as [parent|]; [|discriminate].
  intros H Hc. apply bind_ok in H. destruct H as (t1 & c0 & t2 & H0 & Hk & ->).
  apply lift_inv in H0. destruct H0 as [Hc0 ->].
  destruct (Str.count c0 "v" <? 2)%nat.
  - apply bind_ok in Hk. destruct Hk as (t3 & q' & t4 & _ & Hk & ->).
    apply bind_ok in Hk. destruct Hk as (t5 & c1 & t6 & Hc1 & Hr & ->).
    apply lift_inv in Hc1. destruct Hc1 as [Hc1 ->].
    unfold ret in Hr. inversion Hr; subst. congruence.
  - unfold ret in Hk. inversion Hk; subst. congruence.
Qed.

Lemma leaf_verse_of_parent i tr q n c :
  verse_parent i = (tr, Ok (q, n)) -> attrib_class (fst q) = Ok c ->
  leaf_verse i =
    (tr, if (2 <? Str.count c "v")%nat then findMinVerse c
         else Str.int (Str.replace c "verse v" "")).
Proof.
  intros Hp Hc. pose proof (verse_parent_count _ _ _ _ _ Hp Hc) as ->.
  unfold leaf_verse. rewrite (bind_run _ _ _ _ Hp). unfold class_verse.
  rewrite Hc, bind_lift_ok.
  destruct (2 <? Str.count c "v")%nat; unfold lift; simpl;
    rewrite app_nil_r; reflexivity.
Qed.


(** ** [int] and [str] on integers *)









(** ** The ancestor walk *)

Lemma walk_unfold (el : element) (up : list element) :
  findVerseParent_walk el up =
    match attrib_class el with
    | Raise e => findVerseParent_except (Some el) e
    | Ok verse_class =>
        if Str.startswith verse_class "verse v" then ret (el, up)
        else
          match up with
          | [] => findVerseParent_except None AttributeError
          | p :: up' => findVerseParent_walk p up'
          end
    end.
Proof. destruct up; reflexivity. Qed.


Lemma count_v_prefixed (r : string) :
  Str.count ("verse v" ++ r) "v" = S (S (Str.count r "v")).
Proof.
  unfold Str.count.
  cbn [append Str.count_from Str.startswith Ascii.eqb Bool.eqb andb
       String.length Nat.sub].
  rewrite !startswith_nil. reflexivity.
Qed.







(** ** A walk that finds no verse element *)

Lemma walk_fails (up : list element) : forall el,
  Forall (fun e => verse_prefixed e = false) (el :: up) ->
  exists e, findVerseParent_walk el up = (walk_print (el :: up), Raise e).
Proof.
  induction up as [|p up IH]; intros el H; inversion H as [|? ? Hel Hup]; subst;
    rewrite walk_unfold; unfold walk_print; cbn [find];
    unfold verse_prefixed, lacks_class in *;
    destruct (attrib_class el) as [c|e0] eqn:Ec.
  - rewrite Hel. exists AttributeError. reflexivity.
  - unfold findVerseParent_except. destruct (text el) as [t|].
    + destruct (String.eqb (Str.strip t) ""); exists e0; reflexivity.
    + exists AttributeError. reflexivity.
  - rewrite Hel. destruct (IH p Hup) as (e & He). exists e. rewrite He.
    reflexivity.
  - unfold findVerseParent_except. destruct (text el) as [t|].
    + destruct (String.eqb (Str.strip t) ""); exists e0; reflexivity.
    + exists AttributeError. reflexivity.
Qed.

Lemma leaf_fails (leaf parent : element) (up : list element) :
  few_v parent ->
  Forall (fun e => verse_prefixed e = false) (parent :: up) ->
  exists e, leaf_verse (leaf, parent :: up) =
              (if lacks_class parent then [] else walk_print up, Raise e).
Proof.
  intros Hcount Hno. unfold leaf_verse, verse_parent, getparent. cbn [snd fst].
  unfold lacks_class. destruct (attrib_class parent) as [c|e0] eqn:Ec.
  - rewrite bind_lift_ok. specialize (Hcount c Ec).
    apply Nat.ltb_lt in Hcount. rewrite Hcount.
    unfold findVerseParent. cbn [fst snd].
    destruct (walk_fails up parent Hno) as (e & He). exists e.
    rewrite He. unfold walk_print. cbn [find]. unfold lacks_class.
    rewrite Ec. reflexivity.
  - exists e0. reflexivity.
Qed.

Lemma loop_body_fails (i : node) (t : list event) (e : exn) :
  leaf_verse i = (t, Raise e) ->
  forall st, exists t' e', loop_body st i = (t', Raise e').
Proof.
  intros H [vs last]. exists t, e. unfold loop_body. rewrite H. reflexivity.
Qed.

Lemma Chapter_init_of_tree (w : World) (book : string) (chapter bible : Z)
  (res : response) (found html : list N) (etree : element) :
  http_get w (chapter_url book chapter bible) = Ok res ->
  pattern_search w (res_text res) = Some found ->
  decodeHtml w (Str.drop_last (skipn 11 found)) = Ok html ->
  html_fromstring w html = Ok etree ->
  Chapter_init w book chapter bible =
    ((if status_code res =? 200 then []
      else [PrintLine (chapter_url book chapter bible)]) ++ fst (extract etree),
     match snd (extract etree) with
     | Ok st => Ok {| chapter_book := book; chapter_number := chapter;
                      chapter_bible := bible; verses := fst st |}
     | Raise e => Raise e
     end).
Proof.
  intros Hget Hsearch Hdec Hparse. unfold Chapter_init, getResponse.
  rewrite Hget. cbn [lift bind].
  destruct (status_code res =? 200); cbn [bind ret emit app];
    rewrite Hsearch, Hdec; cbn [lift on_error bind app];
    rewrite Hparse; cbn [bind app];
    destruct (extract etree) as [t [st|e]]; cbn [bind ret app fst snd];
    rewrite ?app_nil_r; reflexivity.
Qed.

Lemma walk_print_found (up : list element) (el : element) (t : string) :
  find lacks_class up = Some el -> text el = Some t ->
  walk_print up =
    if String.eqb (Str.strip t) "" then [] else [PrintTag t (attrib el)].
Proof. intros Hf Ht. unfold walk_print. rewrite Hf, Ht. reflexivity. Qed.

(** C4, as amended.  A selected span whose immediate parent has no class
    attribute or one with fewer than two [v], and none of whose ancestors has
    a class attribute starting with [verse v], makes the extraction raise:
    no verse mapping and no Chapter come out.  When the parent has a class
    attribute and the walk stops at an ancestor without one, the text of
    that ancestor, if it has a text, is printed with its attributes unless
    the text is blank. *)
Theorem C4_no_verse_ancestor_raises
  (w : World) (book : string) (chapter bible : Z) (res : response)
  (found html : list N) (etree leaf parent : element) (up : list element) :
  http_get w (chapter_url book chapter bible) = Ok res ->
  pattern_search w (res_text res) = Some found ->
  decodeHtml w (Str.drop_last (skipn 11 found)) = Ok html ->
  html_fromstring w html = Ok etree ->
  In (leaf, parent :: up) (xpath_content [] etree) ->
  few_v parent ->
  Forall (fun e => verse_prefixed e = false) (parent :: up) ->
  (exists e, snd (leaf_verse (leaf, parent :: up)) = Raise e) /\
  (forall el t,
     lacks_class parent = false ->
     find lacks_class up = Some el -> text el = Some t ->
     fst (leaf_verse (leaf, parent :: up)) =
       if String.eqb (Str.strip t) "" then [] else [PrintTag t (attrib el)]) /\
  (exists t e, extract etree = (t, Raise e)) /\
  (exists t e, Chapter_init w book chapter bible = (t, Raise e)).
Proof.
  intros Hget Hsearch Hdec Hparse Hin Hcount Hno.
  destruct (leaf_fails leaf parent up Hcount Hno) as (e & He).
  assert (Hex : exists t e, extract etree = (t, Raise e)).
  { unfold extract. apply (foldM_raises _ _ _ Hin).
    apply (loop_body_fails _ _ _ He). }
  split; [exists e; rewrite He; reflexivity|].
  split.
  { intros el t Hpar Hfind Ht. rewrite He, Hpar. cbn [fst].
    apply (walk_print_found up el t Hfind Ht). }
  split; [exact Hex|].
  destruct Hex as (t & e' & Hex).
  rewrite (Chapter_init_of_tree _ _ _ _ _ _ _ _ Hget Hsearch Hdec Hparse).
  rewrite Hex. eexists. exists e'. reflexivity.
Qed.

(** ** The keys of [verses] *)

Lemma dict_set_keys_iff (k N : Z) (x : string) (d : list (Z * string)) :
  In k (dict_keys (dict_set Z.eqb N x d)) <-> k = N \/ In k (dict_keys d).
Proof.
  rewrite !(dict_get_in_keys Z.eqb Z.eqb_eq).
  destruct (Z.eq_dec k N) as [->|Hne].
  - rewrite (dict_get_set_same Z.eqb Z.eqb_eq). split; [auto|congruence].
  - rewrite (dict_get_set_other Z.eqb Z.eqb_eq) by exact Hne. tauto.
Qed.

Lemma loop_body_keys vs last i tr vs1 last1 :
  loop_body (vs, last) i = (tr, Ok (vs1, last1)) ->
  exists N, assigned i = Some N /\
    forall k, In k (dict_keys vs1) <-> k = N \/ In k (dict_keys vs).
Proof.
  intros H. pose proof (loop_body_inv _ _ _ _ _ H) as (N & t & Hv & Ht & _ & Ha).
  rewrite (loop_body_run vs last i tr N t Hv Ht) in H.
  inversion H; subst. exists N. split; [exact Ha|]. intros k.
  rewrite dict_set_keys_iff. unfold defaultdict_getitem.
  destruct (dict_get Z.eqb N vs) eqn:E; cbn [snd]; [tauto|].
  rewrite dict_set_keys_iff. tauto.
Qed.

Lemma foldM_loop_keys l : forall vs last tr vs' last',
  foldM loop_body l (vs, last) = (tr, Ok (vs', last')) ->
  forall k, In k (dict_keys vs') <->
            In k (dict_keys vs) \/ exists i, In i l /\ assigned i = Some k.
Proof.
  induction l as [|a l IH]; intros vs last tr vs' last' H k; simpl in H.
  - inversion H; subst. split; [auto|]. intros [Hk|(i & [] & _)]. exact Hk.
  - apply bind_ok in H. destruct H as (t1 & [vs1 l1] & t2 & Ha & Hk & ->).
    destruct (loop_body_keys _ _ _ _ _ _ Ha) as (N & HN & Hkeys).
    rewrite (IH _ _ _ _ _ Hk k), Hkeys. split.
    + intros [[->|Hin]|(i & Hi & Hk')].
      * right. exists a. split; [left; reflexivity|exact HN].
      * left. exact Hin.
      * right. exists i. split; [right; exact Hi|exact Hk'].
    + intros [Hin|(i & [<-|Hi] & Hk')].
      * left. right. exact Hin.
      * left. left. congruence.
      * right. exists i. auto.
Qed.

Lemma set_verses_same (self : Chapter) : set_verses self (verses self) = self.
Proof. destruct self. reflexivity. Qed.

(** C6, as amended.  Right after parsing, the keys of [verses] are exactly
    the verse numbers given to at least one selected span.  Iterating, [len]
    and [get_verse()] read the mapping and leave it as it is, and so does
    indexing a verse number that is a key; indexing a verse number that is
    not a key (by [chapter[n]] or [get_verse(n)]) returns the empty text and
    adds that number as a new last key with the empty text. *)
Theorem C6_keys_after_parsing_and_reading
  (etree : element) (t : list event) (vs : list (Z * string))
  (last : option Z) (self : Chapter) :
  extract etree = (t, Ok (vs, last)) ->
  verses self = vs ->
  (forall k, In k (Chapter_iter self) <->
             exists i, In i (xpath_content [] etree) /\ assigned i = Some k) /\
  Chapter_len self = List.length (Chapter_iter self) /\
  get_verse self None = (inl vs, self) /\
  (forall k, In k (Chapter_iter self) ->
     Chapter_getitem self k = (verse_text vs k, self) /\
     get_verse self (Some k) = (inr (verse_text vs k), self)) /\
  (forall k, ~ In k (Chapter_iter self) ->
     Chapter_getitem self k = (EmptyString, set_verses self (vs ++ [(k, EmptyString)])) /\
     get_verse self (Some k) = (inr EmptyString, set_verses self (vs ++ [(k, EmptyString)]))).
Proof.
  intros Hex Hvs. unfold Chapter_iter, Chapter_len. rewrite Hvs.
  split; [|split; [|split; [|split]]].
  - intros k. unfold extract in Hex.
    rewrite (foldM_loop_keys _ _ _ _ _ _ Hex k). simpl. tauto.
  - unfold dict_keys. rewrite length_map. reflexivity.
  - unfold get_verse. rewrite Hvs. reflexivity.
  - intros k Hk. apply (dict_get_in_keys Z.eqb Z.eqb_eq) in Hk.
    unfold Chapter_getitem, get_verse, defaultdict_getitem, verse_text.
    rewrite Hvs. destruct (dict_get Z.eqb k vs); [|congruence].
    rewrite <- Hvs, set_verses_same. split; reflexivity.
  - intros k Hk.
    assert (Hnone : dict_get Z.eqb k vs = None).
    { destruct (dict_get Z.eqb k vs) eqn:E; [|reflexivity].
      exfalso. apply Hk. apply (dict_get_in_keys Z.eqb Z.eqb_eq). congruence. }
    unfold Chapter_getitem, get_verse, defaultdict_getitem.
    rewrite Hvs, Hnone, (dict_set_absent Z.eqb _ _ _ Hnone).
    split; reflexivity.
Qed.

(** ** The scheduler and the writer *)

Lemma file_writes_app (a b : list event) :
  file_writes (a ++ b) = file_writes a ++ file_writes b.
Proof. unfold file_writes. apply flat_map_app. Qed.

Lemma bind_quiet {A B} (m : io A) (k : A -> io B) :
  file_writes (fst m) = [] -> (forall a, file_writes (fst (k a)) = []) ->
  file_writes (fst (bind m k)) = [].
Proof.
  intros Hm Hk. destruct m as [t [a|e]]; simpl in *; [|exact Hm].
  specialize (Hk a). destruct (k a) as [t' r]. simpl in *.
  rewrite file_writes_app, Hm, Hk. reflexivity.
Qed.

Lemma foldM_quiet {A S} (f : S -> A -> io S) (l : list A) :
  (forall s a, file_writes (fst (f s a)) = []) ->
  forall s, file_writes (fst (foldM f l s)) = [].
Proof.
  intros Hf. induction l as [|a l IH]; intros s; [reflexivity|].
  simpl. apply bind_quiet; [apply Hf|apply IH].
Qed.

Lemma walk_quiet (up : list element) : forall el,
  file_writes (fst (findVerseParent_walk el up)) = [].
Proof.
  assert (Hex : forall (o : option element) e,
             file_writes (fst (@findVerseParent_except node o e)) = []).
  { intros [el|] e; [|reflexivity]. unfold findVerseParent_except.
    destruct (text el) as [t|]; [|reflexivity].
    destruct (String.eqb (Str.strip t) ""); reflexivity. }
  induction up as [|p up IH]; intros el; rewrite walk_unfold;
    destruct (attrib_class el) as [c|e]; try apply Hex;
    destruct (Str.startswith c "verse v"); try reflexivity.
  apply IH.
Qed.

Lemma leaf_verse_quiet (i : node) : file_writes (fst (leaf_verse i)) = [].
Proof.
  unfold leaf_verse. apply bind_quiet.
  - unfold verse_parent. destruct (getparent i) as [parent|]; [|reflexivity].
    apply bind_quiet; [reflexivity|]. intros c.
    destruct (Str.count c "v" <? 2)%nat; [|reflexivity].
    apply bind_quiet; [apply walk_quiet|]. intros q.
    apply bind_quiet; [reflexivity|]. reflexivity.
  - intros [parent vCount]. unfold class_verse.
    apply bind_quiet; [reflexivity|]. intros c.
    destruct (2 <? vCount)%nat; reflexivity.
Qed.

Lemma extract_quiet (etree : element) : file_writes (fst (extract etree)) = [].
Proof.
  unfold extract. apply foldM_quiet. intros [vs last] i. unfold loop_body.
  apply bind_quiet; [apply leaf_verse_quiet|]. intros verse.
  destruct (defaultdict_getitem Z.eqb "" verse vs) as [old vs'].
  apply bind_quiet; [reflexivity|]. reflexivity.
Qed.

Lemma Chapter_init_quiet (w : World) (book : string) (chapter bible : Z) :
  file_writes (fst (Chapter_init w book chapter bible)) = [].
Proof.
  unfold Chapter_init. apply bind_quiet.
  - unfold getResponse. apply bind_quiet; [reflexivity|]. intros res.
    apply bind_quiet; [destruct (status_code res =? 200); reflexivity|].
    reflexivity.
  - intros res. apply bind_quiet.
    + destruct (pattern_search w (res_text res)) as [found|]; [|reflexivity].
      destruct (decodeHtml w (Str.drop_last (skipn 11 found))); reflexivity.
    + intros html. apply bind_quiet; [reflexivity|]. intros etree.
      apply bind_quiet; [apply extract_quiet|]. reflexivity.
Qed.

Lemma get_async_chapters_quiet (w : World) (self : Book) :
  file_writes (fst (get_async_chapters w self)) = [].
Proof.
  unfold get_async_chapters. cbn [fst].
  induction (as_completed w (book_id self) (range1 (book_length self)))
    as [|ch order IH]; [reflexivity|].
  cbn [map List.concat fst snd]. rewrite file_writes_app, IH, Chapter_init_quiet.
  reflexivity.
Qed.

Lemma collect_raises (futures : list (Z * io Chapter)) :
  forall chapters ch t e, In (ch, (t, Raise e)) futures ->
  exists e', collect futures chapters = Raise e'.
Proof.
  induction futures as [|[ch0 [t0 [c|e0]]] futures IH];
    intros chapters ch t e Hin; [destruct Hin| |].
  - destruct Hin as [Heq|Hin]; [discriminate|].
    simpl. apply (IH _ ch t e Hin).
  - exists e0. reflexivity.
Qed.

Lemma get_async_chapters_raises (w : World) (self : Book) (ch : Z) (e : exn) :
  In ch (as_completed w (book_id self) (range1 (book_length self))) ->
  snd (Chapter_init w (book_id self) ch (book_bible self)) = Raise e ->
  exists e', snd (get_async_chapters w self) = Raise e'.
Proof.
  intros Hin He. unfold get_async_chapters. cbn [snd].
  destruct (Chapter_init w (book_id self) ch (book_bible self)) as [t r] eqn:E.
  simpl in He. subst r.
  apply (collect_raises _ [] ch t e).
  apply in_map_iff. exists ch. rewrite E. auto.
Qed.

Lemma write_book_raises (w : World) (bible : Bible) (idx : Z) (book found : Book)
  (e : exn) :
  fst (Bible_getitem bible (KBook book)) = Ok found ->
  snd (get_async_chapters w found) = Raise e ->
  snd (write_book w bible idx book) = Raise e /\
  file_writes (fst (write_book w bible idx book)) = [biblebook_line idx book].
Proof.
  intros Hfound Hraise. unfold write_book.
  destruct (Bible_getitem bible (KBook book)) as [r bible']. simpl in Hfound.
  subst r. pose proof (get_async_chapters_quiet w found) as Hq.
  rewrite bind_lift_ok.
  destruct (get_async_chapters w found) as [tg rg]. simpl in Hraise, Hq.
  subst rg. cbn [emit lift bind app fst snd].
  split; [reflexivity|]. cbn [file_writes flat_map app].
  change (flat_map _ tg) with (file_writes tg). rewrite Hq. reflexivity.
Qed.

Lemma write_books_app (run : Run) (pre : list Book) :
  forall now bible idx l t1 bible1,
  write_books run now bible idx pre = (t1, Ok bible1) ->
  write_books run now bible idx (pre ++ l) =
    (t1 ++ fst (write_books run (now + List.length pre) bible1
                  (idx + Z.of_nat (List.length pre)) l),
     snd (write_books run (now + List.length pre) bible1
            (idx + Z.of_nat (List.length pre)) l)).
Proof.
  induction pre as [|b pre IH]; intros now bible idx l t1 bible1 H.
  - simpl in H. inversion H; subst. cbn [app List.length Z.of_nat].
    rewrite Z.add_0_r, Nat.add_0_r.
    destruct (write_books run now bible1 idx l). reflexivity.
  - cbn [write_books] in H. apply bind_ok in H.
    destruct H as (ta & ba & tb & Ha & Hb & ->).
    cbn [app write_books]. rewrite (bind_run _ _ _ _ Ha).
    rewrite (IH _ _ _ l _ _ Hb). cbn [fst snd List.length].
    replace (idx + 1 + Z.of_nat (List.length pre))
      with (idx + Z.of_nat (S (List.length pre))) by lia.
    replace (S now + List.length pre)%nat
      with (now + S (List.length pre))%nat by lia.
    rewrite app_assoc. reflexivity.
Qed.

(** C5, as amended.  When the fetch and extraction of a chapter fails, the
    failure leaves [get_async_chapters] whatever the order in which the
    tasks finish, and no chapter map is returned.  [writeFile], which has
    opened the file, written the books before and the opening [BIBLEBOOK]
    line of the book it is at, then stops with that failure: the file holds
    the header, the books written before, and that opening line; no
    [CHAPTER] or [VERS] line of the book and nothing after it is written.
    The book may be any book of the list: the pages that were served for the
    books before it need not be served again. *)
Theorem C5_chapter_failure_aborts_the_book
  (run : Run) (now : nat) (bible : Bible) (pre : list Book) (book : Book)
  (post : list Book) (t1 : list event) (bible1 : Bible) (found : Book)
  (ch : Z) (e : exn) :
  file_open (run now) (bible_path bible) = Ok tt ->
  books bible = pre ++ book :: post ->
  write_books run (S now) bible 1 pre = (t1, Ok bible1) ->
  fst (Bible_getitem bible1 (KBook book)) = Ok found ->
  Permutation (as_completed (run (S now + List.length pre)%nat)
                 (book_id found) (range1 (book_length found)))
              (range1 (book_length found)) ->
  In ch (range1 (book_length found)) ->
  snd (Chapter_init (run (S now + List.length pre)%nat)
         (book_id found) ch (book_bible found)) = Raise e ->
  exists e',
    snd (get_async_chapters (run (S now + List.length pre)%nat) found) = Raise e' /\
    snd (writeFile run now bible) = Raise e' /\
    file_writes (fst (writeFile run now bible)) =
      header (run now) bible :: file_writes t1
      ++ [biblebook_line (1 + Z.of_nat (List.length pre)) book].
Proof.
  intros Hopen Hbooks Hpre Hfound Hperm Hin Hfail.
  set (w := run (S now + List.length pre)%nat) in *.
  assert (Hin' : In ch (as_completed w (book_id found) (range1 (book_length found)))).
  { apply (Permutation_in _ (Permutation_sym Hperm)). exact Hin. }
  destruct (get_async_chapters_raises w found ch e Hin' Hfail) as (e' & He').
  exists e'. split; [exact He'|].
  destruct (write_book_raises w bible1 (1 + Z.of_nat (List.length pre)) book
              found e' Hfound He') as [Hr Hw].
  unfold writeFile. rewrite Hopen, Hbooks.
  rewrite (write_books_app run pre (S now) bible 1 (book :: post) t1 bible1 Hpre).
  cbn [write_books]. fold w.
  destruct (write_book w bible1 (1 + Z.of_nat (List.length pre)) book)
    as [tb rb]. simpl in Hr, Hw. subst rb.
  cbn [emit lift bind app fst snd]. split; [reflexivity|].
  cbn [file_writes flat_map app].
  change (flat_map _ (t1 ++ tb)) with (file_writes (t1 ++ tb)).
  rewrite file_writes_app, Hw. reflexivity.
Qed.

(** ** Bible.Book.__init__ without a chapter count *)

(** C8.  A [Book] built without [length] never gets its chapter count: the
    filter over the fetched books reads [self.id] before [__init__] has
    assigned it, so the construction raises ([AttributeError]; or
    [StopIteration] when the metadata lists no book, or what the fetch
    raises).  For the metadata of the sample version, which lists three
    chapters for [GEN], it raises [AttributeError]. *)
Theorem C8_book_without_length_raises
  (w : World) (book_id name_book : string) (bible : Z) (abrev : option string) :
  (exists t e, Book_init w book_id name_book bible None abrev = (t, Raise e)) /\
  Book_init offline_world "GEN" "Genesis" 1 None (Some "Gen.")
    = ([], Raise AttributeError).
Proof.
  split; [|reflexivity].
  unfold Book_init. cbv zeta. cbn [getattr self_bible self_id self_length].
  rewrite bind_ret. unfold getResponse.
  destruct (http_get w (version_url bible)) as [res|e] eqn:Hget;
    [|eexists; eexists; reflexivity].
  cbn [lift bind].
  destruct (status_code res =? 200); cbn [bind ret emit app];
    (destruct (res_json res) as [data|e] eqn:Hjson;
       [|eexists; eexists; reflexivity]);
    cbn [lift bind app];
    (destruct (books_json data) as [|i rest];
       [eexists; eexists; reflexivity|]);
    cbn [next_filter raise bind]; eexists; eexists; reflexivity.
Qed.

(** ** The indentation of the lines written *)

(** C9.  The lines [writeFile] writes for books and chapters start with 2
    and 4 spaces, but a [VERS] line starts with 7: the 6 of [' '*6] and
    the one that opens the literal after it. *)
Theorem C9_vers_line_has_seven_spaces
  (idx chapter verse : Z) (book : Book) (content : string) :
  leading_spaces (biblebook_line idx book) = 2%nat /\
  leading_spaces biblebook_end_line = 2%nat /\
  leading_spaces (chapter_line chapter) = 4%nat /\
  leading_spaces chapter_end_line = 4%nat /\
  leading_spaces (vers_line verse content) = 7%nat /\
  nth 3 (file_writes
           (fst (writeFile (steady (page_world genesis_fragment)) O sample_bible)))
        EmptyString
    = vers_line 1 "In the".
Proof. repeat split; reflexivity. Qed.

(** ** Bible.get_book *)

Lemma Book_eqb_eq (a b : Book) : Book_eqb a b = true <-> a = b.
Proof.
  destruct a as [a1 a2 a3 a4 a5], b as [b1 b2 b3 b4 b5]. unfold Book_eqb.
  cbn [book_bible book_length book_id book_abrev book_name].
  rewrite !andb_true_iff, Z.eqb_eq, Nat.eqb_eq, !String.eqb_eq.
  split.
  - intros ((((-> & ->) & ->) & ->) & ->). reflexivity.
  - intros H. inversion H. auto.
Qed.

Lemma key_eqb_eq (a b : key) : key_eqb a b = true <-> a = b.
Proof.
  destruct a as [x|x], b as [y|y]; simpl.
  - rewrite String.eqb_eq. split; [intros ->; reflexivity|congruence].
  - split; discriminate.
  - split; discriminate.
  - rewrite Book_eqb_eq. split; [intros ->; reflexivity|congruence].
Qed.

Lemma Book_init_given (w : World) (id name : string) (bible : Z) (n : nat)
  (a : string) :
  Book_init w id name bible (Some n) (Some a) =
    ret {| book_bible := bible; book_length := n; book_id := id;
           book_abrev := Str.replace a "." ""; book_name := name |}.
Proof. reflexivity. Qed.

Lemma nth_error_snoc_sound (hm : list (key * nat)) (bs : list Book) (b : Book) :
  hashMap_sound hm bs ->
  hashMap_sound (dict_set key_eqb (KStr (book_id b)) (List.length bs) hm)
                (bs ++ [b]).
Proof.
  intros H k idx Hget.
  destruct (String.eqb k (book_id b)) eqn:E.
  - apply String.eqb_eq in E. subst k.
    rewrite (dict_get_set_same key_eqb key_eqb_eq) in Hget.
    inversion Hget; subst. right. exists b.
    rewrite nth_error_app2, Nat.sub_diag by lia. auto.
  - rewrite (dict_get_set_other key_eqb key_eqb_eq) in Hget.
    + destruct (H k idx Hget) as [->|(b' & Hn & Hid)]; [auto|].
      right. exists b'. split; [|exact Hid].
      rewrite nth_error_app1; [exact Hn|].
      apply nth_error_Some. congruence.
    + intros Heq. inversion Heq; subst. rewrite String.eqb_refl in E.
      discriminate.
Qed.

Lemma Bible_init_books_sound (w : World) (id : Z) (data : list book_json) :
  forall idx hm bs t hm' bs',
  idx = List.length bs -> hashMap_sound hm bs ->
  Bible_init_books w id data idx (hm, bs) = (t, Ok (hm', bs')) ->
  hashMap_sound hm' bs'.
Proof.
  induction data as [|i rest IH]; intros idx hm bs t hm' bs' Hidx Hs H.
  - simpl in H. inversion H; subst. exact Hs.
  - cbn [Bible_init_books] in H. rewrite Book_init_given, bind_ret in H.
    cbn [fst snd] in H. eapply IH; [| |exact H].
    + rewrite length_app. simpl. lia.
    + subst idx.
      apply (nth_error_snoc_sound hm bs
               {| book_bible := id; book_length := canonical_count i;
                  book_id := usfm i;
                  book_abrev := Str.replace (abbreviation i) "." "";
                  book_name := human_long i |} Hs).
Qed.

Lemma Bible_init_sound (w : World) (id : Z) (t : list event) (bible : Bible) :
  Bible_init w id = (t, Ok bible) -> hashMap_sound (hashMap bible) (books bible).
Proof.
  unfold Bible_init. intros H.
  apply bind_ok in H. destruct H as (t1 & res & t2 & _ & H & ->).
  apply bind_ok in H. destruct H as (t3 & data & t4 & _ & H & ->).
  apply bind_ok in H. destruct H as (t5 & [hm bs] & t6 & Hb & H & ->).
  unfold ret in H. inversion H; subst. cbn [hashMap books].
  apply (Bible_init_books_sound w id (books_json data) O [] [] t5 hm bs eq_refl);
    [|exact Hb].
  intros k idx Hget. discriminate.
Qed.

Lemma get_book_sound (self : Bible) (k : key) :
  hashMap_sound (hashMap self) (books self) ->
  hashMap_sound (hashMap (snd (get_book self k))) (books (snd (get_book self k))).
Proof.
  intros H. unfold get_book, defaultdict_getitem.
  destruct (dict_get key_eqb k (hashMap self)) eqn:E; cbn [snd set_hashMap hashMap books];
    [exact H|].
  intros k' idx Hget. destruct (key_eqb_eq (KStr k') k) as [_ Hk].
  destruct (key_eqb (KStr k') k) eqn:Ek.
  - apply key_eqb_eq in Ek. subst k.
    rewrite (dict_get_set_same key_eqb key_eqb_eq) in Hget.
    inversion Hget. auto.
  - rewrite (dict_get_set_other key_eqb key_eqb_eq) in Hget; [exact (H _ _ Hget)|].
    intros Heq. specialize (Hk Heq). discriminate.
Qed.

Lemma lookups_sound (ks : list key) : forall self,
  hashMap_sound (hashMap self) (books self) ->
  hashMap_sound (hashMap (lookups self ks)) (books (lookups self ks)).
Proof.
  unfold lookups. induction ks as [|k ks IH]; intros self H; [exact H|].
  simpl. apply IH. apply get_book_sound. exact H.
Qed.

(** C10, as amended.  For a Bible that has at least one book, whatever was
    looked up in it before, [get_book] and [bible[key]] with a string that
    is the USFM code of none of its books return the first book. *)
Theorem C10_unknown_code_gives_first_book
  (w : World) (id : Z) (t : list event) (bible0 : Bible) (ks : list key)
  (code : string) (first : Book) (rest : list Book) :
  Bible_init w id = (t, Ok bible0) ->
  books (lookups bible0 ks) = first :: rest ->
  (forall b, In b (books (lookups bible0 ks)) -> book_id b <> code) ->
  fst (get_book (lookups bible0 ks) (KStr code)) = Ok first /\
  fst (Bible_getitem (lookups bible0 ks) (KStr code)) = Ok first.
Proof.
  intros Hinit Hbooks Hnot.
  pose proof (lookups_sound ks bible0 (Bible_init_sound _ _ _ _ Hinit)) as Hs.
  assert (H : fst (get_book (lookups bible0 ks) (KStr code)) = Ok first).
  { unfold get_book, defaultdict_getitem.
    destruct (dict_get key_eqb (KStr code) (hashMap (lookups bible0 ks)))
      as [idx|] eqn:E; cbn [fst]; rewrite Hbooks.
    - destruct (Hs code idx E) as [->|(b & Hn & Hid)]; [reflexivity|].
      exfalso. apply (Hnot b); [|exact Hid].
      apply (nth_error_In _ idx). exact Hn.
    - reflexivity. }
  split; exact H.
Qed.

(** ** utils.decodeHtml *)

Lemma lead_byte_plain (base x : N) : (128 <= base)%N -> (base + x)%N <> 92%N.
Proof. lia. Qed.

Lemma utf8_char_plain (c : N) (bs : list N) :
  Codec.utf8_char c = Ok bs -> c <> 92%N -> Forall (fun b => b <> 92%N) bs.
Proof.
  unfold Codec.utf8_char. intros H Hc.
  destruct (c <? 128)%N.
  { apply Ok_inj in H. subst bs. constructor; [exact Hc|constructor]. }
  destruct (c <? 2048)%N.
  { apply Ok_inj in H. subst bs.
    repeat (constructor; [apply lead_byte_plain; lia|]). constructor. }
  destruct (c <? 65536)%N.
  { destruct ((55296 <=? c) && (c <=? 57343))%N; [discriminate|].
    apply Ok_inj in H. subst bs.
    repeat (constructor; [apply lead_byte_plain; lia|]). constructor. }
  destruct (c <? 1114112)%N; [|discriminate].
  apply Ok_inj in H. subst bs.
  repeat (constructor; [apply lead_byte_plain; lia|]). constructor.
Qed.

Lemma utf8_encode_plain (text : list N) : forall bs,
  Codec.utf8_encode text = Ok bs -> Forall (fun c => c <> 92%N) text ->
  Forall (fun b => b <> 92%N) bs.
Proof.
  induction text as [|c text IH]; intros bs H Hall; simpl in H.
  - inversion H; subst. constructor.
  - inversion Hall as [|? ? Hc Ht]; subst.
    destruct (Codec.utf8_char c) as [b1|] eqn:E1; [|discriminate].
    destruct (Codec.utf8_encode text) as [b2|] eqn:E2; [|discriminate].
    simpl in H. inversion H; subst. apply Forall_app. split.
    + apply (utf8_char_plain c); assumption.
    + apply IH; auto.
Qed.

Lemma utf8_encode_ascii (text : list N) :
  Forall (fun c => (c < 128)%N) text -> Codec.utf8_encode text = Ok text.
Proof.
  induction 1 as [|c text Hc _ IH]; [reflexivity|].
  simpl. unfold Codec.utf8_char. apply N.ltb_lt in Hc. rewrite Hc. simpl.
  rewrite IH. reflexivity.
Qed.

Lemma unicode_escape_plain (getcode : list N -> option N) (bs : list N) :
  Forall (fun b => b <> 92%N) bs ->
  Codec.unicode_escape_decode getcode bs = Ok bs.
Proof.
  unfold Codec.unicode_escape_decode.
  induction 1 as [|b bs Hb _ IH]; [reflexivity|].
  simpl. apply N.eqb_neq in Hb. rewrite Hb, IH. reflexivity.
Qed.

Lemma between_spec (lo hi b : N) :
  ((lo <=? b) && (b <=? hi))%N = true -> (lo <= b <= hi)%N.
Proof.
  intros H. apply andb_true_iff in H. destruct H as [H1 H2].
  apply N.leb_le in H1. apply N.leb_le in H2. auto.
Qed.

Lemma hex_digit_bound (b d : N) : Codec.hex_digit b = Some d -> (d < 16)%N.
Proof.
  unfold Codec.hex_digit.
  destruct ((48 <=? b) && (b <=? 57))%N eqn:E1.
  { apply between_spec in E1. intros H. assert (d = b - 48)%N by congruence. lia. }
  destruct ((97 <=? b) && (b <=? 102))%N eqn:E2.
  { apply between_spec in E2. intros H. assert (d = b - 87)%N by congruence. lia. }
  destruct ((65 <=? b) && (b <=? 70))%N eqn:E3; [|discriminate].
  apply between_spec in E3. intros H. assert (d = b - 55)%N by congruence. lia.
Qed.

Lemma escape_unknown (getcode : list N -> option N) (c : N) (r : list N) :
  escape_letter c = false ->
  Codec.escape getcode (c :: r) = Ok ([92%N; c], 1%nat).
Proof.
  unfold escape_letter. cbn [existsb]. intros H.
  repeat (apply orb_false_iff in H; destruct H as [?H H]).
  unfold Codec.escape.
  repeat match goal with
         | Hx : (c =? _)%N = false |- _ => rewrite Hx; clear Hx
         end.
  replace ((48 <=? c) && (c <=? 55))%N with false; [reflexivity|].
  symmetry. apply andb_false_iff.
  destruct (48 <=? c)%N eqn:E1; [right|left; reflexivity].
  apply N.leb_gt. apply N.leb_le in E1.
  repeat match goal with
         | Hx : (c =? _)%N = false |- _ => apply N.eqb_neq in Hx
         end. lia.
Qed.

Lemma hex_value_four (h1 h2 h3 h4 v : N) (r : list N) :
  Codec.hex_value 4 0%N [h1; h2; h3; h4] = Some v ->
  Codec.hex_value 4 0%N (h1 :: h2 :: h3 :: h4 :: r) = Some v /\ (v < 65536)%N.
Proof.
  cbn [Codec.hex_value].
  destruct (Codec.hex_digit h1) as [d1|] eqn:E1; [|discriminate].
  destruct (Codec.hex_digit h2) as [d2|] eqn:E2; [|discriminate].
  destruct (Codec.hex_digit h3) as [d3|] eqn:E3; [|discriminate].
  destruct (Codec.hex_digit h4) as [d4|] eqn:E4; [|discriminate].
  apply hex_digit_bound in E1, E2, E3, E4.
  intros H. split; [exact H|].
  assert (v = 16 * (16 * (16 * (16 * 0 + d1) + d2) + d3) + d4)%N by congruence.
  lia.
Qed.

Lemma hex_value_short (n : nat) : forall (ch : N) (r : list N),
  (List.length r < n)%nat -> Codec.hex_value n ch r = None.
Proof.
  induction n as [|n IH]; intros ch r H; [lia|].
  destruct r as [|b r]; [reflexivity|]. simpl in *.
  destruct (Codec.hex_digit b); [|reflexivity]. apply IH. lia.
Qed.

Lemma utf8_encode_app (a b : list N) :
  Codec.utf8_encode (a ++ b) =
    rbind (Codec.utf8_encode a) (fun x =>
    rbind (Codec.utf8_encode b) (fun y => Ok (x ++ y))).
Proof.
  induction a as [|c a IH]; cbn [app Codec.utf8_encode rbind].
  - destruct (Codec.utf8_encode b); reflexivity.
  - destruct (Codec.utf8_char c) as [bs|e]; cbn [rbind]; [|reflexivity].
    rewrite IH. destruct (Codec.utf8_encode a) as [x|e]; cbn [rbind]; [|reflexivity].
    destruct (Codec.utf8_encode b) as [y|e]; cbn [rbind]; [|reflexivity].
    rewrite app_assoc. reflexivity.
Qed.

Lemma lead_byte_high (base x : N) : (128 <= base)%N -> (128 <= base + x)%N.
Proof. lia. Qed.

(** The bytes of a character: itself when it is ASCII, bytes from 128 on
    otherwise. *)
Lemma utf8_char_bytes (c : N) (bs : list N) :
  Codec.utf8_char c = Ok bs ->
  ((c < 128)%N /\ bs = [c]) \/
  ((128 <= c)%N /\ exists b0 bs', bs = b0 :: bs' /\ (128 <= b0)%N).
Proof.
  unfold Codec.utf8_char.
  destruct (c <? 128)%N eqn:E1.
  { apply N.ltb_lt in E1. intros H. apply Ok_inj in H. left. auto. }
  apply N.ltb_ge in E1.
  destruct (c <? 2048)%N.
  { intros H. apply Ok_inj in H. right. split; [exact E1|].
    eexists. eexists. split; [symmetry; exact H|apply lead_byte_high; lia]. }
  destruct (c <? 65536)%N.
  { destruct ((55296 <=? c) && (c <=? 57343))%N; [discriminate|].
    intros H. apply Ok_inj in H. right. split; [exact E1|].
    eexists. eexists. split; [symmetry; exact H|apply lead_byte_high; lia]. }
  destruct (c <? 1114112)%N; [|discriminate].
  intros H. apply Ok_inj in H. right. split; [exact E1|].
  eexists. eexists. split; [symmetry; exact H|apply lead_byte_high; lia].
Qed.

Lemma hex_digit_ascii (b d : N) : Codec.hex_digit b = Some d -> (b < 128)%N.
Proof.
  unfold Codec.hex_digit.
  destruct ((48 <=? b) && (b <=? 57))%N eqn:E1.
  { apply between_spec in E1. intros _. lia. }
  destruct ((97 <=? b) && (b <=? 102))%N eqn:E2.
  { apply between_spec in E2. intros _. lia. }
  destruct ((65 <=? b) && (b <=? 70))%N eqn:E3; [|discriminate].
  apply between_spec in E3. intros _. lia.
Qed.

Lemma hex_digit_high (b : N) : (128 <= b)%N -> Codec.hex_digit b = None.
Proof.
  intros H. destruct (Codec.hex_digit b) as [d|] eqn:E; [|reflexivity].
  apply hex_digit_ascii in E. lia.
Qed.

Lemma hex_value_app (n : nat) : forall ch s v x,
  Codec.hex_value n ch s = Some v -> Codec.hex_value n ch (s ++ x) = Some v.
Proof.
  induction n as [|n IH]; intros ch s v x H; [exact H|].
  destruct s as [|b r]; [discriminate|]. cbn [app Codec.hex_value] in *.
  destruct (Codec.hex_digit b); [apply IH; exact H|discriminate].
Qed.

Lemma hex_value_length (n : nat) : forall ch s v,
  Codec.hex_value n ch s = Some v -> (n <= List.length s)%nat.
Proof.
  induction n as [|n IH]; intros ch s v H; [lia|].
  destruct s as [|b r]; [discriminate|]. cbn [Codec.hex_value List.length] in *.
  destruct (Codec.hex_digit b); [|discriminate]. apply IH in H. lia.
Qed.

Lemma hex_value_ascii (n : nat) : forall ch s v,
  List.length s = n -> Codec.hex_value n ch s = Some v ->
  Forall (fun c => (c < 128)%N) s.
Proof.
  induction n as [|n IH]; intros ch s v Hl H.
  - destruct s; [constructor|discriminate].
  - destruct s as [|b r]; [discriminate|]. cbn [Codec.hex_value List.length] in *.
    destruct (Codec.hex_digit b) as [d|] eqn:E; [|discriminate].
    constructor; [apply (hex_digit_ascii b d E)|].
    apply (IH (16 * ch + d)%N r v); [lia|exact H].
Qed.

(** The hexadecimal digits at the start of a text are those at the start of
    its bytes. *)
Lemma hex_value_encode (n : nat) : forall ch r br,
  Codec.utf8_encode r = Ok br ->
  Codec.hex_value n ch br = Codec.hex_value n ch r.
Proof.
  induction n as [|n IH]; intros ch r br H; [reflexivity|].
  destruct r as [|c r]; cbn [Codec.utf8_encode] in H.
  - apply Ok_inj in H. subst br. reflexivity.
  - destruct (Codec.utf8_char c) as [bs|] eqn:Ec; [|discriminate].
    destruct (Codec.utf8_encode r) as [br'|] eqn:Er; [|discriminate].
    cbn [rbind] in H. apply Ok_inj in H. subst br.
    destruct (utf8_char_bytes c bs Ec) as [[Hc ->]|[Hc (b0 & bs' & -> & Hb)]].
    + cbn [app Codec.hex_value]. destruct (Codec.hex_digit c); [|reflexivity].
      apply IH. exact Er.
    + cbn [app Codec.hex_value].
      rewrite (hex_digit_high b0 Hb), (hex_digit_high c Hc). reflexivity.
Qed.

Lemma is_octal_digit (c : N) :
  Codec.octal_digit c = if is_octal c then Some (c - 48)%N else None.
Proof. reflexivity. Qed.

Lemma starts_octal_encode (r br : list N) :
  Codec.utf8_encode r = Ok br -> starts_octal br = starts_octal r.
Proof.
  destruct r as [|c r]; cbn [Codec.utf8_encode]; intros H.
  - apply Ok_inj in H. subst br. reflexivity.
  - destruct (Codec.utf8_char c) as [bs|] eqn:Ec; [|discriminate].
    destruct (Codec.utf8_encode r) as [br'|]; [|discriminate].
    cbn [rbind] in H. apply Ok_inj in H. subst br.
    destruct (utf8_char_bytes c bs Ec) as [[Hc ->]|[Hc (b0 & bs' & -> & Hb)]];
      [reflexivity|].
    cbn [app starts_octal]. unfold is_octal.
    replace (b0 <=? 55)%N with false by (symmetry; apply N.leb_gt; lia).
    replace (c <=? 55)%N with false by (symmetry; apply N.leb_gt; lia).
    rewrite !andb_false_r. reflexivity.
Qed.

Lemma until_brace_app (s : list N) : forall name x,
  Codec.until_brace s = Some name -> Codec.until_brace (s ++ x) = Some name.
Proof.
  induction s as [|b r IH]; intros name x; [discriminate|].
  cbn [app Codec.until_brace]. destruct (b =? 125)%N; [auto|].
  destruct (Codec.until_brace r) as [n|] eqn:E; [|discriminate].
  rewrite (IH n x eq_refl). auto.
Qed.

Lemma until_brace_length (s : list N) : forall name,
  Codec.until_brace s = Some name -> (List.length name < List.length s)%nat.
Proof.
  induction s as [|b r IH]; intros name; [discriminate|].
  cbn [Codec.until_brace List.length]. destruct (b =? 125)%N.
  - intros H. inversion H. cbn. lia.
  - destruct (Codec.until_brace r) as [n|] eqn:E; [|discriminate].
    intros H. inversion H. specialize (IH n eq_refl). cbn. lia.
Qed.

Lemma until_brace_name (name r : list N) :
  Forall (fun c => (c < 128)%N /\ c <> 125%N) name ->
  Codec.until_brace (name ++ 125%N :: r) = Some name.
Proof.
  induction 1 as [|c name [_ Hc] _ IH]; [reflexivity|].
  cbn [app Codec.until_brace]. apply N.eqb_neq in Hc. rewrite Hc, IH.
  reflexivity.
Qed.

Lemma hex_escape_app (n : nat) (m : string) (s x : list N) (res : list N * nat) :
  Codec.hex_escape n m s = Ok res ->
  Codec.hex_escape n m (s ++ x) = Ok res /\ (snd res <= S (List.length s))%nat.
Proof.
  unfold Codec.hex_escape.
  destruct (Codec.hex_value n 0 s) as [ch|] eqn:E; [|discriminate].
  rewrite (hex_value_app n _ _ _ x E). apply hex_value_length in E.
  destruct (1114111 <? ch)%N; [discriminate|].
  intros H. split; [exact H|]. apply Ok_inj in H. subst res. cbn [snd]. lia.
Qed.

(** An escape that is read is read in the same way when a backslash and
    anything else follow what was there, and it ends within what was there. *)
Lemma escape_lookahead (getcode : list N -> option N) (r q : list N)
  (res : list N * nat) :
  Codec.escape getcode r = Ok res ->
  Codec.escape getcode (r ++ 92%N :: q) = Ok res /\
  (snd res <= List.length r)%nat.
Proof.
  unfold Codec.escape. destruct r as [|c r]; [discriminate|]. cbn [app].
  do 11 (match goal with
         | |- (if ?b then _ else _) = _ -> _ =>
             destruct b;
             [intros H; split; [exact H|];
              apply Ok_inj in H; subst res; cbn [snd List.length]; lia|]
         end).
  destruct ((48 <=? c) && (c <=? 55))%N.
  { destruct r as [|d1 r1]; cbn [app].
    - change (Codec.octal_digit 92) with (@None N).
      intros H. split; [exact H|]. apply Ok_inj in H. subst res.
      cbn [snd List.length]. lia.
    - destruct (Codec.octal_digit d1) as [v1|].
      + destruct r1 as [|d2 r2]; cbn [app].
        * change (Codec.octal_digit 92) with (@None N).
          intros H. split; [exact H|]. apply Ok_inj in H. subst res.
          cbn [snd List.length]. lia.
        * destruct (Codec.octal_digit d2); intros H; (split; [exact H|]);
            apply Ok_inj in H; subst res; cbn [snd List.length]; lia.
      + intros H. split; [exact H|]. apply Ok_inj in H. subst res.
        cbn [snd List.length]. lia. }
  do 3 (match goal with
        | |- (if ?b then _ else _) = _ -> _ =>
            destruct b;
            [intros H; destruct (hex_escape_app _ _ _ (92%N :: q) _ H) as [H1 H2];
             split; [exact H1|cbn [List.length]; lia]|]
        end).
  destruct (c =? 78)%N.
  { destruct r as [|b r1]; [discriminate|]. cbn [app].
    destruct (b =? 123)%N; [|discriminate].
    destruct (Codec.until_brace r1) as [name|] eqn:E; [|discriminate].
    rewrite (until_brace_app _ _ (92%N :: q) E). apply until_brace_length in E.
    destruct name as [|n0 name]; [discriminate|].
    destruct (getcode (n0 :: name)); [|discriminate].
    intros H. split; [exact H|]. apply Ok_inj in H. subst res.
    cbn [snd List.length] in *. lia. }
  intros H. split; [exact H|]. apply Ok_inj in H. subst res.
  cbn [snd List.length]. lia.
Qed.

Lemma after_after (a b : list N) (r : result (list N)) :
  after a (after b r) = after (a ++ b) r.
Proof.
  unfold after. destruct r as [t|e]; cbn [rbind]; [|reflexivity].
  rewrite app_assoc. reflexivity.
Qed.

Lemma after_nil (r : result (list N)) : after [] r = r.
Proof. destruct r; reflexivity. Qed.

(** After bytes that decode, a backslash opens an escape of its own. *)
Lemma unicode_escape_from_backslash (getcode : list N -> option N) (q : list N)
  (s : list N) : forall skip t,
  (skip <= List.length s)%nat ->
  Codec.unicode_escape_from getcode skip s = Ok t ->
  Codec.unicode_escape_from getcode skip (s ++ 92%N :: q) =
    after t (Codec.unicode_escape_from getcode O (92%N :: q)).
Proof.
  remember (Codec.unicode_escape_from getcode O (92%N :: q)) as T eqn:HT.
  induction s as [|b r IH]; intros skip t Hskip H.
  - destruct skip; [|cbn in Hskip; lia]. cbn in H. apply Ok_inj in H. subst t.
    cbn [app]. rewrite after_nil. symmetry. exact HT.
  - destruct skip as [|k].
    + cbn [app Codec.unicode_escape_from] in *. destruct (b =? 92)%N.
      * destruct (Codec.escape getcode r) as [[out used]|] eqn:E; [|discriminate].
        destruct (escape_lookahead getcode r q _ E) as [-> Hused].
        cbn [rbind snd] in *.
        destruct (Codec.unicode_escape_from getcode used r) as [rest|] eqn:E2;
          [|discriminate].
        cbn [rbind] in H. apply Ok_inj in H. subst t.
        rewrite (IH used rest Hused E2).
        destruct T as [t'|e]; unfold after; cbn [rbind]; [|reflexivity].
        rewrite app_assoc. reflexivity.
      * destruct (Codec.unicode_escape_from getcode 0 r) as [rest|] eqn:E2;
          [|discriminate].
        cbn [rbind] in H. apply Ok_inj in H. subst t.
        rewrite (IH O rest (Nat.le_0_l _) E2).
        destruct T as [t'|e]; unfold after; cbn [rbind]; reflexivity.
    + cbn [app Codec.unicode_escape_from List.length] in *.
      apply IH; [lia|exact H].
Qed.

Lemma unicode_escape_skip (getcode : list N -> option N) (x s : list N) :
  Codec.unicode_escape_from getcode (List.length x) (x ++ s) =
    Codec.unicode_escape_from getcode O s.
Proof.
  induction x as [|b x IH]; [reflexivity|].
  cbn [app List.length Codec.unicode_escape_from]. exact IH.
Qed.

(** After a text that decodes, a backslash opens an escape of its own. *)
Lemma decodeHtml_backslash (w : World) (pre t tail : list N) :
  decodeHtml w pre = Ok t ->
  decodeHtml w (pre ++ 92%N :: tail) = after t (decodeHtml w (92%N :: tail)).
Proof.
  unfold decodeHtml, Codec.decodeHtml. intros H.
  rewrite utf8_encode_app.
  destruct (Codec.utf8_encode pre) as [bp|] eqn:Ep; [|discriminate].
  cbn [rbind] in *.
  destruct (Codec.utf8_encode (92%N :: tail)) as [bt|e] eqn:Et; cbn [rbind];
    [|reflexivity].
  cbn [Codec.utf8_encode] in Et.
  change (Codec.utf8_char 92) with (Ok [92%N]) in Et. cbn [rbind] in Et.
  destruct (Codec.utf8_encode tail) as [bt'|]; [|discriminate].
  cbn [rbind app] in Et. apply Ok_inj in Et. subst bt.
  unfold Codec.unicode_escape_decode in *.
  apply unicode_escape_from_backslash; [lia|exact H].
Qed.

(** An escape at the start of a text: [x] is what the escape is made of
    after the backslash. *)
Lemma decodeHtml_escape_read (w : World) (x out r : list N) :
  Forall (fun c => (c < 128)%N) x ->
  (forall br, Codec.utf8_encode r = Ok br ->
     Codec.escape (unicode_name w) (x ++ br) = Ok (out, List.length x)) ->
  decodeHtml w (92%N :: x ++ r) = after out (decodeHtml w r).
Proof.
  intros Hx Hesc. unfold decodeHtml, Codec.decodeHtml.
  change (92%N :: x ++ r) with ((92%N :: x) ++ r).
  rewrite utf8_encode_app, utf8_encode_ascii
    by (constructor; [reflexivity|exact Hx]).
  cbn [rbind].
  destruct (Codec.utf8_encode r) as [br|e]; cbn [rbind]; [|reflexivity].
  unfold Codec.unicode_escape_decode.
  cbn [app Codec.unicode_escape_from N.eqb Pos.eqb].
  rewrite (Hesc br eq_refl). cbn [rbind]. rewrite unicode_escape_skip.
  reflexivity.
Qed.

Lemma decodeHtml_escape_fails (w : World) (x r br : list N) (e : exn) :
  Forall (fun c => (c < 128)%N) x ->
  Codec.utf8_encode r = Ok br ->
  Codec.escape (unicode_name w) (x ++ br) = Raise e ->
  decodeHtml w (92%N :: x ++ r) = Raise e.
Proof.
  intros Hx Hr Hesc. unfold decodeHtml, Codec.decodeHtml.
  change (92%N :: x ++ r) with ((92%N :: x) ++ r).
  rewrite utf8_encode_app, utf8_encode_ascii
    by (constructor; [reflexivity|exact Hx]).
  cbn [rbind]. rewrite Hr. cbn [rbind].
  unfold Codec.unicode_escape_decode.
  cbn [app Codec.unicode_escape_from N.eqb Pos.eqb].
  rewrite Hesc. reflexivity.
Qed.

Lemma escape_octal (getcode : list N -> option N) (c : N) (r : list N) :
  is_octal c = true ->
  Codec.escape getcode (c :: r) =
    match r with
    | d1 :: r1 =>
        match Codec.octal_digit d1 with
        | Some v1 =>
            match r1 with
            | d2 :: _ =>
                match Codec.octal_digit d2 with
                | Some v2 => Ok ([((c - 48) * 8 + v1) * 8 + v2], 3%nat)
                | None => Ok ([(c - 48) * 8 + v1], 2%nat)
                end
            | [] => Ok ([(c - 48) * 8 + v1], 2%nat)
            end
        | None => Ok ([c - 48], 1%nat)
        end
    | [] => Ok ([c - 48], 1%nat)
    end%N.
Proof.
  intros H. pose proof (between_spec _ _ _ H) as Hc. unfold Codec.escape.
  repeat match goal with
         | |- context [(c =? ?k)%N] =>
             replace (c =? k)%N with false by (symmetry; apply N.eqb_neq; lia)
         end.
  unfold is_octal in H. rewrite H. reflexivity.
Qed.

Lemma escape_hex (getcode : list N -> option N) (c : N) (n : nat) (msg : string)
  (r : list N) :
  In (c, n, msg) hex_escapes ->
  Codec.escape getcode (c :: r) = Codec.hex_escape n msg r.
Proof.
  intros [H|[H|[H|[]]]]; inversion H; subst; reflexivity.
Qed.

(** C7, as amended.  [decodeHtml] encodes its argument as UTF-8 and decodes
    the bytes with the [unicode_escape] codec.  A text without a backslash
    comes out as the sequence of its UTF-8 bytes, each byte a character, so
    an ASCII text is unchanged and a character above U+007F is not recovered
    (U+00E9 gives the two characters U+00C3 U+00A9).  After any text that
    decodes, a backslash opens an escape, which is read as in a Python
    literal: the one-letter escapes ([\n] is a newline, a backslash and a
    double quote give the double quote), one to three octal digits, [\x],
    [\u] and [\U] with two, four and eight hexadecimal digits, and [\N] with
    a character name in braces.  A backslash at the end of the text, a [\x],
    [\u] or [\U] without all its digits, a [\U] above U+10FFFF and an unknown
    character name raise [UnicodeDecodeError]; an escape the codec does
    not know is not an error: the backslash and the character are kept. *)
Theorem C7_decodeHtml_decodes_unicode_escape_of_utf8 (w : World) :
  (forall text bytes,
     Codec.utf8_encode text = Ok bytes ->
     Forall (fun c => c <> 92%N) text ->
     decodeHtml w text = Ok bytes) /\
  (forall text,
     Forall (fun c => (c < 128)%N) text ->
     Forall (fun c => c <> 92%N) text ->
     decodeHtml w text = Ok text) /\
  decodeHtml w [233%N] = Ok [195%N; 169%N] /\
  (forall pre t,
     decodeHtml w pre = Ok t ->
     (forall c o r,
        In (c, o) simple_escapes ->
        decodeHtml w (pre ++ 92%N :: c :: r) = after (t ++ o) (decodeHtml w r)) /\
     (forall ds r,
        ds <> [] -> (List.length ds <= 3)%nat -> forallb is_octal ds = true ->
        List.length ds = 3%nat \/ starts_octal r = false ->
        decodeHtml w (pre ++ 92%N :: ds ++ r) =
          after (t ++ [octal_value ds]) (decodeHtml w r)) /\
     (forall c n msg hs v r,
        In (c, n, msg) hex_escapes -> List.length hs = n ->
        Codec.hex_value n 0%N hs = Some v -> (v <= 1114111)%N ->
        decodeHtml w (pre ++ 92%N :: c :: hs ++ r) =
          after (t ++ [v]) (decodeHtml w r)) /\
     (forall c n msg hs v r bytes,
        In (c, n, msg) hex_escapes -> List.length hs = n ->
        Codec.hex_value n 0%N hs = Some v -> (1114111 < v)%N ->
        Codec.utf8_encode r = Ok bytes ->
        decodeHtml w (pre ++ 92%N :: c :: hs ++ r) =
          Raise (UnicodeDecodeError "illegal Unicode character")) /\
     (forall name r,
        name <> [] -> Forall (fun c => (c < 128)%N /\ c <> 125%N) name ->
        decodeHtml w (pre ++ 92%N :: 78%N :: 123%N :: name ++ 125%N :: r) =
          match unicode_name w name with
          | Some ch => after (t ++ [ch]) (decodeHtml w r)
          | None =>
              rbind (Codec.utf8_encode r) (fun _ =>
                Raise (UnicodeDecodeError "unknown Unicode character name"))
          end) /\
     (forall c r,
        escape_letter c = false -> (c < 128)%N ->
        decodeHtml w (pre ++ 92%N :: c :: r) =
          after (t ++ [92%N; c]) (decodeHtml w r)) /\
     decodeHtml w (pre ++ [92%N]) =
       Raise (UnicodeDecodeError "\ at end of string") /\
     (forall c n msg r bytes,
        In (c, n, msg) hex_escapes ->
        Codec.utf8_encode r = Ok bytes ->
        Codec.hex_value n 0%N r = None ->
        decodeHtml w (pre ++ 92%N :: c :: r) = Raise (UnicodeDecodeError msg))).
Proof.
  assert (Hplain : forall text bytes,
     Codec.utf8_encode text = Ok bytes ->
     Forall (fun c => c <> 92%N) text ->
     decodeHtml w text = Ok bytes).
  { intros text bytes Henc Hno. unfold decodeHtml, Codec.decodeHtml.
    rewrite Henc. cbn [rbind]. apply unicode_escape_plain.
    apply (utf8_encode_plain text); assumption. }
  split; [exact Hplain|].
  split; [intros text Hascii Hno; apply Hplain;
          [apply utf8_encode_ascii; exact Hascii|exact Hno]|].
  split; [reflexivity|].
  intros pre t Hpre.
  assert (Hread : forall x out r,
     Forall (fun c => (c < 128)%N) x ->
     (forall br, Codec.utf8_encode r = Ok br ->
        Codec.escape (unicode_name w) (x ++ br) = Ok (out, List.length x)) ->
     decodeHtml w (pre ++ 92%N :: x ++ r) = after (t ++ out) (decodeHtml w r)).
  { intros x out r Hx Hesc. rewrite (decodeHtml_backslash w pre t _ Hpre).
    rewrite (decodeHtml_escape_read w x out r Hx Hesc). apply after_after. }
  assert (Hfail : forall x r br e,
     Forall (fun c => (c < 128)%N) x ->
     Codec.utf8_encode r = Ok br ->
     Codec.escape (unicode_name w) (x ++ br) = Raise e ->
     decodeHtml w (pre ++ 92%N :: x ++ r) = Raise e).
  { intros x r br e Hx Hr Hesc. rewrite (decodeHtml_backslash w pre t _ Hpre).
    rewrite (decodeHtml_escape_fails w x r br e Hx Hr Hesc). reflexivity. }
  split.
  { intros c o r Hin. apply (Hread [c] o r).
    - cbn [simple_escapes In] in Hin.
      repeat (destruct Hin as [Hin|Hin];
              [inversion Hin; subst; constructor; [reflexivity|constructor]|]).
      destruct Hin.
    - intros br _. cbn [simple_escapes In] in Hin.
      repeat (destruct Hin as [Hin|Hin]; [inversion Hin; subst; reflexivity|]).
      destruct Hin. }
  split.
  { intros ds r Hne Hlen Hoct Hnext.
    assert (Hds : Forall (fun c => (c < 128)%N) ds).
    { apply Forall_forall. intros d Hd.
      pose proof (proj1 (forallb_forall _ _) Hoct d Hd) as Hd'.
      apply between_spec in Hd'. lia. }
    apply (Hread ds [octal_value ds] r Hds). intros br Hbr.
    pose proof (starts_octal_encode r br Hbr) as Hso.
    destruct ds as [|d1 [|d2 [|d3 [|d4 ds]]]];
      [congruence| | | |cbn [List.length] in Hlen; lia];
      cbn [forallb] in Hoct;
      repeat (apply andb_true_iff in Hoct; destruct Hoct as [?Hd Hoct]);
      cbn [app]; rewrite escape_octal by assumption;
      rewrite ?is_octal_digit;
      repeat match goal with
             | Hx : is_octal _ = true |- _ => rewrite Hx
             end;
      cbn [List.length octal_value fold_left].
    - destruct Hnext as [Hnext|Hnext]; [discriminate|].
      rewrite <- Hso in Hnext. destruct br as [|b br]; [reflexivity|].
      cbn [starts_octal] in Hnext. rewrite is_octal_digit, Hnext. reflexivity.
    - destruct Hnext as [Hnext|Hnext]; [discriminate|].
      rewrite <- Hso in Hnext. destruct br as [|b br]; [reflexivity|].
      cbn [starts_octal] in Hnext. rewrite is_octal_digit, Hnext. reflexivity.
    - reflexivity. }
  split.
  { intros c n msg hs v r Hin Hlen Hv Hmax.
    change (c :: hs ++ r) with ((c :: hs) ++ r).
    apply (Hread (c :: hs) [v] r).
    - constructor; [|apply (hex_value_ascii n 0%N hs v Hlen Hv)].
      destruct Hin as [H|[H|[H|[]]]]; inversion H; reflexivity.
    - intros br _. cbn [app List.length].
      rewrite (escape_hex _ c n msg _ Hin). unfold Codec.hex_escape.
      rewrite (hex_value_app n _ _ _ br Hv).
      replace (1114111 <? v)%N with false by (symmetry; apply N.ltb_ge; lia).
      rewrite Hlen. reflexivity. }
  split.
  { intros c n msg hs v r bytes Hin Hlen Hv Hmax Hr.
    change (c :: hs ++ r) with ((c :: hs) ++ r).
    apply (Hfail (c :: hs) r bytes).
    - constructor; [|apply (hex_value_ascii n 0%N hs v Hlen Hv)].
      destruct Hin as [H|[H|[H|[]]]]; inversion H; reflexivity.
    - exact Hr.
    - cbn [app]. rewrite (escape_hex _ c n msg _ Hin). unfold Codec.hex_escape.
      rewrite (hex_value_app n _ _ _ bytes Hv).
      replace (1114111 <? v)%N with true by (symmetry; apply N.ltb_lt; lia).
      reflexivity. }
  split.
  { intros name r Hne Hname.
    assert (Hx : Forall (fun c => (c < 128)%N)
                        (78%N :: 123%N :: name ++ [125%N])).
    { constructor; [reflexivity|]. constructor; [reflexivity|].
      apply Forall_app. split.
      - apply (Forall_impl _ (fun c H => proj1 H) Hname).
      - constructor; [reflexivity|constructor]. }
    assert (Hshape : forall s : list N,
              78%N :: 123%N :: name ++ 125%N :: s =
              (78%N :: 123%N :: name ++ [125%N]) ++ s).
    { intros s0. cbn [app]. rewrite <- app_assoc. reflexivity. }
    assert (Hesc : forall br,
              Codec.escape (unicode_name w) ((78%N :: 123%N :: name ++ [125%N]) ++ br) =
              match unicode_name w name with
              | Some ch => Ok ([ch], List.length (78%N :: 123%N :: name ++ [125%N]))
              | None => Raise (UnicodeDecodeError "unknown Unicode character name")
              end).
    { intros br. rewrite <- Hshape. unfold Codec.escape.
      cbn [N.eqb Pos.eqb andb N.leb N.compare Pos.compare Pos.compare_cont].
      rewrite (until_brace_name name br Hname).
      destruct name as [|n0 name']; [congruence|].
      destruct (unicode_name w (n0 :: name')); [|reflexivity].
      cbn [List.length]. rewrite length_app. cbn [List.length].
      do 2 f_equal. lia. }
    rewrite Hshape.
    destruct (unicode_name w name) as [ch|] eqn:En.
    - apply (Hread _ [ch] r Hx). intros br _. apply Hesc.
    - destruct (Codec.utf8_encode r) as [br|e] eqn:Er; cbn [rbind].
      + apply (Hfail _ r br _ Hx Er). apply Hesc.
      + rewrite (decodeHtml_backslash w pre t _ Hpre).
        unfold decodeHtml, Codec.decodeHtml.
        change (92%N :: (78%N :: 123%N :: name ++ [125%N]) ++ r)
          with ((92%N :: 78%N :: 123%N :: name ++ [125%N]) ++ r).
        rewrite utf8_encode_app, utf8_encode_ascii
          by (constructor; [reflexivity|exact Hx]).
        cbn [rbind]. rewrite Er. reflexivity. }
  split.
  { intros c r Hc Hascii. apply (Hread [c] [92%N; c] r).
    - constructor; [exact Hascii|constructor].
    - intros br _. apply escape_unknown. exact Hc. }
  split.
  { change (pre ++ [92%N]) with (pre ++ 92%N :: [] ++ []).
    apply (Hfail [] [] []); [constructor|reflexivity|reflexivity]. }
  intros c n msg r bytes Hin Hr Hnone.
  apply (Hfail [c] r bytes).
  - constructor; [|constructor].
    destruct Hin as [H|[H|[H|[]]]]; inversion H; reflexivity.
  - exact Hr.
  - cbn [app]. rewrite (escape_hex _ c n msg _ Hin). unfold Codec.hex_escape.
    rewrite (hex_value_encode n 0%N r bytes Hr), Hnone. reflexivity.
Qed.

(** * Scenarios, witnesses and counterexamples *)

(** The end-to-end scenario of the specification. *)
Example end_to_end_scenario :
  extract genesis_fragment = ([], Ok ([(1, "In the"); (2, "beginning")], Some 2)) /\
  Chapter_init (page_world genesis_fragment) "GEN" 1 1 = ([], Ok genesis_chapter).
Proof. split; reflexivity. Qed.

(** The range [verse v12 v13 v14] collapses to verse 12. *)
Example range_collapse_scenario :
  extract range_fragment = ([], Ok ([(12, "a b")], Some 12)).
Proof. reflexivity. Qed.

(** The walk from [content-wrapper] up to [verse v7]. *)
Example ancestor_walk_scenario :
  extract verse7_span = ([], Ok ([(7, "x")], Some 7)).
Proof. reflexivity. Qed.

Lemma C1_space_iff_previous_same_verse_witness :
  exists vs',
    foldM loop_body [span_In; span_the] ([], None) = ([], Ok (vs', Some 1)) /\
    verse_text vs' 1 = "In the" /\
    (forall k, k <> 1 -> verse_text vs' k = verse_text [(1, "In")] k).
Proof.
  apply (C1_space_iff_previous_same_verse [span_In] span_the []
           ([(1, "In")], Some 1) [] 1 "the"); reflexivity.
Defined.




(** C4, as stated, fails twice.  A span under a parent of class [v1 v2 v3]
    has no ancestor whose class starts with [verse v], yet it is given verse
    1 and the Chapter is produced; and under [note] in a [div] without
    attributes the extraction does raise, but prints nothing. *)
Lemma C4_counterexample :
  (xpath_content [] tokens_span = [(content "x", [tokens_span])] /\
   spec_nearest_verse [tokens_span] = None /\
   Chapter_init (page_world tokens_span) "GEN" 1 1 =
     ([], Ok {| chapter_book := "GEN"; chapter_number := 1; chapter_bible := 1;
                verses := [(1, "x")] |})) /\
  (xpath_content [] note_fragment = [(content "x", [note_span; note_fragment])] /\
   spec_nearest_verse [note_span; note_fragment] = None /\
   Chapter_init (page_world note_fragment) "GEN" 1 1 = ([], Raise AttributeError)).
Proof. repeat split; reflexivity. Qed.

Lemma C4_no_verse_ancestor_raises_witness :
  (exists e, snd (leaf_verse (content "x", [note_span; note_fragment])) = Raise e) /\
  (forall el t,
     lacks_class note_span = false ->
     find lacks_class [note_fragment] = Some el -> text el = Some t ->
     fst (leaf_verse (content "x", [note_span; note_fragment])) =
       if String.eqb (Str.strip t) "" then [] else [PrintTag t (attrib el)]) /\
  (exists t e, extract note_fragment = (t, Raise e)) /\
  (exists t e, Chapter_init (page_world note_fragment) "GEN" 1 1 = (t, Raise e)).
Proof.
  apply (C4_no_verse_ancestor_raises (page_world note_fragment) "GEN" 1 1
           {| status_code := 200; res_text := [];
              res_json := Raise (LibraryError "JSONDecodeError") |}
           [] [] note_fragment (content "x") note_span [note_fragment]).
  - reflexivity.
  - reflexivity.
  - reflexivity.
  - reflexivity.
  - left. reflexivity.
  - intros c H. apply Ok_inj in H. subst c. vm_compute. lia.
  - repeat constructor.
Defined.

(** C5, as stated, fails: with the chapters of the only book out of reach,
    [writeFile] has written the header and the opening [BIBLEBOOK] line of
    that book when the failure reaches it. *)
Lemma C5_counterexample :
  Bible_init offline_world 1 = ([], Ok sample_bible) /\
  snd (Chapter_init offline_world "GEN" 1 1) = Raise (LibraryError "ConnectionError") /\
  snd (writeFile (steady offline_world) O sample_bible)
    = Raise (LibraryError "ConnectionError") /\
  file_writes (fst (writeFile (steady offline_world) O sample_bible)) =
    [header offline_world sample_bible; biblebook_line 1 sample_book].
Proof. repeat split; reflexivity. Qed.

Lemma C5_chapter_failure_aborts_the_book_witness :
  Bible_init (failing_run O) 1 = ([], Ok two_book_bible) /\
  exists e',
    snd (get_async_chapters (failing_run 2%nat) sample_book) = Raise e' /\
    snd (writeFile failing_run O two_book_bible) = Raise e' /\
    file_writes (fst (writeFile failing_run O two_book_bible)) =
      header (failing_run O) two_book_bible
      :: (biblebook_line 1 sample_book
          :: render_chapters [(1, numbered_chapter 1); (2, numbered_chapter 2)]
          ++ [biblebook_end_line])
      ++ [biblebook_line 2 exodus_book].
Proof.
  split; [reflexivity|].
  apply (C5_chapter_failure_aborts_the_book failing_run O two_book_bible
           [sample_book] exodus_book []
           (fst (write_books failing_run 1%nat two_book_bible 1 [sample_book]))
           (snd (get_book two_book_bible (KBook sample_book)))
           sample_book 1 (LibraryError "ConnectionError")).
  - reflexivity.
  - reflexivity.
  - reflexivity.
  - reflexivity.
  - apply Permutation_refl.
  - left. reflexivity.
  - reflexivity.
Defined.

(** C6, as stated, fails: indexing verse 3 of the parsed sample chapter, to
    which no span was given, adds the key 3. *)
Lemma C6_counterexample :
  Chapter_init (page_world genesis_fragment) "GEN" 1 1 = ([], Ok genesis_chapter) /\
  Chapter_iter genesis_chapter = [1; 2] /\
  fst (Chapter_getitem genesis_chapter 3) = EmptyString /\
  Chapter_iter (snd (Chapter_getitem genesis_chapter 3)) = [1; 2; 3] /\
  Chapter_iter (snd (get_verse genesis_chapter (Some 3))) = [1; 2; 3] /\
  map assigned (xpath_content [] genesis_fragment) = [Some 1; Some 1; Some 2].
Proof. repeat split; reflexivity. Qed.

Lemma C6_keys_after_parsing_and_reading_witness :
  (forall k, In k (Chapter_iter genesis_chapter) <->
             exists i, In i (xpath_content [] genesis_fragment) /\ assigned i = Some k) /\
  Chapter_len genesis_chapter = 2%nat /\
  get_verse genesis_chapter None = (inl (verses genesis_chapter), genesis_chapter) /\
  (forall k, In k (Chapter_iter genesis_chapter) ->
     Chapter_getitem genesis_chapter k
       = (verse_text (verses genesis_chapter) k, genesis_chapter) /\
     get_verse genesis_chapter (Some k)
       = (inr (verse_text (verses genesis_chapter) k), genesis_chapter)) /\
  (forall k, ~ In k (Chapter_iter genesis_chapter) ->
     Chapter_getitem genesis_chapter k
       = (EmptyString,
          set_verses genesis_chapter (verses genesis_chapter ++ [(k, EmptyString)])) /\
     get_verse genesis_chapter (Some k)
       = (inr EmptyString,
          set_verses genesis_chapter (verses genesis_chapter ++ [(k, EmptyString)]))).
Proof.
  apply (C6_keys_after_parsing_and_reading genesis_fragment []
           (verses genesis_chapter) (Some 2) genesis_chapter); reflexivity.
Defined.

(** C7, as stated, fails: the text made of the one character U+00E9 holds no
    escape, and its UTF-8 bytes read back as UTF-8 are that character, yet
    [decodeHtml] returns the two characters U+00C3 U+00A9. *)
Lemma C7_counterexample :
  Codec.utf8_encode [233%N] = Ok [195%N; 169%N] /\
  spec_utf8_decode [195%N; 169%N] = Some [233%N] /\
  decodeHtml offline_world [233%N] = Ok [195%N; 169%N] /\
  decodeHtml offline_world [233%N] <> Ok [233%N].
Proof. repeat split; try reflexivity. discriminate. Qed.

Lemma C7_decodeHtml_decodes_unicode_escape_of_utf8_witness :
  decodeHtml offline_world (Codec.points "<span>") = Ok (Codec.points "<span>") /\
  decodeHtml offline_world
    (Codec.points "caf" ++ 92%N :: 117%N :: Codec.points "00e9" ++ Codec.points "!")
    = Ok (Codec.points "caf" ++ [233%N] ++ Codec.points "!") /\
  decodeHtml offline_world (Codec.points "a\n" ++ 92%N :: 120%N :: Codec.points "4g")
    = Raise (UnicodeDecodeError "truncated \xXX escape").
Proof.
  split; [|split].
  - apply (proj1 (proj2 (C7_decodeHtml_decodes_unicode_escape_of_utf8 offline_world))).
    + repeat constructor.
    + repeat (constructor; [discriminate|]). constructor.
  - destruct (proj2 (proj2 (proj2
                (C7_decodeHtml_decodes_unicode_escape_of_utf8 offline_world)))
                (Codec.points "caf") (Codec.points "caf") eq_refl)
      as (_ & _ & Hhex & _).
    apply (Hhex 117%N 4%nat "truncated \uXXXX escape" (Codec.points "00e9")
             233%N (Codec.points "!")).
    + right. left. reflexivity.
    + reflexivity.
    + reflexivity.
    + vm_compute. discriminate.
  - destruct (proj2 (proj2 (proj2
                (C7_decodeHtml_decodes_unicode_escape_of_utf8 offline_world)))
                (Codec.points "a\n") [97%N; 10%N] eq_refl)
      as (_ & _ & _ & _ & _ & _ & _ & Htruncated).
    apply (Htruncated 120%N 2%nat "truncated \xXX escape" (Codec.points "4g")
             (Codec.points "4g")).
    + left. reflexivity.
    + reflexivity.
    + reflexivity.
Defined.

(** C10, as stated, fails for a version without books: there is no first
    book, and [get_book] raises [IndexError]. *)
Lemma C10_counterexample :
  Bible_init bookless_world 2 = ([], Ok bookless_bible) /\
  (forall b, In b (books bookless_bible) -> book_id b <> "GEN") /\
  fst (get_book bookless_bible (KStr "GEN")) = Raise IndexError /\
  fst (Bible_getitem bookless_bible (KStr "GEN")) = Raise IndexError.
Proof. repeat split; try reflexivity. intros b []. Qed.

Lemma C10_unknown_code_gives_first_book_witness :
  fst (get_book (lookups sample_bible [KBook sample_book]) (KStr "EXO")) = Ok sample_book /\
  fst (Bible_getitem (lookups sample_bible [KBook sample_book]) (KStr "EXO")) = Ok sample_book.
Proof.
  apply (C10_unknown_code_gives_first_book offline_world 1 [] sample_bible
           [KBook sample_book] "EXO" sample_book []).
  - reflexivity.
  - reflexivity.
  - intros b [<-|[]]. discriminate.
Defined.

(** * Further properties of the code *)

(** ** The catalogue: Bible.__init__ and get_book *)

Lemma Bible_init_books_fold (w : World) (id : Z) (data : list book_json) :
  forall idx hm bs, idx = List.length bs ->
  Bible_init_books w id data idx (hm, bs) =
    ret (fold_left (catalogue_step id) data (hm, bs)).
Proof.
  induction data as [|i rest IH]; intros idx hm bs Hidx; [reflexivity|].
  cbn [Bible_init_books fold_left]. rewrite Book_init_given, bind_ret.
  cbn [fst snd]. rewrite IH by (rewrite length_app; simpl; lia).
  unfold catalogue_step at 2, catalogue_book. cbn [fst snd].
  rewrite (replace_char_remove "."). subst idx. reflexivity.
Qed.

Lemma catalogue_fold_books (id : Z) (data : list book_json) : forall hm bs,
  snd (fold_left (catalogue_step id) data (hm, bs)) =
    bs ++ map (catalogue_book id) data.
Proof.
  induction data as [|i rest IH]; intros hm bs; cbn [fold_left map].
  - rewrite app_nil_r. reflexivity.
  - unfold catalogue_step at 2. cbn [fst snd]. rewrite IH, <- app_assoc.
    reflexivity.
Qed.

Lemma Bible_init_run (w : World) (id : Z) (res : response) (data : version_json) :
  http_get w (version_url id) = Ok res ->
  res_json res = Ok data ->
  Bible_init w id =
    (status_print res (version_url id),
     Ok {| bible_id := id;
           bible_name := local_title data;
           bible_abrev := local_abbreviation data;
           bible_author := publisher_name data;
           bible_lang := language_iso_639_3 data;
           bible_description := copyright_short_text data;
           hashMap := fst (fold_left (catalogue_step id) (books_json data) ([], []));
           books := map (catalogue_book id) (books_json data) |}).
Proof.
  intros Hget Hjson. unfold Bible_init, getResponse, status_print.
  rewrite Hget. cbn [lift bind].
  pose proof (catalogue_fold_books id (books_json data) [] []) as Hb.
  destruct (status_code res =? 200); cbn [bind ret emit app];
    rewrite Hjson; cbn [lift bind app];
    rewrite (Bible_init_books_fold w id (books_json data) O [] [] eq_refl);
    destruct (fold_left (catalogue_step id) (books_json data) ([], []))
      as [hm bs]; cbn [snd app] in Hb; subst bs; reflexivity.
Qed.

Lemma Bible_init_inv (w : World) (id : Z) (t : list event) (bible : Bible) :
  Bible_init w id = (t, Ok bible) ->
  exists res data,
    http_get w (version_url id) = Ok res /\ res_json res = Ok data /\
    t = status_print res (version_url id) /\
    hashMap bible = fst (fold_left (catalogue_step id) (books_json data) ([], [])) /\
    books bible = snd (fold_left (catalogue_step id) (books_json data) ([], [])).
Proof.
  intros H.
  destruct (http_get w (version_url id)) as [res|e] eqn:Hget.
  - destruct (res_json res) as [data|e] eqn:Hjson.
    + rewrite (Bible_init_run w id res data Hget Hjson) in H.
      exists res, data. inversion H; subst. cbn [hashMap books].
      rewrite catalogue_fold_books. auto.
    + exfalso. unfold Bible_init, getResponse in H. rewrite Hget in H.
      cbn [lift bind] in H.
      destruct (status_code res =? 200); cbn [bind ret emit app] in H;
        rewrite Hjson in H; discriminate.
  - exfalso. unfold Bible_init, getResponse in H. rewrite Hget in H.
    discriminate.
Qed.

Lemma hashMap_exact_step (id : Z) (hm : list (key * nat)) (bs : list Book)
  (i : book_json) :
  hashMap_exact hm bs ->
  hashMap_exact (fst (catalogue_step id (hm, bs) i))
                (snd (catalogue_step id (hm, bs) i)).
Proof.
  intros [Hstr Hbook]. unfold catalogue_step. cbn [fst snd]. split.
  - intros code. destruct (String.eqb code (usfm i)) eqn:E.
    + apply String.eqb_eq in E. subst code.
      rewrite (dict_get_set_same key_eqb key_eqb_eq).
      exists (catalogue_book id i). split; [|split].
      * rewrite nth_error_app2, Nat.sub_diag by lia. reflexivity.
      * reflexivity.
      * intros m b' Hm Hn. exfalso.
        assert (Hlt : (m < List.length (bs ++ [catalogue_book id i]))%nat)
          by (apply nth_error_Some; congruence).
        rewrite length_app in Hlt. simpl in Hlt. lia.
    + assert (Hne : KStr code <> KStr (usfm i)).
      { intros Heq. inversion Heq; subst. rewrite String.eqb_refl in E.
        discriminate. }
      rewrite (dict_get_set_other key_eqb key_eqb_eq) by exact Hne.
      specialize (Hstr code).
      destruct (dict_get key_eqb (KStr code) hm) as [idx|].
      * destruct Hstr as (b & Hn & Hid & Hlast). exists b.
        assert (Hlt : (idx < List.length bs)%nat)
          by (apply nth_error_Some; congruence).
        split; [rewrite nth_error_app1 by exact Hlt; exact Hn|].
        split; [exact Hid|]. intros m b' Hm Hn'.
        destruct (Nat.lt_ge_cases m (List.length bs)) as [Hin|Hout].
        -- rewrite nth_error_app1 in Hn' by exact Hin. apply (Hlast m b' Hm Hn').
        -- rewrite nth_error_app2 in Hn' by exact Hout.
           destruct (m - List.length bs)%nat as [|d]; simpl in Hn'.
           ++ inversion Hn'; subst. cbn [catalogue_book book_id].
              intros Heq. rewrite Heq, String.eqb_refl in E. discriminate.
           ++ destruct d; discriminate.
      * intros b Hin. apply in_app_or in Hin. destruct Hin as [Hin|[<-|[]]].
        -- apply (Hstr b Hin).
        -- cbn [catalogue_book book_id]. intros Heq.
           rewrite Heq, String.eqb_refl in E. discriminate.
  - intros b. rewrite (dict_get_set_other key_eqb key_eqb_eq) by discriminate.
    apply Hbook.
Qed.

Lemma hashMap_exact_fold (id : Z) (data : list book_json) : forall hm bs,
  hashMap_exact hm bs ->
  hashMap_exact (fst (fold_left (catalogue_step id) data (hm, bs)))
                (snd (fold_left (catalogue_step id) data (hm, bs))).
Proof.
  induction data as [|i rest IH]; intros hm bs H; [exact H|].
  cbn [fold_left].
  pose proof (hashMap_exact_step id hm bs i H) as Hs.
  destruct (catalogue_step id (hm, bs) i) as [hm' bs']. apply IH. exact Hs.
Qed.

Lemma Bible_init_exact (w : World) (id : Z) (t : list event) (bible : Bible) :
  Bible_init w id = (t, Ok bible) -> hashMap_exact (hashMap bible) (books bible).
Proof.
  intros H. destruct (Bible_init_inv _ _ _ _ H) as (res & data & _ & _ & _ & -> & ->).
  apply hashMap_exact_fold. split.
  - intros code b [].
  - reflexivity.
Qed.

(** A lookup changes nothing that a later lookup sees. *)
Lemma get_book_after (self : Bible) (k k' : key) :
  fst (get_book (snd (get_book self k)) k') = fst (get_book self k') /\
  books (snd (get_book self k)) = books self.
Proof.
  unfold get_book, defaultdict_getitem.
  destruct (dict_get key_eqb k (hashMap self)) as [idx|] eqn:Ek;
    cbn [snd set_hashMap hashMap books]; [split; reflexivity|].
  split; [|reflexivity].
  destruct (key_eqb k' k) eqn:E.
  - apply key_eqb_eq in E. subst k'.
    rewrite (dict_get_set_same key_eqb key_eqb_eq), Ek. reflexivity.
  - assert (Hne : k' <> k).
    { intros ->. destruct (key_eqb_eq k k) as [_ Hr].
      rewrite (Hr eq_refl) in E. discriminate. }
    rewrite (dict_get_set_other key_eqb key_eqb_eq) by exact Hne.
    destruct (dict_get key_eqb k' (hashMap self)); reflexivity.
Qed.

Lemma lookups_after (ks : list key) : forall (self : Bible) (k : key),
  fst (get_book (lookups self ks) k) = fst (get_book self k) /\
  books (lookups self ks) = books self.
Proof.
  unfold lookups. induction ks as [|k0 ks IH]; intros self k; [auto|].
  cbn [fold_left]. destruct (IH (snd (get_book self k0)) k) as [-> ->].
  apply get_book_after.
Qed.

(** X1.  Once the metadata of a version is fetched and parsed,
    [Bible.__init__] cannot fail, whatever the status of the response: it
    prints the URL when the status is not 200 and nothing otherwise, copies
    the five descriptive fields, and makes the books in the order of the
    metadata, each with its USFM code, its long name, its abbreviation
    without the dots and the number of its canonical chapters; [len(bible)]
    is the number of books listed. *)
Theorem X1_Bible_init_builds_the_catalogue
  (w : World) (id : Z) (res : response) (data : version_json) :
  http_get w (version_url id) = Ok res ->
  res_json res = Ok data ->
  exists bible,
    Bible_init w id = (status_print res (version_url id), Ok bible) /\
    bible_id bible = id /\
    bible_name bible = local_title data /\
    bible_abrev bible = local_abbreviation data /\
    bible_author bible = publisher_name data /\
    bible_lang bible = language_iso_639_3 data /\
    bible_description bible = copyright_short_text data /\
    Bible_iter bible = map (catalogue_book id) (books_json data) /\
    Bible_len bible = List.length (books_json data).
Proof.
  intros Hget Hjson. eexists. split; [apply (Bible_init_run w id res data Hget Hjson)|].
  unfold Bible_iter, Bible_len. cbn [bible_id bible_name bible_abrev bible_author
    bible_lang bible_description books].
  rewrite length_map. repeat split; reflexivity.
Qed.

(** X2.  In a Bible built by [Bible.__init__], after any earlier lookups,
    [get_book] with the USFM code of a book returns that very book, provided
    no later book of the list has the same code (when two books share a
    code, the last one is returned). *)
Theorem X2_get_book_finds_the_book_of_a_code
  (w : World) (id : Z) (t : list event) (bible : Bible) (ks : list key)
  (n : nat) (b : Book) :
  Bible_init w id = (t, Ok bible) ->
  nth_error (books bible) n = Some b ->
  (forall m b', (n < m)%nat -> nth_error (books bible) m = Some b' ->
                book_id b' <> book_id b) ->
  fst (get_book (lookups bible ks) (KStr (book_id b))) = Ok b.
Proof.
  intros Hinit Hn Hlast.
  destruct (lookups_after ks bible (KStr (book_id b))) as [-> _].
  destruct (Bible_init_exact _ _ _ _ Hinit) as [Hstr _].
  specialize (Hstr (book_id b)).
  unfold get_book, defaultdict_getitem.
  destruct (dict_get key_eqb (KStr (book_id b)) (hashMap bible)) as [idx|].
  - destruct Hstr as (b0 & Hn0 & Hid & Hlast0). cbn [fst].
    destruct (Nat.lt_trichotomy idx n) as [Hlt|[->|Hgt]].
    + exfalso. apply (Hlast0 n b Hlt Hn). reflexivity.
    + unfold list_getitem. rewrite Hn. reflexivity.
    + exfalso. apply (Hlast idx b0 Hgt Hn0). exact Hid.
  - exfalso. apply (Hstr b); [|reflexivity]. apply (nth_error_In _ n). exact Hn.
Qed.

(** X3.  In a Bible built by [Bible.__init__], after any earlier lookups,
    indexing with a [Book] object instead of a code, as [writeFile] does with
    [bible[book]], gives the first book of the list whichever book is passed
    ([IndexError] when the list is empty). *)
Theorem X3_indexing_with_a_Book_gives_the_first_book
  (w : World) (id : Z) (t : list event) (bible : Bible) (ks : list key)
  (book : Book) :
  Bible_init w id = (t, Ok bible) ->
  fst (Bible_getitem (lookups bible ks) (KBook book)) = list_getitem (books bible) 0.
Proof.
  intros Hinit. unfold Bible_getitem.
  destruct (lookups_after ks bible (KBook book)) as [-> _].
  destruct (Bible_init_exact _ _ _ _ Hinit) as [_ Hbook].
  unfold get_book, defaultdict_getitem. rewrite (Hbook book). reflexivity.
Qed.

(** X4.  Looking a key up never changes the list of books nor what any later
    lookup returns, although a key that is missing is added to the map: the
    result of [get_book] does not depend on the lookups made before. *)
Theorem X4_lookups_do_not_change_later_results
  (self : Bible) (ks : list key) (k : key) :
  fst (get_book (lookups self ks) k) = fst (get_book self k) /\
  Bible_iter (lookups self ks) = Bible_iter self /\
  Bible_len (lookups self ks) = Bible_len self.
Proof.
  destruct (lookups_after ks self k) as [H1 H2].
  unfold Bible_iter, Bible_len. rewrite H2. auto.
Qed.

(** ** The selection of the spans *)

Lemma element_induction (P : element -> Prop) :
  (forall t a x cs, Forall P cs -> P (Element t a x cs)) -> forall e, P e.
Proof.
  intros H.
  exact (fix IH (e : element) : P e :=
           match e with
           | Element t a x cs =>
               H t a x cs
                 ((fix go (l : list element) : Forall P l :=
                     match l with
                     | [] => Forall_nil P
                     | c :: l' => Forall_cons c (IH c) (go l')
                     end) cs)
           end).
Qed.

Lemma xpath_content_unfold (up : list element) (e : element) :
  xpath_content up e =
    match up with
    | p :: _ => if is_span p && is_span e && has_class e "content"
                then [(e, up)] else []
    | [] => []
    end ++ flat_map (xpath_content (e :: up)) (children e).
Proof.
  destruct e as [t a x cs]. cbn [xpath_content children]. f_equal.
Qed.

Lemma located_extend (r c e : element) (pre : list element) :
  located c e pre -> In c (children r) -> located r e (pre ++ [r]).
Proof.
  intros Hloc Hin. induction Hloc as [|e anc c' _ IH Hc'].
  - apply (located_child r r [] c); [apply located_root|exact Hin].
  - cbn [app]. apply located_child; assumption.
Qed.

Lemma xpath_content_sound (r : element) : forall up e anc,
  In (e, anc) (xpath_content up r) ->
  is_span e = true /\ has_class e "content" = true /\
  (exists p rest, anc = p :: rest /\ is_span p = true) /\
  exists pre, anc = pre ++ up /\ located r e pre.
Proof.
  induction r as [t a x cs IH] using element_induction.
  intros up e anc Hin. rewrite xpath_content_unfold in Hin.
  apply in_app_or in Hin. destruct Hin as [Hin|Hin].
  - destruct up as [|p up']; [destruct Hin|].
    destruct (is_span p && is_span (Element t a x cs)
              && has_class (Element t a x cs) "content") eqn:E;
      [|destruct Hin].
    destruct Hin as [Heq|[]]. inversion Heq; subst.
    apply andb_true_iff in E. destruct E as [E Hc].
    apply andb_true_iff in E. destruct E as [Hp He].
    split; [exact He|]. split; [exact Hc|].
    split; [exists p, up'; auto|]. exists []. split; [reflexivity|].
    apply located_root.
  - cbn [children] in Hin. apply in_flat_map in Hin.
    destruct Hin as (c & Hc & Hin).
    rewrite Forall_forall in IH.
    destruct (IH c Hc _ _ _ Hin) as (He & Hcl & Hp & pre & Hanc & Hloc).
    split; [exact He|]. split; [exact Hcl|]. split; [exact Hp|].
    exists (pre ++ [Element t a x cs]). split.
    + rewrite <- app_assoc. exact Hanc.
    + apply (located_extend _ c); [exact Hloc|exact Hc].
Qed.

Lemma xpath_content_below (root e : element) (anc : list element) :
  located root e anc ->
  forall up, incl (xpath_content (anc ++ up) e) (xpath_content up root).
Proof.
  induction 1 as [|e anc c _ IH Hc]; intros up i Hi; [exact Hi|].
  apply IH. rewrite xpath_content_unfold. apply in_or_app. right.
  apply in_flat_map. exists c. split; [exact Hc|exact Hi].
Qed.

(** X5.  The spans the loop of [Chapter.__init__] runs over are exactly the
    elements of the document that are [span]s whose class attribute is
    [content], no more and no less, and whose parent is a [span]; each comes
    with its own ancestors, the nearest first. *)
Theorem X5_selected_spans_are_the_content_spans_under_a_span
  (root e : element) (anc : list element) :
  In (e, anc) (xpath_content [] root) <->
  located root e anc /\ is_span e = true /\ has_class e "content" = true /\
  exists p rest, anc = p :: rest /\ is_span p = true.
Proof.
  split.
  - intros Hin.
    destruct (xpath_content_sound root [] e anc Hin)
      as (He & Hc & Hp & pre & Hanc & Hloc).
    rewrite app_nil_r in Hanc. subst pre. auto.
  - intros (Hloc & He & Hc & p & rest & -> & Hp).
    apply (xpath_content_below root e (p :: rest) Hloc []).
    rewrite app_nil_r, xpath_content_unfold. apply in_or_app. left.
    rewrite Hp, He, Hc. left. reflexivity.
Qed.

(** ** What a successful extraction leaves *)

Lemma string_app_assoc (a b c : string) :
  ((a ++ b) ++ c)%string = (a ++ (b ++ c))%string.
Proof. induction a as [|x a IH]; simpl; [reflexivity|]. rewrite IH. reflexivity. Qed.

Lemma string_app_nil_r (a : string) : (a ++ "")%string = a.
Proof. induction a as [|x a IH]; simpl; [reflexivity|]. rewrite IH. reflexivity. Qed.

Lemma walk_ok_silent (up : list element) : forall el t q,
  findVerseParent_walk el up = (t, Ok q) -> t = [].
Proof.
  assert (Hex : forall (o : option element) e t q,
             @findVerseParent_except node o e = (t, Ok q) -> False).
  { intros [el|] e t q; [|discriminate]. unfold findVerseParent_except.
    destruct (text el) as [x|]; [|discriminate].
    destruct (String.eqb (Str.strip x) ""); discriminate. }
  induction up as [|p up IH]; intros el t q; rewrite walk_unfold;
    destruct (attrib_class el) as [c|e]; try (intros H; exfalso; exact (Hex _ _ _ _ H));
    destruct (Str.startswith c "verse v");
    try (intros H; inversion H; reflexivity);
    try (intros H; exfalso; exact (Hex _ _ _ _ H)).
  apply IH.
Qed.

Lemma leaf_verse_ok_silent (i : node) (t : list event) (v : Z) :
  leaf_verse i = (t, Ok v) -> t = [].
Proof.
  unfold leaf_verse. intros H.
  apply bind_ok in H. destruct H as (t1 & [q n] & t2 & Hp & Hc & ->).
  assert (Ht2 : t2 = []).
  { unfold class_verse in Hc.
    apply bind_ok in Hc. destruct Hc as (t3 & c & t4 & Hl & Hr & ->).
    apply lift_inv in Hl. destruct Hl as [_ ->].
    destruct (2 <? n)%nat; apply lift_inv in Hr; destruct Hr as [_ ->];
      reflexivity. }
  assert (Ht1 : t1 = []).
  { unfold verse_parent in Hp.
    destruct (getparent i) as [parent|]; [|discriminate].
    apply bind_ok in Hp. destruct Hp as (t3 & c & t4 & Hl & Hr & ->).
    apply lift_inv in Hl. destruct Hl as [_ ->].
    destruct (Str.count c "v" <? 2)%nat.
    - apply bind_ok in Hr. destruct Hr as (t5 & q' & t6 & Hw & Hr & ->).
      apply walk_ok_silent in Hw. subst t5.
      apply bind_ok in Hr. destruct Hr as (t7 & c' & t8 & Hl & Hr & ->).
      apply lift_inv in Hl. destruct Hl as [_ ->].
      unfold ret in Hr. inversion Hr. reflexivity.
    - unfold ret in Hr. inversion Hr. reflexivity. }
  subst. reflexivity.
Qed.

Lemma foldM_loop_silent (l : list node) : forall st t st',
  foldM loop_body l st = (t, Ok st') -> t = [].
Proof.
  induction l as [|a l IH]; intros [vs last] t st' H; simpl in H.
  - inversion H. reflexivity.
  - apply bind_ok in H. destruct H as (t1 & [vs1 l1] & t2 & Ha & Hk & ->).
    destruct (loop_body_inv _ _ _ _ _ Ha) as (N & x & Hv & _).
    apply leaf_verse_ok_silent in Hv. apply IH in Hk. subst. reflexivity.
Qed.

Lemma Chapter_init_inv (w : World) (book : string) (chapter bible : Z)
  (t : list event) (c : Chapter) :
  Chapter_init w book chapter bible = (t, Ok c) ->
  exists res found html etree st,
    http_get w (chapter_url book chapter bible) = Ok res /\
    pattern_search w (res_text res) = Some found /\
    decodeHtml w (Str.drop_last (skipn 11 found)) = Ok html /\
    html_fromstring w html = Ok etree /\
    extract etree = ([], Ok st) /\
    t = status_print res (chapter_url book chapter bible) /\
    c = {| chapter_book := book; chapter_number := chapter;
           chapter_bible := bible; verses := fst st |}.
Proof.
  intros H.
  destruct (http_get w (chapter_url book chapter bible)) as [res|e] eqn:Hget;
    [|unfold Chapter_init, getResponse in H; rewrite Hget in H; discriminate].
  destruct (pattern_search w (res_text res)) as [found|] eqn:Hs.
  2:{ exfalso. unfold Chapter_init, getResponse in H. rewrite Hget in H.
      cbn [lift bind] in H.
      destruct (status_code res =? 200); cbn [bind ret emit app] in H;
        rewrite Hs in H; discriminate. }
  destruct (decodeHtml w (Str.drop_last (skipn 11 found))) as [html|e] eqn:Hd.
  2:{ exfalso. unfold Chapter_init, getResponse in H. rewrite Hget in H.
      cbn [lift bind] in H.
      destruct (status_code res =? 200); cbn [bind ret emit app] in H;
        rewrite Hs, Hd in H; discriminate. }
  destruct (html_fromstring w html) as [etree|e] eqn:Hp.
  2:{ exfalso. unfold Chapter_init, getResponse in H. rewrite Hget in H.
      cbn [lift bind] in H.
      destruct (status_code res =? 200); cbn [bind ret emit app] in H;
        rewrite Hs, Hd in H; cbn [lift on_error bind app] in H;
        rewrite Hp in H; discriminate. }
  rewrite (Chapter_init_of_tree _ _ _ _ _ _ _ _ Hget Hs Hd Hp) in H.
  destruct (extract etree) as [te [st|e]] eqn:He; cbn [fst snd] in H;
    [|discriminate].
  pose proof (foldM_loop_silent _ _ _ _ He) as ->.
  exists res, found, html, etree, st. inversion H; subst.
  unfold status_print. rewrite app_nil_r. auto 10.
Qed.

(** X6.  A [Chapter] that is built has printed nothing but, when the status
    of the response was not 200, the URL of the page: the prints of the
    extractor belong to failures only.  It carries the book code, the number
    and the version id it was asked for. *)
Theorem X6_a_built_Chapter_printed_only_the_status
  (w : World) (book : string) (chapter bible : Z) (t : list event) (c : Chapter) :
  Chapter_init w book chapter bible = (t, Ok c) ->
  (exists res, http_get w (chapter_url book chapter bible) = Ok res /\
               t = status_print res (chapter_url book chapter bible)) /\
  chapter_book c = book /\ chapter_number c = chapter /\ chapter_bible c = bible.
Proof.
  intros H.
  destruct (Chapter_init_inv _ _ _ _ _ _ H)
    as (res & found & html & etree & st & Hget & _ & _ & _ & _ & -> & ->).
  split; [exists res; auto|]. auto.
Qed.

Lemma loop_body_text vs last i tr vs1 last1 :
  loop_body (vs, last) i = (tr, Ok (vs1, last1)) ->
  exists N t,
    assigned i = Some N /\ text (fst i) = Some t /\ last1 = Some N /\
    (forall k, verse_text vs1 k =
       (verse_text vs k ++
        (if Z.eqb N k
         then if same_verse last k then " " ++ Str.strip t else Str.strip t
         else ""))%string).
Proof.
  intros H. pose proof (loop_body_inv _ _ _ _ _ H) as (N & t & Hv & Ht & _ & Ha).
  rewrite (loop_body_run vs last i tr N t Hv Ht) in H.
  inversion H; subst. exists N, t. repeat split; auto.
  intros k. unfold verse_text at 1. destruct (Z.eqb N k) eqn:E.
  - apply Z.eqb_eq in E. subst k.
    rewrite (dict_get_set_same Z.eqb Z.eqb_eq). reflexivity.
  - apply Z.eqb_neq in E.
    rewrite (dict_get_set_other Z.eqb Z.eqb_eq) by congruence.
    rewrite string_app_nil_r. unfold defaultdict_getitem, verse_text.
    destruct (dict_get Z.eqb N vs); cbn [snd]; [reflexivity|].
    rewrite (dict_get_set_other Z.eqb Z.eqb_eq) by congruence. reflexivity.
Qed.

Lemma foldM_loop_text (l : list node) : forall vs last tr vs' last',
  foldM loop_body l (vs, last) = (tr, Ok (vs', last')) ->
  forall k, verse_text vs' k = (verse_text vs k ++ verse_pieces l last k)%string.
Proof.
  induction l as [|a l IH]; intros vs last tr vs' last' H k; simpl in H.
  - inversion H; subst. cbn [verse_pieces]. rewrite string_app_nil_r.
    reflexivity.
  - apply bind_ok in H. destruct H as (t1 & [vs1 l1] & t2 & Ha & Hk & ->).
    destruct (loop_body_text _ _ _ _ _ _ Ha) as (N & t & HN & Ht & -> & Hstep).
    rewrite (IH _ _ _ _ _ Hk k), Hstep. cbn [verse_pieces].
    rewrite HN, Ht. apply string_app_assoc.
Qed.

(** X7.  After a successful extraction the text of every verse is made of the
    trimmed texts of the spans given that verse, all of them, once each and in
    scan order, a span being preceded by one space when the span scanned just
    before it was given the same verse; a verse no span was given has the
    empty text.  So no text of a selected span is dropped, repeated or put
    under another verse. *)
Theorem X7_verse_text_is_the_texts_of_its_spans
  (etree : element) (t : list event) (vs : list (Z * string)) (last : option Z)
  (k : Z) :
  extract etree = (t, Ok (vs, last)) ->
  verse_text vs k = verse_pieces (xpath_content [] etree) None k.
Proof.
  unfold extract. intros H.
  rewrite (foldM_loop_text _ _ _ _ _ _ H k). reflexivity.
Qed.

Lemma existsb_eqb_In (v : Z) (seen : list Z) :
  existsb (Z.eqb v) seen = true <-> In v seen.
Proof.
  rewrite existsb_exists. split.
  - intros (x & Hx & E). apply Z.eqb_eq in E. subst. exact Hx.
  - intros H. exists v. split; [exact H|apply Z.eqb_refl].
Qed.

Lemma first_seen_ext (l : list Z) : forall s1 s2,
  (forall x, In x s1 <-> In x s2) -> first_seen s1 l = first_seen s2 l.
Proof.
  induction l as [|v l IH]; intros s1 s2 H; [reflexivity|].
  cbn [first_seen].
  assert (E : existsb (Z.eqb v) s1 = existsb (Z.eqb v) s2).
  { destruct (existsb (Z.eqb v) s1) eqn:E1; symmetry.
    - apply existsb_eqb_In. apply H. apply existsb_eqb_In. exact E1.
    - destruct (existsb (Z.eqb v) s2) eqn:E2; [|reflexivity].
      apply existsb_eqb_In in E2. apply H in E2. apply existsb_eqb_In in E2.
      congruence. }
  rewrite E. destruct (existsb (Z.eqb v) s2).
  - apply IH. exact H.
  - f_equal. apply IH. intros x. simpl. rewrite H. tauto.
Qed.

Lemma loop_body_key_order vs last i tr vs1 last1 :
  loop_body (vs, last) i = (tr, Ok (vs1, last1)) ->
  exists N, assigned i = Some N /\
    dict_keys vs1 =
      if existsb (Z.eqb N) (dict_keys vs) then dict_keys vs
      else dict_keys vs ++ [N].
Proof.
  intros H. pose proof (loop_body_inv _ _ _ _ _ H) as (N & t & Hv & Ht & _ & Ha).
  rewrite (loop_body_run vs last i tr N t Hv Ht) in H.
  inversion H; subst. exists N. split; [exact Ha|].
  unfold defaultdict_getitem.
  destruct (dict_get Z.eqb N vs) as [x|] eqn:E; cbn [snd].
  - assert (Hin : In N (dict_keys vs))
      by (apply (dict_get_in_keys Z.eqb Z.eqb_eq); congruence).
    apply existsb_eqb_In in Hin. rewrite Hin.
    apply (dict_set_keys_same Z.eqb). congruence.
  - assert (Hout : existsb (Z.eqb N) (dict_keys vs) = false).
    { destruct (existsb (Z.eqb N) (dict_keys vs)) eqn:E'; [|reflexivity].
      apply existsb_eqb_In in E'.
      apply (dict_get_in_keys Z.eqb Z.eqb_eq) in E'. congruence. }
    rewrite Hout.
    rewrite (dict_set_keys_same Z.eqb)
      by (rewrite (dict_get_set_same Z.eqb Z.eqb_eq); discriminate).
    rewrite (dict_set_absent Z.eqb _ _ _ E). unfold dict_keys.
    rewrite map_app. reflexivity.
Qed.

Lemma foldM_loop_key_order (l : list node) : forall vs last tr vs' last',
  foldM loop_body l (vs, last) = (tr, Ok (vs', last')) ->
  dict_keys vs' = dict_keys vs ++ first_seen (dict_keys vs) (assigned_all l).
Proof.
  induction l as [|a l IH]; intros vs last tr vs' last' H; simpl in H.
  - inversion H; subst. cbn. rewrite app_nil_r. reflexivity.
  - apply bind_ok in H. destruct H as (t1 & [vs1 l1] & t2 & Ha & Hk & ->).
    destruct (loop_body_key_order _ _ _ _ _ _ Ha) as (N & HN & Hkeys).
    rewrite (IH _ _ _ _ _ Hk), Hkeys. unfold assigned_all. cbn [flat_map].
    rewrite HN. cbn [app first_seen].
    destruct (existsb (Z.eqb N) (dict_keys vs)); [reflexivity|].
    rewrite <- app_assoc. cbn [app]. do 2 f_equal.
    apply first_seen_ext. intros x. rewrite in_app_iff. simpl. tauto.
Qed.

Lemma first_seen_fresh (l : list Z) : forall seen,
  NoDup (first_seen seen l) /\
  forall x, In x (first_seen seen l) -> ~ In x seen.
Proof.
  induction l as [|v l IH]; intros seen; cbn [first_seen].
  - split; [constructor|intros x []].
  - destruct (existsb (Z.eqb v) seen) eqn:E; [apply IH|].
    destruct (IH (v :: seen)) as [Hnd Hfresh]. split.
    + constructor; [|exact Hnd]. intros Hin. apply (Hfresh v Hin). left.
      reflexivity.
    + intros x [<-|Hin].
      * intros Hs. apply existsb_eqb_In in Hs. congruence.
      * intros Hs. apply (Hfresh x Hin). right. exact Hs.
Qed.

(** X8.  After a successful extraction the keys of [verses], which is the
    order in which a [Chapter] is iterated and its verses are written, are
    the verse numbers given to the spans in the order in which each number
    first occurs in the scan, without repetition: the verses come in
    first-seen order, not in increasing order. *)
Theorem X8_verses_come_in_first_seen_order
  (etree : element) (t : list event) (vs : list (Z * string)) (last : option Z) :
  extract etree = (t, Ok (vs, last)) ->
  dict_keys vs = first_seen [] (assigned_all (xpath_content [] etree)) /\
  NoDup (dict_keys vs).
Proof.
  unfold extract. intros H.
  rewrite (foldM_loop_key_order _ _ _ _ _ _ H). cbn [dict_keys map app].
  split; [reflexivity|]. apply first_seen_fresh.
Qed.

Lemma loop_body_textless (i : node) :
  text (fst i) = None ->
  forall st, exists t e, loop_body st i = (t, Raise e).
Proof.
  intros Ht [vs last]. unfold loop_body.
  destruct (leaf_verse i) as [t [v|e]] eqn:Hv.
  - cbn [bind].
    destruct (defaultdict_getitem Z.eqb "" v vs) as [old vs'].
    unfold text_strip. rewrite Ht. cbn [lift bind].
    exists (t ++ []), AttributeError. reflexivity.
  - exists t, e. reflexivity.
Qed.

(** X9.  A selected span without text (an empty [span], or one that starts
    with a child element) makes the whole extraction raise, wherever it
    stands: no verse mapping comes out, whatever the other spans hold.  When
    the spans before it went through and its own verse number is found, the
    exception is the [AttributeError] of [None.strip()], and nothing is
    printed. *)
Theorem X9_a_span_without_text_fails_the_chapter
  (etree : element) (pre post : list node) (i : node) :
  xpath_content [] etree = pre ++ i :: post ->
  text (fst i) = None ->
  (exists t e, extract etree = (t, Raise e)) /\
  (forall tp st tv v,
     foldM loop_body pre ([], None) = (tp, Ok st) ->
     leaf_verse i = (tv, Ok v) ->
     extract etree = ([], Raise AttributeError)).
Proof.
  intros Hsel Ht. split.
  - unfold extract. apply (foldM_raises loop_body _ i).
    + rewrite Hsel. apply in_or_app. right. left. reflexivity.
    + apply loop_body_textless. exact Ht.
  - intros tp [vs last] tv v Hpre Hv. unfold extract. rewrite Hsel.
    rewrite (foldM_app _ _ _ _ _ _ Hpre).
    apply foldM_loop_silent in Hpre. apply leaf_verse_ok_silent in Hv as Htv.
    subst tp tv.
    assert (Hbody : loop_body (vs, last) i = ([], Raise AttributeError)).
    { unfold loop_body. rewrite Hv. cbn [bind].
      destruct (defaultdict_getitem Z.eqb "" v vs) as [old vs'].
      unfold text_strip. rewrite Ht. reflexivity. }
    cbn [foldM]. rewrite Hbody. reflexivity.
Qed.

(** ** The failures of Chapter.__init__ before the extraction *)

(** X10.  [Chapter.__init__] fails without building anything when the page
    cannot be fetched (the exception of the transport, nothing printed), when
    the page does not hold the [content] field ([TypeError], after printing
    [error] and the URL), when the field cannot be unescaped (the exception
    of [decodeHtml], after the same print), and when the markup cannot be
    parsed (the exception of the parser, without that print).  A status other
    than 200 is no failure by itself: it only has the URL printed first. *)
Theorem X10_Chapter_init_failures_before_extraction
  (w : World) (book : string) (chapter bible : Z) :
  let url := chapter_url book chapter bible in
  (forall e, http_get w url = Raise e ->
     Chapter_init w book chapter bible = ([], Raise e)) /\
  (forall res, http_get w url = Ok res ->
     pattern_search w (res_text res) = None ->
     Chapter_init w book chapter bible =
       (status_print res url ++ [PrintLine ("error " ++ url)%string],
        Raise TypeError)) /\
  (forall res found e, http_get w url = Ok res ->
     pattern_search w (res_text res) = Some found ->
     decodeHtml w (Str.drop_last (skipn 11 found)) = Raise e ->
     Chapter_init w book chapter bible =
       (status_print res url ++ [PrintLine ("error " ++ url)%string], Raise e)) /\
  (forall res found html e, http_get w url = Ok res ->
     pattern_search w (res_text res) = Some found ->
     decodeHtml w (Str.drop_last (skipn 11 found)) = Ok html ->
     html_fromstring w html = Raise e ->
     Chapter_init w book chapter bible = (status_print res url, Raise e)).
Proof.
  cbv zeta. unfold Chapter_init, getResponse, status_print.
  split; [intros e Hget; rewrite Hget; reflexivity|].
  split; [intros res Hget Hs; rewrite Hget; cbn [lift bind];
          destruct (status_code res =? 200); cbn [bind ret emit app];
          rewrite Hs; reflexivity|].
  split; [intros res found e Hget Hs Hd; rewrite Hget; cbn [lift bind];
          destruct (status_code res =? 200); cbn [bind ret emit app];
          rewrite Hs, Hd; reflexivity|].
  intros res found html e Hget Hs Hd Hp. rewrite Hget. cbn [lift bind].
  destruct (status_code res =? 200); cbn [bind ret emit app];
    rewrite Hs, Hd; cbn [lift on_error bind app]; rewrite Hp; reflexivity.
Qed.

(** ** The scheduler when every chapter succeeds *)

Lemma dict_get_snoc {V} (k : Z) (d : list (Z * V)) (k' : Z) (v : V) :
  dict_get Z.eqb k (d ++ [(k', v)]) =
    match dict_get Z.eqb k d with
    | Some x => Some x
    | None => if Z.eqb k k' then Some v else None
    end.
Proof.
  induction d as [|[k0 v0] d IH]; cbn [app dict_get]; [reflexivity|].
  destruct (Z.eqb k k0); [reflexivity|exact IH].
Qed.

Lemma collect_all_ok (task : Z -> io Chapter) (c : Z -> Chapter)
  (order : list Z) : forall acc,
  NoDup order ->
  (forall ch, In ch order -> dict_get Z.eqb ch acc = None) ->
  (forall ch, In ch order -> snd (task ch) = Ok (c ch)) ->
  collect (map (fun ch => (ch, task ch)) order) acc =
    Ok (acc ++ map (fun ch => (ch, c ch)) order).
Proof.
  induction order as [|ch order IH]; intros acc Hnd Hfree Hok.
  - cbn. rewrite app_nil_r. reflexivity.
  - inversion Hnd as [|? ? Hnot Hnd']; subst. cbn [map collect].
    pose proof (Hok ch (or_introl eq_refl)) as Hch.
    destruct (task ch) as [t r]. cbn [snd] in Hch. subst r.
    unfold setdefault. rewrite (Hfree ch (or_introl eq_refl)).
    rewrite (dict_set_absent Z.eqb _ _ _ (Hfree ch (or_introl eq_refl))).
    rewrite IH.
    + rewrite <- app_assoc. reflexivity.
    + exact Hnd'.
    + intros ch' Hin. rewrite dict_get_snoc, (Hfree ch' (or_intror Hin)).
      destruct (Z.eqb ch' ch) eqn:E; [|reflexivity].
      apply Z.eqb_eq in E. subst ch'. contradiction.
    + intros ch' Hin. apply Hok. right. exact Hin.
Qed.

Lemma range1_NoDup (n : nat) : NoDup (range1 n).
Proof.
  unfold range1. generalize 1%nat. induction n as [|n IH]; intros s; cbn.
  - constructor.
  - constructor; [|apply IH]. intros Hin. apply in_map_iff in Hin.
    destruct Hin as (x & Hx & Hin). apply Nat2Z.inj in Hx. subst x.
    apply in_seq in Hin. lia.
Qed.

Lemma dict_get_of_map {V} (f : Z -> V) (l : list Z) (k : Z) :
  In k l -> dict_get Z.eqb k (map (fun ch => (ch, f ch)) l) = Some (f k).
Proof.
  induction l as [|a l IH]; [intros []|]. cbn [map dict_get].
  destruct (Z.eqb k a) eqn:E.
  - apply Z.eqb_eq in E. subst a. reflexivity.
  - intros [->|Hin]; [rewrite Z.eqb_refl in E; discriminate|apply IH; exact Hin].
Qed.

Lemma get_async_chapters_ok (w : World) (self : Book) (c : Z -> Chapter) :
  Permutation (as_completed w (book_id self) (range1 (book_length self)))
              (range1 (book_length self)) ->
  (forall ch, In ch (range1 (book_length self)) ->
     snd (Chapter_init w (book_id self) ch (book_bible self)) = Ok (c ch)) ->
  snd (get_async_chapters w self) =
    Ok (map (fun ch => (ch, c ch))
            (as_completed w (book_id self) (range1 (book_length self)))).
Proof.
  intros Hperm Hok. unfold get_async_chapters. cbn [snd].
  rewrite (collect_all_ok _ c).
  - reflexivity.
  - apply (Permutation_NoDup (Permutation_sym Hperm)). apply range1_NoDup.
  - reflexivity.
  - intros ch Hin. apply Hok. apply (Permutation_in _ Hperm). exact Hin.
Qed.

(** X11.  When the fetch and extraction of every chapter 1 to [len(book)]
    succeeds, [get_async_chapters] returns a map that holds each of these
    numbers exactly once, with the Chapter built for it; the keys are in the
    order in which the futures finished, which is the order [writeFile] then
    writes the chapters in, and not the increasing order unless the futures
    happen to finish so. *)
Theorem X11_get_async_chapters_maps_every_chapter_once
  (w : World) (self : Book) (c : Z -> Chapter) :
  Permutation (as_completed w (book_id self) (range1 (book_length self)))
              (range1 (book_length self)) ->
  (forall ch, In ch (range1 (book_length self)) ->
     snd (Chapter_init w (book_id self) ch (book_bible self)) = Ok (c ch)) ->
  exists chapters,
    snd (get_async_chapters w self) = Ok chapters /\
    dict_keys chapters = as_completed w (book_id self) (range1 (book_length self)) /\
    NoDup (dict_keys chapters) /\
    Permutation (dict_keys chapters) (range1 (book_length self)) /\
    (forall ch, In ch (range1 (book_length self)) ->
       dict_getitem chapters ch = Ok (c ch)).
Proof.
  intros Hperm Hok. eexists. split; [apply (get_async_chapters_ok w self c Hperm Hok)|].
  assert (Hkeys : forall l : list Z,
            dict_keys (map (fun ch => (ch, c ch)) l) = l).
  { intros l. unfold dict_keys. rewrite map_map. cbn [fst]. apply map_id. }
  rewrite Hkeys. split; [reflexivity|].
  split; [apply (Permutation_NoDup (Permutation_sym Hperm)); apply range1_NoDup|].
  split; [exact Hperm|].
  intros ch Hin. unfold dict_getitem. rewrite dict_get_of_map; [reflexivity|].
  apply (Permutation_in _ (Permutation_sym Hperm)). exact Hin.
Qed.

(** ** What the writer writes *)

Lemma foldM_const {A S} (f : S -> A -> io S) (g : A -> list event)
  (l : list A) (s : S) :
  (forall a, In a l -> f s a = (g a, Ok s)) ->
  foldM f l s = (flat_map g l, Ok s).
Proof.
  induction l as [|a l IH]; intros H; [reflexivity|].
  cbn [foldM flat_map]. rewrite (bind_run _ _ _ _ (H a (or_introl eq_refl))).
  rewrite IH by (intros b Hb; apply H; right; exact Hb). reflexivity.
Qed.

Lemma dict_set_same {V} (k : Z) (v : V) (d : list (Z * V)) :
  dict_get Z.eqb k d = Some v -> dict_set Z.eqb k v d = d.
Proof.
  induction d as [|[k0 v0] d IH]; cbn [dict_get dict_set]; [discriminate|].
  destruct (Z.eqb k k0) eqn:E.
  - intros H. inversion H. reflexivity.
  - intros H. rewrite (IH H). reflexivity.
Qed.

Lemma dict_get_of_pair {V} (k : Z) (v : V) (d : list (Z * V)) :
  NoDup (dict_keys d) -> In (k, v) d -> dict_get Z.eqb k d = Some v.
Proof.
  induction d as [|[k0 v0] d IH]; [intros _ []|].
  cbn [dict_keys map fst dict_get]. intros Hnd Hin.
  inversion Hnd as [|? ? Hnot Hnd']; subst.
  destruct Hin as [Heq|Hin].
  - inversion Heq; subst. rewrite Z.eqb_refl. reflexivity.
  - destruct (Z.eqb k k0) eqn:E.
    + apply Z.eqb_eq in E. subst k0. exfalso. apply Hnot.
      apply in_map_iff. exists (k, v). auto.
    + apply IH; assumption.
Qed.

Lemma flat_map_pairs {A B C} (g : A -> list C) (h : A * B -> list C)
  (d : list (A * B)) :
  (forall p, In p d -> g (fst p) = h p) ->
  flat_map g (map fst d) = flat_map h d.
Proof.
  induction d as [|p d IH]; intros H; [reflexivity|].
  cbn [map flat_map]. rewrite (H p (or_introl eq_refl)).
  rewrite IH by (intros q Hq; apply H; right; exact Hq). reflexivity.
Qed.

Lemma flat_map_single {A B} (f : A -> B) (l : list A) :
  flat_map (fun x => [f x]) l = map f l.
Proof. induction l as [|a l IH]; [reflexivity|]. cbn. rewrite IH. reflexivity. Qed.

Lemma write_verses_run (chapters : list (Z * Chapter)) (chapter : Z) (c : Chapter) :
  dict_get Z.eqb chapter chapters = Some c ->
  NoDup (dict_keys (verses c)) ->
  write_verses chapters chapter =
    (map (fun vt => FileWrite (vers_line (fst vt) (snd vt))) (verses c),
     Ok chapters).
Proof.
  intros Hc Hnd. unfold write_verses, dict_getitem. rewrite Hc, bind_lift_ok.
  unfold Chapter_iter, dict_keys.
  rewrite (foldM_const _
             (fun verse => [FileWrite (vers_line verse (verse_text (verses c) verse))])).
  - f_equal.
    rewrite (flat_map_pairs _
               (fun vt => [FileWrite (vers_line (fst vt) (snd vt))])).
    + apply flat_map_single.
    + intros [v x] Hin. cbn [fst snd]. unfold verse_text.
      rewrite (dict_get_of_pair v x (verses c) Hnd Hin). reflexivity.
  - intros verse Hin. rewrite Hc, bind_lift_ok.
    assert (Hpresent : dict_get Z.eqb verse (verses c) <> None)
      by (apply (dict_get_in_keys Z.eqb Z.eqb_eq); exact Hin).
    unfold Chapter_getitem, defaultdict_getitem, verse_text.
    destruct (dict_get Z.eqb verse (verses c)) as [x|]; [|congruence].
    rewrite set_verses_same, (dict_set_same _ _ _ Hc). reflexivity.
Qed.

Lemma write_chapters_run (chapters : list (Z * Chapter)) :
  NoDup (dict_keys chapters) ->
  (forall n c, In (n, c) chapters -> NoDup (dict_keys (verses c))) ->
  write_chapters chapters = (map FileWrite (render_chapters chapters), Ok tt).
Proof.
  intros Hnd Hverses. unfold write_chapters.
  rewrite (bind_run _ _ (flat_map (fun nc => map FileWrite (render_chapter (fst nc) (snd nc)))
                           chapters) chapters).
  - cbn [ret fst snd]. rewrite app_nil_r. f_equal.
    unfold render_chapters. induction chapters as [|nc l IH]; [reflexivity|].
    cbn [flat_map]. rewrite map_app, IH; [reflexivity| |].
    + inversion Hnd; assumption.
    + intros n c Hin. apply (Hverses n c). right. exact Hin.
  - unfold dict_keys.
    rewrite (foldM_const _
               (fun n => match dict_get Z.eqb n chapters with
                         | Some c => map FileWrite (render_chapter n c)
                         | None => []
                         end)).
    + f_equal. apply flat_map_pairs. intros [n c] Hin. cbn [fst snd].
      rewrite (dict_get_of_pair n c chapters Hnd Hin). reflexivity.
    + intros n Hin. apply in_map_iff in Hin. destruct Hin as ([n' c] & <- & Hin).
      cbn [fst]. pose proof (dict_get_of_pair n' c chapters Hnd Hin) as Hget.
      rewrite Hget.
      rewrite (write_verses_run chapters n' c Hget (Hverses n' c Hin)).
      unfold render_chapter. cbn [emit bind ret app fst snd map].
      rewrite map_app, map_map. reflexivity.
Qed.

(** X12.  For a chapter map without repeated keys whose chapters have no
    repeated verse number (as the maps built by the scheduler and the
    extractor are), the loop of [writeFile] over the chapters never fails and
    writes, for each chapter in the order of the map, its [CHAPTER] line, one
    [VERS] line per verse with the number and the text stored for it, in the
    order of the verses, and the closing line; it writes nothing else and
    prints nothing. *)
Theorem X12_write_chapters_renders_the_map
  (chapters : list (Z * Chapter)) :
  NoDup (dict_keys chapters) ->
  (forall n c, In (n, c) chapters -> NoDup (dict_keys (verses c))) ->
  write_chapters chapters = (map FileWrite (render_chapters chapters), Ok tt) /\
  file_writes (fst (write_chapters chapters)) = render_chapters chapters.
Proof.
  intros Hnd Hverses. rewrite (write_chapters_run chapters Hnd Hverses).
  split; [reflexivity|]. cbn [fst].
  induction (render_chapters chapters) as [|x l IH]; [reflexivity|].
  cbn [map file_writes flat_map app]. f_equal. exact IH.
Qed.

Lemma book_keys_zero_get_book (self : Bible) (k : key) :
  book_keys_zero (hashMap self) ->
  book_keys_zero (hashMap (snd (get_book self k))).
Proof.
  intros H. unfold get_book, defaultdict_getitem.
  destruct (dict_get key_eqb k (hashMap self)) eqn:E;
    cbn [snd set_hashMap hashMap]; [exact H|].
  intros b idx Hget. destruct (key_eqb (KBook b) k) eqn:Ek.
  - apply key_eqb_eq in Ek. subst k.
    rewrite (dict_get_set_same key_eqb key_eqb_eq) in Hget. congruence.
  - rewrite (dict_get_set_other key_eqb key_eqb_eq) in Hget; [exact (H _ _ Hget)|].
    intros Heq. destruct (key_eqb_eq (KBook b) k) as [_ Hr].
    rewrite (Hr Heq) in Ek. discriminate.
Qed.

Lemma get_book_of_Book (self : Bible) (b : Book) :
  book_keys_zero (hashMap self) ->
  fst (get_book self (KBook b)) = list_getitem (books self) 0.
Proof.
  intros H. unfold get_book, defaultdict_getitem.
  destruct (dict_get key_eqb (KBook b) (hashMap self)) as [idx|] eqn:E;
    cbn [fst]; [|reflexivity].
  rewrite (H b idx E). reflexivity.
Qed.

Lemma Chapter_init_nodup (w : World) (book : string) (chapter bible : Z)
  (c : Chapter) :
  snd (Chapter_init w book chapter bible) = Ok c -> NoDup (dict_keys (verses c)).
Proof.
  destruct (Chapter_init w book chapter bible) as [t r] eqn:E. cbn [snd].
  intros ->.
  destruct (Chapter_init_inv _ _ _ _ _ _ E)
    as (res & found & html & etree & [vs last] & _ & _ & _ & _ & Hex & _ & ->).
  cbn [verses fst]. unfold extract in Hex.
  rewrite (foldM_loop_key_order _ _ _ _ _ _ Hex). cbn [dict_keys map app].
  apply first_seen_fresh.
Qed.

Lemma write_book_files (w : World) (bible : Bible) (idx : Z) (book first : Book)
  (rest : list Book) (d : list (Z * Chapter)) :
  book_keys_zero (hashMap bible) ->
  books bible = first :: rest ->
  snd (get_async_chapters w first) = Ok d ->
  NoDup (dict_keys d) ->
  (forall n c, In (n, c) d -> NoDup (dict_keys (verses c))) ->
  snd (write_book w bible idx book) = Ok (snd (get_book bible (KBook book))) /\
  file_writes (fst (write_book w bible idx book)) =
    biblebook_line idx book :: render_chapters d ++ [biblebook_end_line].
Proof.
  intros Hzero Hbooks Hd Hnd Hverses. unfold write_book, Bible_getitem.
  pose proof (get_book_of_Book bible book Hzero) as Hfound.
  rewrite Hbooks in Hfound. cbn in Hfound.
  destruct (get_book bible (KBook book)) as [r bible']. cbn [fst snd] in *.
  subst r. rewrite bind_lift_ok.
  pose proof (get_async_chapters_quiet w first) as Hq.
  destruct (get_async_chapters w first) as [tg rg]. cbn [fst snd] in *.
  subst rg. cbn [emit bind]. rewrite (write_chapters_run d Hnd Hverses).
  cbn [emit bind ret app fst snd]. split; [reflexivity|].
  cbn [file_writes flat_map app]. f_equal.
  change (flat_map _ ?t) with (file_writes t).
  rewrite !file_writes_app, Hq. cbn [app]. f_equal.
  induction (render_chapters d) as [|x l IH]; [reflexivity|].
  cbn [map file_writes flat_map app]. f_equal. exact IH.
Qed.

Lemma served_map (w : World) (book : Book) (c : Z -> Chapter) :
  served w book c ->
  snd (get_async_chapters w book) = Ok (served_chapters w book c) /\
  NoDup (dict_keys (served_chapters w book c)) /\
  (forall n c', In (n, c') (served_chapters w book c) ->
                NoDup (dict_keys (verses c'))).
Proof.
  intros [Hperm Hok]. unfold served_chapters.
  set (order := as_completed w (book_id book) (range1 (book_length book))) in *.
  split; [apply (get_async_chapters_ok w book c Hperm Hok)|]. split.
  - unfold dict_keys. rewrite map_map. cbn [fst]. rewrite map_id.
    apply (Permutation_NoDup (Permutation_sym Hperm)). apply range1_NoDup.
  - intros n c' Hin. apply in_map_iff in Hin. destruct Hin as (ch & Heq & Hin).
    inversion Heq; subst.
    apply (Chapter_init_nodup w (book_id book) n (book_bible book)).
    apply Hok. apply (Permutation_in _ Hperm). exact Hin.
Qed.

Lemma write_books_files (run : Run) (base : nat) (first : Book)
  (rest : list Book) (c : nat -> Z -> Chapter) :
  forall l k bible,
  book_keys_zero (hashMap bible) ->
  books bible = first :: rest ->
  (forall j, (k <= j < k + List.length l)%nat ->
     served (run (base + j)%nat) first (c j)) ->
  (exists bible',
     snd (write_books run (base + k) bible (Z.of_nat k) l) = Ok bible') /\
  file_writes (fst (write_books run (base + k) bible (Z.of_nat k) l)) =
    flat_map (fun kb => book_lines (Z.of_nat (fst kb)) (snd kb)
                          (served_chapters (run (base + fst kb)%nat) first
                                           (c (fst kb))))
             (combine (seq k (List.length l)) l).
Proof.
  induction l as [|book l IH]; intros k bible Hzero Hbooks Hserved.
  - cbn. split; [exists bible; reflexivity|reflexivity].
  - cbn [write_books List.length seq combine flat_map fst snd].
    assert (Hk : served (run (base + k)%nat) first (c k))
      by (apply Hserved; cbn [List.length]; lia).
    destruct (served_map _ _ _ Hk) as (Hd & Hnd & Hverses).
    destruct (write_book_files (run (base + k)%nat) bible (Z.of_nat k) book first
                rest _ Hzero Hbooks Hd Hnd Hverses) as [Hr Hw].
    destruct (write_book (run (base + k)%nat) bible (Z.of_nat k) book) as [tb rb].
    cbn [fst snd] in Hr, Hw. subst rb. cbn [bind].
    assert (Hzero' : book_keys_zero (hashMap (snd (get_book bible (KBook book)))))
      by (apply book_keys_zero_get_book; exact Hzero).
    assert (Hbooks' : books (snd (get_book bible (KBook book))) = first :: rest)
      by (destruct (get_book_after bible (KBook book) (KBook book)) as [_ ->];
          exact Hbooks).
    assert (Hserved' : forall j, (S k <= j < S k + List.length l)%nat ->
                                 served (run (base + j)%nat) first (c j))
      by (intros j Hj; apply Hserved; cbn [List.length]; lia).
    destruct (IH (S k) _ Hzero' Hbooks' Hserved') as [(bible' & Hok) Hfiles].
    replace (S (base + k)) with (base + S k)%nat by lia.
    replace (Z.of_nat k + 1) with (Z.of_nat (S k)) by lia.
    destruct (write_books run (base + S k) (snd (get_book bible (KBook book)))
                (Z.of_nat (S k)) l) as [tl rl].
    cbn [fst snd] in *. subst rl.
    split; [exists bible'; reflexivity|].
    rewrite file_writes_app, Hw, Hfiles. unfold book_lines.
    rewrite <- app_comm_cons, <- app_assoc. reflexivity.
Qed.

(** X13.  For a Bible built by [Bible.__init__] that has a first book, when
    the file can be opened and, for every book of the list in turn, the
    chapters of the first book are fetched and extracted, [writeFile]
    succeeds and the file holds the header, then for every book, numbered
    from 1 in the order of the list, its opening line with its own name and
    abbreviation, the chapters of the first book of the list (the book
    [bible[book]] finds for any [Book] object) as they were fetched for that
    turn, and its closing line, and at the end [</XMLBIBLE>]: the chapters of
    the other books are never fetched, and every book is written with the
    chapters of the first. *)
Theorem X13_writeFile_writes_the_first_book_under_every_book
  (run : Run) (now : nat) (w0 : World) (id : Z) (t0 : list event)
  (bible : Bible) (first : Book) (rest : list Book) (c : nat -> Z -> Chapter) :
  Bible_init w0 id = (t0, Ok bible) ->
  books bible = first :: rest ->
  file_open (run now) (bible_path bible) = Ok tt ->
  (forall k, (1 <= k <= List.length (books bible))%nat ->
     served (run (now + k)%nat) first (c k)) ->
  (exists bible', snd (writeFile run now bible) = Ok bible') /\
  file_writes (fst (writeFile run now bible)) =
    header (run now) bible
    :: flat_map
         (fun kb => book_lines (Z.of_nat (fst kb)) (snd kb)
                      (served_chapters (run (now + fst kb)%nat) first (c (fst kb))))
         (combine (seq 1 (List.length (books bible))) (books bible))
    ++ ["</XMLBIBLE>"].
Proof.
  intros Hinit Hbooks Hopen Hserved.
  assert (Hzero : book_keys_zero (hashMap bible)).
  { destruct (Bible_init_exact _ _ _ _ Hinit) as [_ Hnone].
    intros b idx Hget. rewrite (Hnone b) in Hget. discriminate. }
  assert (Hserved' : forall j, (1 <= j < 1 + List.length (books bible))%nat ->
                               served (run (now + j)%nat) first (c j))
    by (intros j Hj; apply Hserved; lia).
  destruct (write_books_files run now first rest c (books bible) 1%nat bible
              Hzero Hbooks Hserved') as [(bible' & Hr) Hw].
  unfold writeFile. rewrite Hopen.
  replace (S now) with (now + 1)%nat by lia.
  change 1 with (Z.of_nat 1).
  destruct (write_books run (now + 1) bible (Z.of_nat 1) (books bible)) as [tb rb].
  cbn [fst snd] in Hr, Hw. subst rb. cbn [emit lift bind ret app fst snd].
  split; [exists bible'; reflexivity|].
  cbn [file_writes flat_map app]. f_equal.
  change (flat_map _ (tb ++ ?x)) with (file_writes (tb ++ x)).
  rewrite file_writes_app, Hw. reflexivity.
Qed.

(** X22.  [writeFile] opens the file before anything else: when the file
    cannot be opened, the exception of [open] leaves [writeFile] and nothing
    is written, fetched or printed; when it can, the opening and the header
    come first.  So whatever [writeFile] did, it did with the file open. *)
Theorem X22_writeFile_opens_the_file_first
  (run : Run) (now : nat) (bible : Bible) :
  (forall e, file_open (run now) (bible_path bible) = Raise e ->
     writeFile run now bible = ([], Raise e)) /\
  (file_open (run now) (bible_path bible) = Ok tt ->
     exists t, fst (writeFile run now bible) =
                 FileOpen (bible_path bible)
                 :: FileWrite (header (run now) bible) :: t) /\
  (fst (writeFile run now bible) <> [] ->
     file_open (run now) (bible_path bible) = Ok tt).
Proof.
  unfold writeFile.
  destruct (file_open (run now) (bible_path bible)) as [[]|e0].
  - split; [discriminate|]. split; [|reflexivity]. intros _.
    destruct (write_books run (S now) bible 1 (books bible)) as [tb [b|e]];
      cbn [emit lift bind ret app fst snd]; eexists; reflexivity.
  - split; [intros e H; inversion H; reflexivity|].
    split; [discriminate|]. cbn [lift bind fst]. intros H. contradiction.
Qed.

(** ** main.writeBible *)





(** ** Bible.Book.__iter__ and __getitem__ *)

(** X15.  Iterating a [Book] visits [len(book)] chapters, numbered 1, 2, ...
    in increasing order, the k-th being what [book[k]] fetches: the numbers
    are the ones [get_async_chapters] submits, and chapter 0 or a number above
    [len(book)] is never asked for. *)
Theorem X15_iterating_a_Book_visits_chapters_1_to_len
  (w : World) (self : Book) :
  Book_iter w self = map (Book_getitem w self) (range1 (Book_len self)) /\
  List.length (Book_iter w self) = Book_len self /\
  (forall ch, In ch (range1 (Book_len self)) <->
              1 <= ch <= Z.of_nat (Book_len self)).
Proof.
  unfold Book_iter, Book_getitem, get_chapter, range1.
  split; [|split].
  - rewrite <- seq_shift, !map_map. apply map_ext. intros x.
    f_equal. lia.
  - rewrite !length_map, length_seq. reflexivity.
  - intros ch. rewrite in_map_iff. split.
    + intros (x & <- & Hx). apply in_seq in Hx. lia.
    + intros H. exists (Z.to_nat ch). split; [lia|]. apply in_seq. lia.
Qed.

(** ** The failures of Bible.__init__ *)

(** X16.  [Bible.__init__] fails only when the metadata cannot be fetched or
    cannot be parsed, with the exception of the fetch (nothing printed) or of
    the parse (after the URL when the status is not 200); in both cases no
    Bible is built, and nothing else makes it fail. *)
Theorem X16_Bible_init_fails_only_on_fetch_or_parse
  (w : World) (id : Z) :
  (forall e, http_get w (version_url id) = Raise e ->
     Bible_init w id = ([], Raise e)) /\
  (forall res e, http_get w (version_url id) = Ok res ->
     res_json res = Raise e ->
     Bible_init w id = (status_print res (version_url id), Raise e)) /\
  (forall t e, Bible_init w id = (t, Raise e) ->
     http_get w (version_url id) = Raise e \/
     exists res, http_get w (version_url id) = Ok res /\ res_json res = Raise e).
Proof.
  assert (H1 : forall e, http_get w (version_url id) = Raise e ->
                         Bible_init w id = ([], Raise e)).
  { intros e Hget. unfold Bible_init, getResponse. rewrite Hget. reflexivity. }
  assert (H2 : forall res e, http_get w (version_url id) = Ok res ->
                 res_json res = Raise e ->
                 Bible_init w id = (status_print res (version_url id), Raise e)).
  { intros res e Hget Hjson. unfold Bible_init, getResponse, status_print.
    rewrite Hget. cbn [lift bind].
    destruct (status_code res =? 200); cbn [bind ret emit app];
      rewrite Hjson; reflexivity. }
  split; [exact H1|]. split; [exact H2|].
  intros t e H.
  destruct (http_get w (version_url id)) as [res|e0] eqn:Hget.
  - right. exists res. split; [reflexivity|].
    destruct (res_json res) as [data|e1] eqn:Hjson.
    + rewrite (Bible_init_run w id res data Hget Hjson) in H. discriminate.
    + rewrite (H2 res e1 eq_refl Hjson) in H. congruence.
  - left. rewrite (H1 e0 eq_refl) in H. congruence.
Qed.

(** ** The exceptions of the extraction *)

Lemma bind_raise_inv {A B} (m : io A) (k : A -> io B) t e :
  bind m k = (t, Raise e) ->
  m = (t, Raise e) \/
  exists t1 a t2, m = (t1, Ok a) /\ k a = (t2, Raise e) /\ t = t1 ++ t2.
Proof.
  unfold bind. destruct m as [t1 [a|e1]].
  - destruct (k a) as [t2 r] eqn:E. intros H. inversion H; subst.
    right. exists t1, a, t2. auto.
  - intros H. left. inversion H. reflexivity.
Qed.

Lemma attrib_class_raise (el : element) (e : exn) :
  attrib_class el = Raise e -> e = KeyError.
Proof.
  unfold attrib_class. destruct (dict_get String.eqb "class" (attrib el));
    [discriminate|]. intros H. congruence.
Qed.

Lemma walk_raise (up : list element) : forall el t e,
  findVerseParent_walk el up = (t, Raise e) ->
  (e = KeyError \/ e = AttributeError) /\ at_most_one_tag t.
Proof.
  assert (Hex : forall (o : option element) e0 t e,
             (o = None \/ e0 = KeyError) ->
             @findVerseParent_except node o e0 = (t, Raise e) ->
             (e = KeyError \/ e = AttributeError) /\ at_most_one_tag t).
  { intros [el|] e0 t e Hk; unfold findVerseParent_except.
    - destruct Hk as [Hk | ->]; [discriminate|].
      destruct (text el) as [x|].
      + destruct (String.eqb (Str.strip x) "") eqn:E; intros H;
          inversion H; subst; (split; [auto|]).
        * left. reflexivity.
        * right. exists x, (attrib el). split; [reflexivity|].
          intros Heq. rewrite Heq in E. discriminate.
      + intros H. inversion H; subst. split; [auto|left; reflexivity].
    - intros H. inversion H; subst. split; [auto|left; reflexivity]. }
  induction up as [|p up IH]; intros el t e; rewrite walk_unfold;
    destruct (attrib_class el) as [c|e0] eqn:Ec;
    try (apply Hex; right; apply (attrib_class_raise el); exact Ec);
    destruct (Str.startswith c "verse v"); try discriminate.
  - apply Hex. left. reflexivity.
  - apply IH.
Qed.

Lemma rmap_list_raise {A B} (f : A -> result B) (l : list A) (e : exn) :
  rmap_list f l = Raise e -> exists a, In a l /\ f a = Raise e.
Proof.
  induction l as [|a l IH]; [discriminate|]. cbn [rmap_list].
  destruct (f a) as [b|e0] eqn:Ea; cbn [rbind].
  - destruct (rmap_list f l) as [bs|e1]; cbn [rbind]; [discriminate|].
    intros H. destruct (IH H) as (x & Hx & Hf). exists x. split; [right|]; auto.
  - intros H. exists a. split; [left; reflexivity|congruence].
Qed.

Lemma int_raise (s : string) (e : exn) : Str.int s = Raise e -> e = ValueError.
Proof.
  unfold Str.int.
  destruct (match Str.int_rstrip (Str.int_lstrip s) with
            | EmptyString => (false, Str.int_rstrip (Str.int_lstrip s))
            | String c r =>
                if Ascii.eqb c "-" then (true, r)
                else if Ascii.eqb c "+" then (false, r)
                else (false, Str.int_rstrip (Str.int_lstrip s))
            end) as [neg body].
  destruct (Str.digits_acc false 0 body); [discriminate|]. congruence.
Qed.

Lemma findMinVerse_raise (c : string) (e : exn) :
  findMinVerse c = Raise e -> e = ValueError.
Proof.
  unfold findMinVerse, Str.split. cbn [rbind].
  destruct (rmap_list Str.int _) as [zs|e0] eqn:E; cbn [rbind].
  - destruct zs; cbn [py_min]; [congruence|discriminate].
  - intros H. apply rmap_list_raise in E. destruct E as (g & _ & Hg).
    apply int_raise in Hg. congruence.
Qed.

Lemma verse_parent_ok_silent (i : node) t q n :
  verse_parent i = (t, Ok (q, n)) -> t = [].
Proof.
  unfold verse_parent. destruct (getparent i) as [parent|]; [|discriminate].
  intros Hp. apply bind_ok in Hp. destruct Hp as (t3 & c & t4 & Hl & Hr & ->).
  apply lift_inv in Hl. destruct Hl as [_ ->].
  destruct (Str.count c "v" <? 2)%nat.
  - apply bind_ok in Hr. destruct Hr as (t5 & q' & t6 & Hw & Hr & ->).
    apply walk_ok_silent in Hw. subst t5.
    apply bind_ok in Hr. destruct Hr as (t7 & c' & t8 & Hl & Hr & ->).
    apply lift_inv in Hl. destruct Hl as [_ ->].
    unfold ret in Hr. inversion Hr. reflexivity.
  - unfold ret in Hr. inversion Hr. reflexivity.
Qed.

Lemma leaf_verse_raise (i : node) (t : list event) (e : exn) :
  leaf_verse i = (t, Raise e) -> extraction_error e /\ at_most_one_tag t.
Proof.
  unfold leaf_verse, extraction_error. intros H.
  apply bind_raise_inv in H. destruct H as [H|(t1 & [q n] & t2 & Hp & Hc & ->)].
  - unfold verse_parent in H. destruct (getparent i) as [parent|].
    + apply bind_raise_inv in H.
      destruct H as [H|(t1 & c & t2 & Hl & H & ->)].
      * unfold lift in H. inversion H as [[Ht Hr]].
        apply attrib_class_raise in Hr. subst. split; [auto|left; reflexivity].
      * apply lift_inv in Hl. destruct Hl as [_ ->]. cbn [app].
        destruct (Str.count c "v" <? 2)%nat; [|discriminate].
        apply bind_raise_inv in H.
        destruct H as [H|(t3 & q & t4 & Hw & H & ->)].
        -- destruct (walk_raise _ _ _ _ H) as [[-> | ->] Ht]; auto.
        -- apply walk_ok_silent in Hw. subst t3. cbn [app].
           apply bind_raise_inv in H.
           destruct H as [H|(t5 & c' & t6 & _ & H & _)]; [|discriminate].
           unfold lift in H. inversion H as [[Ht Hr]].
           apply attrib_class_raise in Hr. subst. split; [auto|left; reflexivity].
    + inversion H; subst. split; [auto|left; reflexivity].
  - apply verse_parent_ok_silent in Hp. subst t1. cbn [app].
    unfold class_verse in Hc. apply bind_raise_inv in Hc.
    destruct Hc as [H|(t3 & c & t4 & Hl & H & ->)].
    + unfold lift in H. inversion H as [[Ht Hr]].
      apply attrib_class_raise in Hr. subst. split; [auto|left; reflexivity].
    + apply lift_inv in Hl. destruct Hl as [_ ->]. cbn [app].
      destruct (2 <? n)%nat; unfold lift in H; inversion H as [[Ht Hr]].
      * apply findMinVerse_raise in Hr. subst. split; [auto|left; reflexivity].
      * apply int_raise in Hr. subst. split; [auto|left; reflexivity].
Qed.

Lemma loop_body_raise (st : loop_state) (i : node) (t : list event) (e : exn) :
  loop_body st i = (t, Raise e) -> extraction_error e /\ at_most_one_tag t.
Proof.
  destruct st as [vs last]. unfold loop_body. intros H.
  apply bind_raise_inv in H. destruct H as [H|(t1 & v & t2 & Hv & H & ->)].
  - apply (leaf_verse_raise i). exact H.
  - apply leaf_verse_ok_silent in Hv. subst t1. cbn [app].
    destruct (defaultdict_getitem Z.eqb "" v vs) as [old vs'].
    apply bind_raise_inv in H.
    destruct H as [H|(t3 & x & t4 & _ & H & _)]; [|discriminate].
    unfold lift, text_strip in H. destruct (text (fst i)); [discriminate|].
    inversion H; subst. split; [right; left; reflexivity|left; reflexivity].
Qed.

Lemma foldM_loop_raise (l : list node) : forall st t e,
  foldM loop_body l st = (t, Raise e) -> extraction_error e /\ at_most_one_tag t.
Proof.
  induction l as [|a l IH]; intros st t e H; [discriminate|].
  cbn [foldM] in H. apply bind_raise_inv in H.
  destruct H as [H|(t1 & st1 & t2 & Ha & H & ->)].
  - apply (loop_body_raise st a). exact H.
  - destruct st as [vs last]. destruct st1 as [vs1 last1].
    destruct (loop_body_inv _ _ _ _ _ Ha) as (N & x & Hv & _).
    apply leaf_verse_ok_silent in Hv. subst t1. cbn [app].
    apply (IH _ _ _ H).
Qed.

(** X17.  An extraction that fails ends in a [KeyError], an [AttributeError]
    or a [ValueError] and in nothing else, and it has printed at most one
    line, the text and attributes of one element, the text not blank: the
    spans that went through before the failing one printed nothing, and no
    span after it is looked at. *)
Theorem X17_a_failed_extraction_has_one_of_three_exceptions
  (etree : element) (t : list event) (e : exn) :
  extract etree = (t, Raise e) ->
  extraction_error e /\ at_most_one_tag t.
Proof. unfold extract. apply foldM_loop_raise. Qed.

(** ** More on utils.decodeHtml *)

Lemma utf8_char_raise (c : N) (e : exn) :
  Codec.utf8_char c = Raise e -> e = UnicodeEncodeError /\ unencodable c.
Proof.
  unfold Codec.utf8_char, unencodable.
  destruct (c <? 128)%N; [discriminate|].
  destruct (c <? 2048)%N; [discriminate|].
  destruct (c <? 65536)%N.
  - destruct ((55296 <=? c) && (c <=? 57343))%N eqn:E; [|discriminate].
    apply between_spec in E. intros H. split; [congruence|left; exact E].
  - destruct (c <? 1114112)%N eqn:E; [discriminate|].
    apply N.ltb_ge in E. intros H. split; [congruence|right; exact E].
Qed.

Lemma utf8_char_unencodable (c : N) :
  unencodable c -> Codec.utf8_char c = Raise UnicodeEncodeError.
Proof.
  unfold Codec.utf8_char, unencodable. intros H.
  replace (c <? 128)%N with false by (symmetry; apply N.ltb_ge; lia).
  replace (c <? 2048)%N with false by (symmetry; apply N.ltb_ge; lia).
  destruct H as [H|H].
  - replace (c <? 65536)%N with true by (symmetry; apply N.ltb_lt; lia).
    replace ((55296 <=? c) && (c <=? 57343))%N with true; [reflexivity|].
    symmetry. apply andb_true_iff. split; apply N.leb_le; lia.
  - replace (c <? 65536)%N with false by (symmetry; apply N.ltb_ge; lia).
    replace (c <? 1114112)%N with false by (symmetry; apply N.ltb_ge; lia).
    reflexivity.
Qed.

Lemma utf8_encode_raise (text : list N) :
  (exists e, Codec.utf8_encode text = Raise e) <-> Exists unencodable text.
Proof.
  induction text as [|c text IH]; cbn [Codec.utf8_encode].
  - split; [intros (e & H); discriminate|intros H; inversion H].
  - destruct (Codec.utf8_char c) as [bs|e0] eqn:Ec; cbn [rbind].
    + destruct (Codec.utf8_encode text) as [rest|e1] eqn:Et; cbn [rbind].
      * split; [intros (e & H); discriminate|].
        intros H. inversion H as [? ? Hc|? ? Ht]; subst.
        -- rewrite (utf8_char_unencodable c Hc) in Ec. discriminate.
        -- apply IH in Ht. destruct Ht as (e & He). discriminate.
      * split; [|intros _; exists e1; reflexivity].
        intros _. apply Exists_cons_tl. apply IH. exists e1. reflexivity.
    + split; [|intros _; exists e0; reflexivity].
      intros _. apply Exists_cons_hd. apply (utf8_char_raise c e0 Ec).
Qed.

Lemma utf8_encode_raise_kind (text : list N) (e : exn) :
  Codec.utf8_encode text = Raise e -> e = UnicodeEncodeError.
Proof.
  induction text as [|c text IH]; cbn [Codec.utf8_encode]; [discriminate|].
  destruct (Codec.utf8_char c) as [bs|e0] eqn:Ec; cbn [rbind].
  - destruct (Codec.utf8_encode text) as [rest|e1]; cbn [rbind]; [discriminate|].
    intros H. apply IH. congruence.
  - intros H. destruct (utf8_char_raise c e0 Ec) as [-> _]. congruence.
Qed.

Lemma Raise_inj {A} (a b : exn) : @Raise A a = Raise b -> a = b.
Proof. intros H. congruence. Qed.

Lemma hex_escape_raise (count : nat) (m : string) (s : list N) (e : exn) :
  Codec.hex_escape count m s = Raise e -> exists m', e = UnicodeDecodeError m'.
Proof.
  unfold Codec.hex_escape. destruct (Codec.hex_value count 0 s) as [ch|].
  - destruct (1114111 <? ch)%N; [|discriminate].
    intros H. apply Raise_inj in H. subst e. eexists. reflexivity.
  - intros H. apply Raise_inj in H. subst e. eexists. reflexivity.
Qed.

Lemma escape_raise (getcode : list N -> option N) (s : list N) (e : exn) :
  Codec.escape getcode s = Raise e -> exists m, e = UnicodeDecodeError m.
Proof.
  unfold Codec.escape.
  destruct s as [|c r];
    [intros H; apply Raise_inj in H; subst e; eexists; reflexivity|].
  repeat match goal with
         | |- (if (c =? 120)%N then _ else _) = _ -> _ =>
             destruct (c =? 120)%N; [apply hex_escape_raise|]
         | |- (if (c =? 117)%N then _ else _) = _ -> _ =>
             destruct (c =? 117)%N; [apply hex_escape_raise|]
         | |- (if (c =? 85)%N then _ else _) = _ -> _ =>
             destruct (c =? 85)%N; [apply hex_escape_raise|]
         | |- (if ?b then _ else _) = _ -> _ => destruct b
         | |- match ?x with _ => _ end = _ -> _ => destruct x
         | |- Ok _ = Raise _ -> _ => discriminate
         | |- Raise (UnicodeDecodeError _) = Raise _ -> _ =>
             intros H; apply Raise_inj in H; subst e; eexists; reflexivity
         end.
Qed.

Lemma unicode_escape_raise (getcode : list N -> option N) (s : list N) :
  forall skip e,
  Codec.unicode_escape_from getcode skip s = Raise e ->
  exists m, e = UnicodeDecodeError m.
Proof.
  induction s as [|b r IH]; intros skip e; [discriminate|].
  cbn [Codec.unicode_escape_from]. destruct skip as [|k]; [|apply IH].
  destruct (b =? 92)%N.
  - destruct (Codec.escape getcode r) as [[out used]|e0] eqn:E; cbn [rbind].
    + destruct (Codec.unicode_escape_from getcode used r) as [rest|e1] eqn:Er;
        cbn [rbind]; [discriminate|].
      intros H. apply (IH used). congruence.
    + intros H. apply (escape_raise getcode r). congruence.
  - destruct (Codec.unicode_escape_from getcode 0 r) as [rest|e1] eqn:Er;
      cbn [rbind]; [discriminate|].
    intros H. apply (IH O). congruence.
Qed.

(** X18.  [decodeHtml] raises nothing but [UnicodeEncodeError] and
    [UnicodeDecodeError]: the first exactly when the text holds a surrogate
    (or a number that is no code point), whatever its escapes are, the
    second for an escape the codec cannot read in a text that can be
    encoded. *)
Theorem X18_decodeHtml_exceptions
  (w : World) (text : list N) :
  (decodeHtml w text = Raise UnicodeEncodeError <-> Exists unencodable text) /\
  (forall e, decodeHtml w text = Raise e ->
     e = UnicodeEncodeError \/ exists m, e = UnicodeDecodeError m).
Proof.
  unfold decodeHtml, Codec.decodeHtml.
  destruct (Codec.utf8_encode text) as [bs|e0] eqn:E; cbn [rbind].
  - split.
    + split.
      * intros H. apply unicode_escape_raise in H. destruct H as (m & H).
        discriminate.
      * intros H. apply utf8_encode_raise in H. destruct H as (e & H).
        congruence.
    + intros e H. right. apply (unicode_escape_raise _ _ _ _ H).
  - pose proof (utf8_encode_raise_kind _ _ E) as ->. split.
    + split; [|reflexivity]. intros _. apply utf8_encode_raise.
      exists UnicodeEncodeError. exact E.
    + intros e H. left. congruence.
Qed.

Lemma utf8_encode_app_ascii (p r : list N) :
  Forall (fun c => (c < 128)%N) p ->
  Codec.utf8_encode (p ++ r) =
    rbind (Codec.utf8_encode r) (fun bs => Ok (p ++ bs)).
Proof.
  induction 1 as [|c p Hc _ IH]; cbn [app Codec.utf8_encode].
  - destruct (Codec.utf8_encode r); reflexivity.
  - unfold Codec.utf8_char. apply N.ltb_lt in Hc. rewrite Hc. cbn [rbind].
    rewrite IH. destruct (Codec.utf8_encode r); reflexivity.
Qed.

Lemma unicode_escape_app_plain (getcode : list N -> option N) (p r : list N) :
  Forall (fun c => c <> 92%N) p ->
  Codec.unicode_escape_decode getcode (p ++ r) =
    rbind (Codec.unicode_escape_decode getcode r) (fun t => Ok (p ++ t)).
Proof.
  unfold Codec.unicode_escape_decode.
  induction 1 as [|c p Hc _ IH]; cbn [app Codec.unicode_escape_from].
  - destruct (Codec.unicode_escape_from getcode 0 r); reflexivity.
  - apply N.eqb_neq in Hc. rewrite Hc, IH.
    destruct (Codec.unicode_escape_from getcode 0 r); reflexivity.
Qed.

(** X19.  An ASCII prefix without a backslash passes through [decodeHtml]
    unchanged and does not affect how the rest is decoded: decoding the
    prefix followed by a rest gives the prefix followed by the decoded rest,
    and fails exactly as the rest alone does. *)
Theorem X19_decodeHtml_passes_a_plain_prefix
  (w : World) (p r : list N) :
  Forall (fun c => (c < 128)%N) p ->
  Forall (fun c => c <> 92%N) p ->
  decodeHtml w (p ++ r) = rbind (decodeHtml w r) (fun t => Ok (p ++ t)).
Proof.
  intros Hascii Hplain. unfold decodeHtml, Codec.decodeHtml.
  rewrite (utf8_encode_app_ascii p r Hascii).
  destruct (Codec.utf8_encode r) as [bs|e]; cbn [rbind]; [|reflexivity].
  apply unicode_escape_app_plain. exact Hplain.
Qed.

(** ** A class attribute with one verse token *)

Lemma replace_from_first_absent (a : ascii) (old' new s : string) :
  all_chars (fun c => negb (Ascii.eqb a c)) s = true ->
  Str.replace_from O (String a old') new s = s.
Proof.
  induction s as [|c s IH]; intros H; [reflexivity|].
  cbn [all_chars] in H. apply andb_true_iff in H. destruct H as [Hc Hs].
  cbn [Str.replace_from Str.startswith].
  destruct (Ascii.eqb a c); [discriminate|]. cbn [andb]. f_equal.
  apply IH. exact Hs.
Qed.

Lemma int_lstrip_blanks (b s : string) :
  all_chars Str.int_blank b = true ->
  Str.int_lstrip (b ++ s) = Str.int_lstrip s.
Proof.
  induction b as [|c b IH]; [reflexivity|]. cbn [all_chars append Str.int_lstrip].
  intros H. apply andb_true_iff in H. destruct H as [-> Hb]. apply IH. exact Hb.
Qed.

Lemma int_rstrip_blanks (b : string) :
  all_chars Str.int_blank b = true -> Str.int_rstrip b = EmptyString.
Proof.
  induction b as [|c b IH]; [reflexivity|]. cbn [all_chars Str.int_rstrip].
  intros H. apply andb_true_iff in H. destruct H as [-> Hb]. rewrite (IH Hb).
  reflexivity.
Qed.

Lemma int_rstrip_keeps (a x : string) :
  Str.int_rstrip x <> EmptyString ->
  Str.int_rstrip (a ++ x) = (a ++ Str.int_rstrip x)%string.
Proof.
  intros Hx. induction a as [|c a IH]; [reflexivity|].
  cbn [append Str.int_rstrip]. rewrite IH.
  destruct (a ++ Str.int_rstrip x)%string as [|c' y] eqn:E; [|reflexivity].
  destruct a; [|discriminate]. cbn [append] in E. contradiction.
Qed.

Lemma int_rstrip_digits_blanks (g b : string) :
  all_chars is_digit g = true -> g <> EmptyString ->
  all_chars Str.int_blank b = true ->
  Str.int_rstrip (g ++ b) = g.
Proof.
  intros Hg Hne Hb. induction g as [|c g IH]; [congruence|].
  cbn [all_chars] in Hg. apply andb_true_iff in Hg. destruct Hg as [Hc Hg].
  cbn [append Str.int_rstrip]. destruct g as [|c' g'].
  - cbn [append]. rewrite (int_rstrip_blanks b Hb), (is_digit_not_blank c Hc).
    reflexivity.
  - rewrite (IH Hg) by discriminate. reflexivity.
Qed.

Lemma digits_acc_stops (g y : string) : forall b acc,
  all_chars is_digit g = true ->
  Str.digits_acc b acc (g ++ String " " y) = None.
Proof.
  induction g as [|c g IH]; intros b acc Hg; [reflexivity|].
  cbn [all_chars] in Hg. apply andb_true_iff in Hg. destruct Hg as [Hc Hg].
  cbn [append Str.digits_acc]. rewrite (is_digit_value c Hc). apply IH. exact Hg.
Qed.

Lemma int_blank_listed (c : ascii) :
  existsb (Ascii.eqb c) int_blanks = Str.int_blank c.
Proof. destruct c as [[] [] [] [] [] [] [] []]; reflexivity. Qed.

Lemma blank_text_blank (b : string) :
  blank_text b = true -> all_chars Str.int_blank b = true.
Proof.
  apply all_chars_weaken. intros a H. rewrite <- int_blank_listed. exact H.
Qed.

(** [int] on a number with blanks around it. *)
Lemma int_blanks_around (b1 g b2 : string) :
  blank_text b1 = true -> blank_text b2 = true ->
  digit_group g = true ->
  Str.int (b1 ++ g ++ b2) = Ok (group_value g).
Proof.
  intros H1 H2 Hg. apply blank_text_blank in H1, H2.
  pose proof (int_digit_group g Hg) as Hint.
  unfold digit_group in Hg. apply andb_true_iff in Hg. destruct Hg as [Hne Hd].
  assert (Hne' : g <> EmptyString) by (destruct g; [discriminate|discriminate]).
  unfold Str.int in *. rewrite (int_lstrip_blanks b1 _ H1).
  assert (Hl : Str.int_lstrip (g ++ b2) = (g ++ b2)%string).
  { destruct g as [|c g']; [congruence|]. cbn [append Str.int_lstrip].
    cbn [all_chars] in Hd. apply andb_true_iff in Hd. destruct Hd as [Hc _].
    rewrite (is_digit_not_blank c Hc). reflexivity. }
  rewrite Hl, (int_rstrip_digits_blanks g b2 Hd Hne' H2).
  rewrite (lstrip_digits _ Hd), (rstrip_digits _ Hd) in Hint. exact Hint.
Qed.

(** [int] on a text that starts with one of the separators U+001C to
    U+001F. *)
Lemma int_separator (c : ascii) (r : string) :
  In c ["028"; "029"; "030"; "031"]%char ->
  Str.int (String c r) = Raise ValueError.
Proof.
  intros [<-|[<-|[<-|[<-|[]]]]]; unfold Str.int;
    match goal with
    | |- context [Str.int_lstrip (String ?a r)] =>
        change (Str.int_lstrip (String a r)) with (String a r)
    end;
    cbn [Str.int_rstrip]; destruct (Str.int_rstrip r); reflexivity.
Qed.

Lemma all_chars_ext (p q : ascii -> bool) (s : string) :
  (forall a, p a = q a) -> all_chars p s = all_chars q s.
Proof.
  intros H. induction s as [|a s IH]; [reflexivity|].
  cbn [all_chars]. rewrite H, IH. reflexivity.
Qed.

Lemma int_rstrip_not_blank (x : string) :
  blank_text x = false -> Str.int_rstrip x <> EmptyString.
Proof.
  unfold blank_text. rewrite (all_chars_ext _ Str.int_blank x int_blank_listed).
  induction x as [|c x IH]; [discriminate|]. cbn [all_chars Str.int_rstrip].
  destruct (all_chars Str.int_blank x) eqn:E.
  - rewrite (int_rstrip_blanks x E), andb_true_r. intros ->. discriminate.
  - intros _. specialize (IH eq_refl).
    destruct (Str.int_rstrip x); [congruence|discriminate].
Qed.

(** [int] on a number followed by a space and something that is not
    blank. *)
Lemma int_second_word (g x : string) :
  digit_group g = true -> blank_text x = false ->
  Str.int (g ++ String " " x) = Raise ValueError.
Proof.
  intros Hg Hx. apply int_rstrip_not_blank in Hx. unfold digit_group in Hg. apply andb_true_iff in Hg.
  destruct Hg as [Hne Hd]. unfold Str.int.
  assert (Hx' : Str.int_rstrip (String " " x) = String " " (Str.int_rstrip x)).
  { cbn [Str.int_rstrip]. destruct (Str.int_rstrip x); [congruence|reflexivity]. }
  destruct g as [|c g']; [discriminate|].
  pose proof Hd as Hd'. cbn [all_chars] in Hd'. apply andb_true_iff in Hd'.
  destruct Hd' as [Hc _].
  assert (Hl : Str.int_lstrip (String c g' ++ String " " x)
               = (String c g' ++ String " " x)%string).
  { cbn [append Str.int_lstrip]. rewrite (is_digit_not_blank c Hc). reflexivity. }
  rewrite Hl, int_rstrip_keeps by (rewrite Hx'; discriminate).
  rewrite Hx'. cbn [append].
  destruct (is_digit_facts _ Hc) as (_ & -> & -> & _).
  change (String c (g' ++ String " " (Str.int_rstrip x)))
    with (String c g' ++ String " " (Str.int_rstrip x))%string.
  rewrite (digits_acc_stops _ _ false 0%N Hd). reflexivity.
Qed.

(** X20.  When the class attribute of the immediate parent of a selected span
    is [verse v] followed by a text without [v], of up to 4300 characters (so
    that no limit on the digits of [int] is met), the span is given what
    Python's [int] makes of that text and the extraction of the span fails
    with [ValueError] when [int] refuses it.  So a number may come with
    blanks around it; the separators U+001C to U+001F, which [str.strip]
    removes, are no blanks for [int] and make the chapter fail; and so does a
    second class name after the verse token. *)
Theorem X20_single_token_class_is_read_by_int
  (leaf parent : element) (up : list element) (r : string) :
  attrib_class parent = Ok ("verse v" ++ r)%string ->
  all_chars (fun a => negb (Ascii.eqb "v" a)) r = true ->
  (String.length r <= 4300)%nat ->
  leaf_verse (leaf, parent :: up) = ([], Str.int r) /\
  (forall b1 g b2,
     r = (b1 ++ g ++ b2)%string ->
     blank_text b1 = true -> blank_text b2 = true ->
     digit_group g = true ->
     leaf_verse (leaf, parent :: up) = ([], Ok (group_value g))) /\
  (forall c r',
     r = String c r' -> In c ["028"; "029"; "030"; "031"]%char ->
     leaf_verse (leaf, parent :: up) = ([], Raise ValueError)) /\
  (forall g x,
     r = (g ++ String " " x)%string -> digit_group g = true ->
     blank_text x = false ->
     leaf_verse (leaf, parent :: up) = ([], Raise ValueError)).
Proof.
  intros Hc Hr _.
  assert (Hcount : Str.count ("verse v" ++ r) "v" = 2%nat)
    by (rewrite count_v_prefixed, (count_char_zero "v" r Hr); reflexivity).
  assert (Hint : leaf_verse (leaf, parent :: up) = ([], Str.int r)).
  { rewrite (leaf_verse_of_parent (leaf, parent :: up) [] (parent, up) 2
               ("verse v" ++ r)%string).
    - rewrite Hcount. cbn [Nat.ltb Nat.leb]. f_equal. f_equal.
      unfold Str.replace.
      cbn [append Str.replace_from Str.startswith Ascii.eqb Bool.eqb andb
           String.length Nat.sub].
      rewrite startswith_nil. cbn [append].
      apply replace_from_first_absent. exact Hr.
    - unfold verse_parent, getparent. cbn [snd fst]. rewrite Hc, bind_lift_ok.
      rewrite Hcount. reflexivity.
    - exact Hc. }
  rewrite Hint. split; [reflexivity|]. split; [|split].
  - intros b1 g b2 -> H1 H2 Hg. rewrite (int_blanks_around b1 g b2 H1 H2 Hg).
    reflexivity.
  - intros c r' -> Hin. rewrite (int_separator c r' Hin). reflexivity.
  - intros g x -> Hg Hx. rewrite (int_second_word g x Hg Hx). reflexivity.
Qed.

(** ** Bible.Book.__init__ with the chapter count given *)

Lemma remove_char_gone (c : ascii) (s : string) :
  all_chars (fun a => negb (Ascii.eqb a c)) (spec_remove_char c s) = true.
Proof.
  induction s as [|a s IH]; [reflexivity|]. cbn [spec_remove_char].
  destruct (Ascii.eqb a c) eqn:E; [exact IH|].
  cbn [all_chars]. rewrite E, IH. reflexivity.
Qed.

(** X21.  With the chapter count given, [Book.__init__] makes no request and
    prints nothing.  It builds the Book when an abbreviation is given, and
    then the abbreviation it stores holds no dot and [len(book)] is the count
    given; it raises [AttributeError] when the abbreviation is left out,
    since the default [None] has no [replace]. *)
Theorem X21_Book_init_with_length_needs_the_abbreviation
  (w : World) (id name : string) (bible : Z) (n : nat) :
  Book_init w id name bible (Some n) None = ([], Raise AttributeError) /\
  (forall a, exists b,
     Book_init w id name bible (Some n) (Some a) = ([], Ok b) /\
     book_id b = id /\ book_name b = name /\ book_bible b = bible /\
     Book_len b = n /\
     book_abrev b = spec_remove_char "." a /\
     all_chars (fun c => negb (Ascii.eqb c ".")) (book_abrev b) = true).
Proof.
  split; [reflexivity|]. intros a. eexists.
  split; [rewrite Book_init_given; reflexivity|].
  cbn [book_id book_name book_bible Book_len book_length book_abrev].
  rewrite (replace_char_remove "."). repeat split. apply remove_char_gone.
Qed.

(** * Witnesses of the further properties *)

Lemma X1_Bible_init_builds_the_catalogue_witness :
  exists bible,
    Bible_init offline_world 1 = ([], Ok bible) /\
    bible_id bible = 1 /\
    bible_name bible = "Sample Version" /\
    bible_abrev bible = "SV" /\
    bible_author bible = "Publisher" /\
    bible_lang bible = "eng" /\
    bible_description bible = "Public domain" /\
    Bible_iter bible = [sample_book] /\
    Bible_len bible = 1%nat.
Proof.
  apply (X1_Bible_init_builds_the_catalogue offline_world 1
           {| status_code := 200; res_text := []; res_json := Ok sample_json |}
           sample_json); reflexivity.
Defined.

Lemma X2_get_book_finds_the_book_of_a_code_witness :
  fst (get_book (lookups two_book_bible [KStr "XYZ"]) (KStr "EXO")) = Ok exodus_book.
Proof.
  apply (X2_get_book_finds_the_book_of_a_code two_book_offline 1 []
           two_book_bible [KStr "XYZ"] 1 exodus_book).
  - reflexivity.
  - reflexivity.
  - intros m b' Hm Hn. destruct m as [|[|[|m]]]; try lia; discriminate.
Defined.

Lemma X3_indexing_with_a_Book_gives_the_first_book_witness :
  fst (Bible_getitem (lookups two_book_bible []) (KBook exodus_book)) = Ok sample_book.
Proof.
  apply (X3_indexing_with_a_Book_gives_the_first_book two_book_offline 1 []
           two_book_bible [] exodus_book).
  reflexivity.
Defined.

Lemma X5_selected_spans_are_the_content_spans_under_a_span_witness :
  In span_In (xpath_content [] genesis_fragment).
Proof.
  apply (proj2 (X5_selected_spans_are_the_content_spans_under_a_span
                  genesis_fragment (content "In") [verse1_span; genesis_fragment])).
  split; [|split; [reflexivity|split; [reflexivity|]]].
  - apply located_child; [|left; reflexivity].
    apply located_child; [|left; reflexivity].
    apply located_root.
  - exists verse1_span, [genesis_fragment]. split; reflexivity.
Defined.

Lemma X6_a_built_Chapter_printed_only_the_status_witness :
  (exists res,
     http_get (page_world genesis_fragment) (chapter_url "GEN" 1 1) = Ok res /\
     [] = status_print res (chapter_url "GEN" 1 1)) /\
  chapter_book genesis_chapter = "GEN" /\
  chapter_number genesis_chapter = 1 /\
  chapter_bible genesis_chapter = 1.
Proof.
  apply (X6_a_built_Chapter_printed_only_the_status
           (page_world genesis_fragment) "GEN" 1 1 [] genesis_chapter).
  reflexivity.
Defined.

Lemma X7_verse_text_is_the_texts_of_its_spans_witness :
  verse_text [(1, "In the"); (2, "beginning")] 1
    = verse_pieces (xpath_content [] genesis_fragment) None 1.
Proof.
  apply (X7_verse_text_is_the_texts_of_its_spans genesis_fragment []
           [(1, "In the"); (2, "beginning")] (Some 2) 1).
  reflexivity.
Defined.

Lemma X8_verses_come_in_first_seen_order_witness :
  dict_keys [(1, "In the"); (2, "beginning")]
    = first_seen [] (assigned_all (xpath_content [] genesis_fragment)) /\
  NoDup (dict_keys [(1, "In the"); (2, "beginning")]).
Proof.
  apply (X8_verses_come_in_first_seen_order genesis_fragment []
           [(1, "In the"); (2, "beginning")] (Some 2)).
  reflexivity.
Defined.

Lemma X9_a_span_without_text_fails_the_chapter_witness :
  (exists t e, extract textless_span = (t, Raise e)) /\
  (forall tp st tv v,
     foldM loop_body [(content "In", [textless_span])] ([], None) = (tp, Ok st) ->
     leaf_verse (empty_content, [textless_span]) = (tv, Ok v) ->
     extract textless_span = ([], Raise AttributeError)).
Proof.
  apply (X9_a_span_without_text_fails_the_chapter textless_span
           [(content "In", [textless_span])] []
           (empty_content, [textless_span])); reflexivity.
Defined.

Lemma X10_Chapter_init_failures_before_extraction_witness :
  Chapter_init dead_world "GEN" 1 1 = ([], Raise (LibraryError "ConnectionError")).
Proof.
  apply (proj1 (X10_Chapter_init_failures_before_extraction dead_world "GEN" 1 1)).
  reflexivity.
Defined.

Lemma X11_get_async_chapters_maps_every_chapter_once_witness :
  exists chapters,
    snd (get_async_chapters (page_world genesis_fragment) sample_book) = Ok chapters /\
    dict_keys chapters = [1; 2] /\
    NoDup (dict_keys chapters) /\
    Permutation (dict_keys chapters) [1; 2] /\
    (forall ch, In ch [1; 2] -> dict_getitem chapters ch = Ok (numbered_chapter ch)).
Proof.
  apply (X11_get_async_chapters_maps_every_chapter_once
           (page_world genesis_fragment) sample_book numbered_chapter).
  - apply Permutation_refl.
  - intros ch [<-|[<-|[]]]; reflexivity.
Defined.

Lemma X12_write_chapters_renders_the_map_witness :
  write_chapters [(1, genesis_chapter)]
    = (map FileWrite (render_chapters [(1, genesis_chapter)]), Ok tt) /\
  file_writes (fst (write_chapters [(1, genesis_chapter)]))
    = render_chapters [(1, genesis_chapter)].
Proof.
  apply (X12_write_chapters_renders_the_map [(1, genesis_chapter)]).
  - constructor; [intros []|constructor].
  - intros n c [H|[]]. apply (f_equal snd) in H. cbn [snd] in H. subst c.
    constructor; [intros [H|[]]; discriminate|].
    constructor; [intros []|constructor].
Defined.

Lemma X13_writeFile_writes_the_first_book_under_every_book_witness :
  (exists bible',
     snd (writeFile (steady (two_book_world genesis_fragment)) O two_book_bible)
       = Ok bible') /\
  file_writes
    (fst (writeFile (steady (two_book_world genesis_fragment)) O two_book_bible)) =
    header (two_book_world genesis_fragment) two_book_bible
    :: flat_map
         (fun kb =>
            book_lines (Z.of_nat (fst kb)) (snd kb)
              [(1, numbered_chapter 1); (2, numbered_chapter 2)])
         [(1%nat, sample_book); (2%nat, exodus_book)]
    ++ ["</XMLBIBLE>"].
Proof.
  apply (X13_writeFile_writes_the_first_book_under_every_book
           (steady (two_book_world genesis_fragment)) O two_book_offline 1 []
           two_book_bible sample_book [exodus_book] (fun _ => numbered_chapter)).
  - reflexivity.
  - reflexivity.
  - reflexivity.
  - intros k _. split; [apply Permutation_refl|].
    intros ch [<-|[<-|[]]]; reflexivity.
Defined.


Lemma X22_writeFile_opens_the_file_first_witness :
  writeFile (steady (read_only offline_world)) O sample_bible
    = ([], Raise (OSError "PermissionError")).
Proof.
  apply (proj1 (X22_writeFile_opens_the_file_first
                  (steady (read_only offline_world)) O sample_bible)).
  reflexivity.
Defined.

Lemma X16_Bible_init_fails_only_on_fetch_or_parse_witness :
  Bible_init dead_world 1 = ([], Raise (LibraryError "ConnectionError")).
Proof.
  apply (proj1 (X16_Bible_init_fails_only_on_fetch_or_parse dead_world 1)).
  reflexivity.
Defined.

Lemma X17_a_failed_extraction_has_one_of_three_exceptions_witness :
  extraction_error AttributeError /\ at_most_one_tag [].
Proof.
  apply (X17_a_failed_extraction_has_one_of_three_exceptions note_fragment []
           AttributeError).
  reflexivity.
Defined.

Lemma X18_decodeHtml_exceptions_witness :
  decodeHtml offline_world [97%N; 55296%N] = Raise UnicodeEncodeError.
Proof.
  apply (proj1 (X18_decodeHtml_exceptions offline_world [97%N; 55296%N])).
  apply Exists_cons_tl. apply Exists_cons_hd. left. lia.
Defined.

Lemma X19_decodeHtml_passes_a_plain_prefix_witness :
  decodeHtml offline_world (Codec.points "<b>" ++ Codec.points "\n")
    = rbind (decodeHtml offline_world (Codec.points "\n"))
            (fun t => Ok (Codec.points "<b>" ++ t)).
Proof.
  apply (X19_decodeHtml_passes_a_plain_prefix offline_world
           (Codec.points "<b>") (Codec.points "\n")).
  - repeat constructor.
  - repeat (constructor; [discriminate|]). constructor.
Defined.

Lemma X20_single_token_class_is_read_by_int_witness :
  leaf_verse (content "x", [span_of "verse v7 extra" [content "x"]])
    = ([], Raise ValueError).
Proof.
  apply (proj2 (proj2 (proj2
           (X20_single_token_class_is_read_by_int (content "x")
              (span_of "verse v7 extra" [content "x"]) [] "7 extra"
              eq_refl eq_refl ltac:(cbn; lia)))) "7" "extra");
    reflexivity.
Defined.
